(** * MobiFile / libmobi [util.c]: a shallow embedding and its properties

    The development follows [src/MobiFile/lib/util.c] and the structures of
    [src/MobiFile/lib/mobi.h].

    Conventions of the embedding
    - an [unsigned char], [uint16_t], [uint32_t] or [size_t] value is a [Z];
      where the C arithmetic can wrap, the wrap-around is written out
      ([wrap32], [wrap_size]);
    - a C pointer that may be [NULL] is an [option]; a linked list
      ([MOBIPdbRecord], [MOBIExthHeader]) is the [list] of its nodes, the
      [NULL] list being [[]];
    - a function that dereferences a pointer without testing it returns an
      [option]: [None] stands for the dereference of [NULL] (undefined
      behaviour in C);
    - the data of a record is the list of its [size] bytes; a [memcmp] or
      [memcpy] that reads more bytes than the record holds, and a copy of
      a record into a local array that is smaller, give [None] as well:
      what the C code does there is not determined by the document;
    - output parameters ([char *text], [size_t *len], ...) are returned next
      to the status code; a buffer with its length ([data] and [size]) is the
      list of its bytes.  A store past the end of a buffer extends the
      list: overflows are outside the embedding. *)

From Stdlib Require Import ZArith List String Ascii Bool Lia.
From stdpp Require Import base option list gmap.
Import ListNotations.

Local Open Scope Z_scope.

(* ===================================================================== *)
(** * Part I. Definitions                                                 *)
(* ===================================================================== *)

(** ** Status codes and constants ([mobi.h]) *)

Inductive MOBI_RET : Type :=
| MOBI_SUCCESS          (* 0 *)
| MOBI_ERROR            (* 1 *)
| MOBI_PARAM_ERR        (* 2 *)
| MOBI_DATA_CORRUPT     (* 3 *)
| MOBI_FILE_NOT_FOUND   (* 4 *)
| MOBI_FILE_ENCRYPTED   (* 5 *)
| MOBI_FILE_UNSUPPORTED (* 6 *)
| MOBI_MALLOC_FAILED    (* 7 *)
| MOBI_INIT_FAILED      (* 8 *)
| MOBI_BUFFER_END       (* 9 *)
| MOBI_XML_ERR.         (* 10 *)

(** Text encodings.  The enum [MOBIEncoding] is declared in [util.h]; its two
    values are the encoding ids stored in the MOBI header (1252 and 65001). *)
Inductive MOBIEncoding : Type := MOBI_CP1252 | MOBI_UTF8.

Definition MOBIEncoding_value (e : MOBIEncoding) : Z :=
  match e with MOBI_CP1252 => 1252 | MOBI_UTF8 => 65001 end.

(** The not-set sentinel ([UINT32_MAX]). *)
Definition MOBI_NOTSET : Z := 0xFFFFFFFF.

(** Record-0 constants ([util.h]). *)
Definition RECORD0_NO_COMPRESSION : Z := 1.
Definition RECORD0_PALMDOC_COMPRESSION : Z := 2.
Definition RECORD0_HUFF_COMPRESSION : Z := 17480.
Definition RECORD0_TEXT_SIZE_MAX : Z := 4096.
Definition RECORD0_OLD_ENCRYPTION : Z := 1.
Definition RECORD0_MOBI_ENCRYPTION : Z := 2.

Definition EXTH_KF8BOUNDARY : Z := 121.

(** Machine arithmetic: [uint32_t] and [size_t] (taken as 64 bits wide). *)
Definition wrap32 (z : Z) : Z := z mod 2 ^ 32.
Definition wrap_size (z : Z) : Z := z mod 2 ^ 64.

(** A byte of a C string as its character code. *)
Definition byte_of_ascii (c : ascii) : Z := Z.of_N (N_of_ascii c).

Fixpoint bytes_of_string (s : string) : list Z :=
  match s with
  | EmptyString => []
  | String c s' => byte_of_ascii c :: bytes_of_string s'
  end.

(** [memcpy]-style store of [src] at the start of the buffer [dst]: the
    bytes after the stored ones keep their old value. *)
Definition store_bytes (dst src : list Z) : list Z :=
  src ++ drop (length src) dst.

(** The same at the offset [off] of the buffer. *)
Definition store_at (dst : list Z) (off : Z) (src : list Z) : list Z :=
  take (Z.to_nat off) dst ++ store_bytes (drop (Z.to_nat off) dst) src.

(* --------------------------------------------------------------------- *)
(** ** CP1252 to UTF-8 conversion                                          *)
(* --------------------------------------------------------------------- *)

(** The lookup table [cp1252_to_utf8[32][3]]; an initializer [{0}] is the
    all-zero row. *)
Definition cp1252_to_utf8 : list (list Z) :=
  [ [0xe2;0x82;0xac];
    [0;0;0];
    [0xe2;0x80;0x9a];
    [0xc6;0x92;0];
    [0xe2;0x80;0x9e];
    [0xe2;0x80;0xa6];
    [0xe2;0x80;0xa0];
    [0xe2;0x80;0xa1];
    [0xcb;0x86;0];
    [0xe2;0x80;0xb0];
    [0xc5;0xa0;0];
    [0xe2;0x80;0xb9];
    [0xc5;0x92;0];
    [0;0;0];
    [0xc5;0xbd;0];
    [0;0;0];
    [0;0;0];
    [0xe2;0x80;0x98];
    [0xe2;0x80;0x99];
    [0xe2;0x80;0x9c];
    [0xe2;0x80;0x9d];
    [0xe2;0x80;0xa2];
    [0xe2;0x80;0x93];
    [0xe2;0x80;0x94];
    [0xcb;0x9c;0];
    [0xe2;0x84;0xa2];
    [0xc5;0xa1;0];
    [0xe2;0x80;0xba];
    [0xc5;0x93;0];
    [0;0;0];
    [0xc5;0xbe;0];
    [0xc5;0xb8;0] ].

(** The row [cp1252_to_utf8[*in - 0x80]]. *)
Definition cp1252_row (b : Z) : list Z :=
  nth (Z.to_nat (b - 0x80)) cp1252_to_utf8 [0;0;0].

(** The inner [while (i < 3)] loop of [mobi_cp1252_to_utf8]: the bytes of
    the row are appended to the output up to the first zero byte; the
    result is the output written so far and the final [i]. *)
Fixpoint cp1252_table_loop (row out : list Z) (i : Z) : list Z * Z :=
  match row with
  | [] => (out, i)
  | c :: row' =>
      if c =? 0 then (out, i)
      else cp1252_table_loop row' (out ++ [c]) (i + 1)
  end.

(** How the main loop of [mobi_cp1252_to_utf8] ends. *)
Inductive cp1252_exit : Type :=
| Cp_done (out : list Z)      (* the loop condition failed *)
| Cp_corrupt (out : list Z).  (* [return MOBI_DATA_CORRUPT] inside the loop *)

(** The main loop, [while ( *in && in < inend && out < outend)].  [input] is
    what remains between [in] and [inend], [out] the bytes stored so far
    (so the pointer [out] is [output + length out]) and [outsize] the
    distance from [output] to [outend].  Every round that does not return
    advances [in] by one. *)
Fixpoint cp1252_loop (input : list Z) (outsize : Z) (out : list Z) : cp1252_exit :=
  match input with
  | [] => Cp_done out
  | b :: rest =>
      if (b =? 0) || negb (Z.of_nat (length out) <? outsize) then Cp_done out
      else if b <? 0x80 then
        cp1252_loop rest outsize (out ++ [b])
      else if b <? 0xa0 then
        let '(out', i) := cp1252_table_loop (cp1252_row b) out 0 in
        if i =? 0 then Cp_corrupt out'
        else cp1252_loop rest outsize out'
      else if b <? 0xc0 then
        cp1252_loop rest outsize (out ++ [0xc2; b])
      else
        cp1252_loop rest outsize (out ++ [0xc3; Z.land b 0x3f + 0x80])
  end.

(** [mobi_cp1252_to_utf8 output input outsize insize]: [output] is the
    caller's buffer, [input] the [insize] bytes at the input pointer
    ([insize] is the length of the list), [outsize] the incoming [*outsize].
    The result is the status, the buffer and [*outsize] afterwards. *)
Definition mobi_cp1252_to_utf8 (output input : option (list Z)) (outsize : Z)
  : MOBI_RET * option (list Z) * Z :=
  match output, input with
  | Some buf, Some inp =>
      match cp1252_loop inp outsize [] with
      | Cp_corrupt out => (MOBI_DATA_CORRUPT, Some (store_bytes buf out), outsize)
      | Cp_done out =>
          (MOBI_SUCCESS, Some (store_bytes buf (out ++ [0])), Z.of_nat (length out))
      end
  | _, _ => (MOBI_PARAM_ERR, output, outsize)
  end.

(** The bytes of a table row that the inner loop stores. *)
Fixpoint cp1252_row_bytes (row : list Z) : list Z :=
  match row with
  | [] => []
  | c :: row' => if c =? 0 then [] else c :: cp1252_row_bytes row'
  end.

(** The integers [lo], [lo + 1], ..., [lo + n - 1]. *)
Definition Zrange (lo : Z) (n : nat) : list Z :=
  map (fun k => lo + Z.of_nat k) (seq 0 n).

(** *** The conversion as the specification words it *)

(** The five bytes of 0x80..0x9F that CP1252 leaves unassigned. *)
Definition cp1252_unassigned (b : Z) : bool :=
  (b =? 0x81) || (b =? 0x8D) || (b =? 0x8F) || (b =? 0x90) || (b =? 0x9D).

(** Unicode code points of the CP1252 bytes 0x80..0x9F (0 where unassigned). *)
Definition cp1252_high_codepoints : list Z :=
  [ 0x20AC; 0; 0x201A; 0x0192; 0x201E; 0x2026; 0x2020; 0x2021;
    0x02C6; 0x2030; 0x0160; 0x2039; 0x0152; 0; 0x017D; 0;
    0; 0x2018; 0x2019; 0x201C; 0x201D; 0x2022; 0x2013; 0x2014;
    0x02DC; 0x2122; 0x0161; 0x203A; 0x0153; 0; 0x017E; 0x0178 ].

Definition cp1252_codepoint (b : Z) : Z :=
  if (0x80 <=? b) && (b <? 0xA0)
  then nth (Z.to_nat (b - 0x80)) cp1252_high_codepoints 0
  else b.

(** UTF-8 encoding of a code point below 0x10000. *)
Definition utf8_encode (cp : Z) : list Z :=
  if cp <? 0x80 then [cp]
  else if cp <? 0x800 then
    [Z.lor 0xC0 (Z.shiftr cp 6); Z.lor 0x80 (Z.land cp 0x3F)]
  else
    [Z.lor 0xE0 (Z.shiftr cp 12);
     Z.lor 0x80 (Z.land (Z.shiftr cp 6) 0x3F);
     Z.lor 0x80 (Z.land cp 0x3F)].

(** The image of one byte: [None] is [MOBI_DATA_CORRUPT]. *)
Definition spec_cp1252_byte (b : Z) : option (list Z) :=
  if b <? 0x80 then Some [b]
  else if b <? 0xA0 then
    if cp1252_unassigned b then None
    else Some (utf8_encode (cp1252_codepoint b))
  else if b <? 0xC0 then Some [0xC2; b]
  else Some [0xC3; Z.lor (Z.land b 0x3F) 0x80].

(** Every byte of the input is mapped, in order. *)
Fixpoint spec_cp1252_bytes (input : list Z) : option (list Z) :=
  match input with
  | [] => Some []
  | b :: rest =>
      match spec_cp1252_byte b, spec_cp1252_bytes rest with
      | Some e, Some r => Some (e ++ r)
      | _, _ => None
      end
  end.

(** The C string held by a byte array: its bytes up to the first NUL. *)
Fixpoint c_string (input : list Z) : list Z :=
  match input with
  | [] => []
  | b :: rest => if b =? 0 then [] else b :: c_string rest
  end.

(** *** A reference UTF-8 to CP1252 decoder *)

(** Position of [x] in [l], counted from [i]. *)
Fixpoint index_of (x : Z) (l : list Z) (i : Z) : option Z :=
  match l with
  | [] => None
  | y :: l' => if y =? x then Some i else index_of x l' (i + 1)
  end.

(** The CP1252 byte of a code point, when it has one. *)
Definition cp1252_of_codepoint (cp : Z) : option Z :=
  if (0 <=? cp) && (cp <? 0x80) then Some cp
  else if (0xA0 <=? cp) && (cp <? 0x100) then Some cp
  else
    (fun i => 0x80 + i) <$> index_of cp cp1252_high_codepoints 0.

Definition utf8_continuation (b : Z) : bool := (0x80 <=? b) && (b <? 0xC0).

Definition option_cons (x : option Z) (r : option (list Z)) : option (list Z) :=
  match x, r with
  | Some b, Some l => Some (b :: l)
  | _, _ => None
  end.

(** Decodes one-, two- and three-byte UTF-8 sequences and maps every code
    point to its CP1252 byte; [None] on malformed input or on a code point
    outside CP1252. *)
Fixpoint ref_utf8_to_cp1252 (l : list Z) : option (list Z) :=
  match l with
  | [] => Some []
  | b0 :: t0 =>
      if (0 <=? b0) && (b0 <? 0x80) then
        option_cons (cp1252_of_codepoint b0) (ref_utf8_to_cp1252 t0)
      else if (0xC0 <=? b0) && (b0 <? 0xE0) then
        match t0 with
        | b1 :: t1 =>
            if utf8_continuation b1 then
              option_cons
                (cp1252_of_codepoint
                   (Z.lor (Z.shiftl (Z.land b0 0x1F) 6) (Z.land b1 0x3F)))
                (ref_utf8_to_cp1252 t1)
            else None
        | [] => None
        end
      else if (0xE0 <=? b0) && (b0 <? 0xF0) then
        match t0 with
        | b1 :: b2 :: t2 =>
            if utf8_continuation b1 && utf8_continuation b2 then
              option_cons
                (cp1252_of_codepoint
                   (Z.lor (Z.shiftl (Z.land b0 0x0F) 12)
                      (Z.lor (Z.shiftl (Z.land b1 0x3F) 6) (Z.land b2 0x3F))))
                (ref_utf8_to_cp1252 t2)
            else None
        | _ => None
        end
      else None
  end.

(** The string written by a successful conversion: the buffer up to the
    terminating NUL, [*outsize] bytes. *)
Definition cp1252_converted (r : MOBI_RET * option (list Z) * Z) : option (list Z) :=
  match r with
  | (MOBI_SUCCESS, Some buf, n) => Some (take (Z.to_nat n) buf)
  | _ => None
  end.

(** The table agrees with the UTF-8 encoding of the CP1252 code points: an
    assigned byte of 0x80..0x9F stores the encoding of its code point, an
    unassigned one stores nothing. *)
Definition cp1252_row_check (b : Z) : bool :=
  if cp1252_unassigned b
  then bool_decide (cp1252_row_bytes (cp1252_row b) = [])
  else bool_decide (cp1252_row_bytes (cp1252_row b) = utf8_encode (cp1252_codepoint b))
       && (1 <=? Z.of_nat (length (cp1252_row_bytes (cp1252_row b))))
       && (Z.of_nat (length (cp1252_row_bytes (cp1252_row b))) <=? 3).

(** One byte: the decoder reads back the byte from its encoding, whatever
    follows. *)
Definition byte_roundtrip (b : Z) : Prop :=
  cp1252_unassigned b = false ->
  exists e, spec_cp1252_byte b = Some e /\
    forall rest, ref_utf8_to_cp1252 (e ++ rest)
                 = option_cons (Some b) (ref_utf8_to_cp1252 rest).

(* --------------------------------------------------------------------- *)
(** ** Locale table                                                        *)
(* --------------------------------------------------------------------- *)

Definition MOBI_LANG_MAX : Z := 99.
Definition MOBI_REGION_MAX : Z := 21.

(** One initializer of the array [mobi_locale]: a row of region strings,
    either at the next position or at a designated position [[k] = ...]. *)
Inductive locale_init : Type :=
| Row (regions : list string)
| RowAt (k : nat) (regions : list string).

(** The initializer list of [mobi_locale], in the order of the source. *)
Definition mobi_locale_inits : list locale_init :=
  [ Row ["neutral"];
    Row ["ar"; "ar-sa"; "ar"; "ar-eg"; "ar"; "ar-dz"; "ar-ma"; "ar-tn";
         "ar-om"; "ar-ye"; "ar-sy"; "ar-jo"; "ar-lb"; "ar-kw"; "ar-ae";
         "ar-bh"; "ar-qa"];
    Row ["bg"];
    Row ["ca"];
    Row ["zh"; "zh-tw"; "zh-cn"; "zh-hk"; "zh-sg"];
    Row ["cs"];
    Row ["da"];
    Row ["de"; "de-de"; "de-ch"; "de-at"; "de-lu"; "de-li"];
    Row ["el"];
    Row ["en"; "en-us"; "en-gb"; "en-au"; "en-ca"; "en-nz"; "en-ie";
         "en-za"; "en-jm"; "en"; "en-bz"; "en-tt"; "en-zw"; "en-ph"];
    Row ["es"; "es-es"; "es-mx"; "es"; "es-gt"; "es-cr"; "es-pa"; "es-do";
         "es-ve"; "es-co"; "es-pe"; "es-ar"; "es-ec"; "es-cl"; "es-uy";
         "es-py"; "es-bo"; "es-sv"; "es-hn"; "es-ni"; "es-pr"];
    Row ["fi"];
    Row ["fr"; "fr-fr"; "fr-be"; "fr-ca"; "fr-ch"; "fr-lu"; "fr-mc"];
    Row ["he"];
    Row ["hu"];
    Row ["is"];
    Row ["it"; "it-it"; "it-ch"];
    Row ["ja"];
    Row ["ko"];
    Row ["nl"; "nl-nl"; "nl-be"];
    Row ["no"];
    Row ["pl"];
    Row ["pt"; "pt-br"; "pt-pt"];
    Row ["rm"];
    Row ["ro"];
    Row ["ru"];
    Row ["hr"];
    Row ["sr"; "sr"; "sr"; "sr"];
    Row ["sk"];
    Row ["sq"];
    Row ["sv"; "sv-se"; "sv-fi"];
    Row ["th"];
    Row ["tr"];
    Row ["ur"];
    Row ["id"];
    Row ["uk"];
    Row ["be"];
    Row ["sl"];
    Row ["et"];
    Row ["lv"];
    Row ["lt"];
    RowAt 41 ["fa"];
    Row ["vi"];
    Row ["hy"];
    Row ["az"];
    Row ["eu"];
    Row ["sb"];
    Row ["mk"];
    Row ["sx"];
    Row ["ts"];
    Row ["tn"];
    RowAt 52 ["xh"];
    Row ["zu"];
    Row ["af"];
    Row ["ka"];
    Row ["fo"];
    Row ["hi"];
    Row ["mt"];
    Row ["sz"];
    Row ["ga"];
    RowAt 62 ["ms"];
    Row ["kk"];
    RowAt 65 ["sw"];
    RowAt 67 ["uz"; "uz"; "uz-uz"];
    Row ["tt"];
    Row ["bn"];
    Row ["pa"];
    Row ["gu"];
    Row ["or"];
    Row ["ta"];
    Row ["te"];
    Row ["kn"];
    Row ["ml"];
    Row ["as"];
    Row ["mr"];
    Row ["sa"];
    RowAt 82 ["cy"; "cy-gb"];
    Row ["gl"; "gl-es"];
    RowAt 87 ["x-kok"];
    RowAt 97 ["ne"];
    Row ["fy"] ]%string.

(** C array initialization: an initializer goes to the position after the
    previous one, a designated one to its index; the other rows stay empty
    (all their entries are [NULL]). *)
Fixpoint locale_fill (inits : list locale_init) (pos : nat)
    (arr : list (list string)) : list (list string) :=
  match inits with
  | [] => arr
  | Row r :: rest => locale_fill rest (S pos) (<[pos := r]> arr)
  | RowAt k r :: rest => locale_fill rest (S k) (<[k := r]> arr)
  end.

Definition mobi_locale : list (list string) :=
  Eval vm_compute in
    locale_fill mobi_locale_inits 0 (replicate (Z.to_nat MOBI_LANG_MAX) []).

(** [mobi_locale[lang_code][region_code]] for indices inside the array;
    [None] is the [NULL] entry. *)
Definition mobi_locale_entry (lang_code region_code : Z) : option string :=
  match mobi_locale !! Z.to_nat lang_code with
  | Some row => row !! Z.to_nat region_code
  | None => None
  end.

(** [strlen] of a C string. *)
Definition strlen (s : string) : Z := Z.of_nat (String.length s).

(** [tolower] in the C locale. *)
Definition tolower (c : ascii) : ascii :=
  let n := N_of_ascii c in
  if ((65 <=? n) && (n <=? 90))%N then ascii_of_N (n + 32) else c.

Fixpoint lower_string (s : string) : string :=
  match s with
  | EmptyString => EmptyString
  | String c s' => String (tolower c) (lower_string s')
  end.

(** [strncmp a b n == 0]. *)
Fixpoint strncmp_eq (a b : string) (n : nat) : bool :=
  match n with
  | O => true
  | S n' =>
      match a, b with
      | EmptyString, EmptyString => true
      | String x a', String y b' => Ascii.eqb x y && strncmp_eq a' b' n'
      | _, _ => false
      end
  end.

(** [strcmp a b == 0]. *)
Definition strcmp_eq (a b : string) : bool := String.eqb a b.

(** [mobi_get_locale_string]: [None] is the [NULL] result. *)
Definition mobi_get_locale_string (locale_number : Z) : option string :=
  let lang_code := Z.land locale_number 0xff in
  let region_code := Z.shiftr locale_number 8 / 4 in
  if (lang_code >=? MOBI_LANG_MAX) || (region_code >=? MOBI_REGION_MAX) then None
  else
    match mobi_locale_entry lang_code region_code with
    | None => None
    | Some s => if strlen s =? 0 then None else Some s
    end.

(** The inner loop of [mobi_get_locale_number],
    [while (region_code < MOBI_REGION_MAX)]; [fuel] is the number of rounds
    left, [MOBI_REGION_MAX - region_code].  [strcmp] is called on the table
    entry without a test: on a [NULL] entry the result is [None]. *)
Fixpoint locale_region_loop (fuel : nat) (lower_locale : string)
    (lang_code region_code : Z) : option Z :=
  match fuel with
  | O => Some lang_code
  | S fuel' =>
      match mobi_locale_entry lang_code region_code with
      | None => None
      | Some s =>
          if strcmp_eq lower_locale s
          then Some (Z.lor (Z.shiftl (region_code * 4) 8) lang_code)
          else locale_region_loop fuel' lower_locale lang_code (region_code + 1)
      end
  end.

(** The outer loop, [while (lang_code < MOBI_LANG_MAX)]; [fuel] is
    [MOBI_LANG_MAX - lang_code]. *)
Fixpoint locale_lang_loop (fuel : nat) (locale_string : string)
    (lang_code : Z) : option Z :=
  match fuel with
  | O => Some 0
  | S fuel' =>
      match mobi_locale_entry lang_code 0 with
      | None => locale_lang_loop fuel' locale_string (lang_code + 1)
      | Some first =>
          let lower_locale := lower_string locale_string in
          if strncmp_eq lower_locale first 2
          then locale_region_loop (Z.to_nat MOBI_REGION_MAX) lower_locale lang_code 0
          else locale_lang_loop fuel' locale_string (lang_code + 1)
      end
  end.

(** [mobi_get_locale_number]; the argument [None] is the [NULL] string, the
    result [None] a call of [strcmp] on a [NULL] table entry. *)
Definition mobi_get_locale_number (locale_string : option string) : option Z :=
  match locale_string with
  | None => Some 0
  | Some s =>
      if strlen s <? 2 then Some 0
      else locale_lang_loop (Z.to_nat MOBI_LANG_MAX) s 0
  end.

(** The number of a (language, region) pair as the table encodes it. *)
Definition locale_encoding (lang_code region_code : Z) : Z :=
  Z.lor (Z.shiftl (region_code * 4) 8) lang_code.

(* --------------------------------------------------------------------- *)
(** ** Document structures ([mobi.h])                                      *)
(* --------------------------------------------------------------------- *)

(** [MOBIPdbHeader]. *)
Record MOBIPdbHeader : Type := {
  ph_name : string;
  ph_attributes : Z;
  ph_version : Z;
  ph_ctime : Z;
  ph_mtime : Z;
  ph_btime : Z;
  ph_mod_num : Z;
  ph_appinfo_offset : Z;
  ph_sortinfo_offset : Z;
  ph_type : string;
  ph_creator : string;
  ph_uid : Z;
  ph_next_rec : Z;
  ph_rec_count : Z
}.

(** [MOBIPdbRecord]: a node of the record list.  The buffer [data] of
    [size] bytes is the list [rec_data], and [next] is the tail of the list
    the node stands in. *)
Record MOBIPdbRecord : Type := {
  rec_offset : Z;
  rec_attributes : Z;
  rec_uid : Z;
  rec_data : list Z
}.

Definition rec_size (r : MOBIPdbRecord) : Z := Z.of_nat (length (rec_data r)).

(** [MOBIExthHeader]: a node of the EXTH list, [data] of [size] bytes. *)
Record MOBIExthHeader : Type := {
  exth_tag : Z;
  exth_data : list Z
}.

Definition exth_size (e : MOBIExthHeader) : Z := Z.of_nat (length (exth_data e)).

(** [MOBIRecord0Header]. *)
Record MOBIRecord0Header : Type := {
  rh_compression_type : Z;
  rh_text_length : Z;
  rh_text_record_count : Z;
  rh_text_record_size : Z;
  rh_encryption_type : Z;
  rh_unknown1 : Z
}.

(** [MOBIMobiHeader]: every field is a pointer, [NULL] when the field is
    not in the file.  The record keeps the fields that the functions
    embedded below read. *)
Record MOBIMobiHeader : Type := {
  mh_text_encoding : option Z;
  mh_version : option Z;
  mh_full_name_offset : option Z;
  mh_full_name_length : option Z;
  mh_last_text_index : option Z;
  mh_fdst_index : option Z;
  mh_fdst_section_count : option Z;
  mh_extra_flags : option Z
}.

(** [MOBIData].  [m_next] is the address of the other half of a hybrid
    file in the store of [MOBIData] structures. *)
Record MOBIData : Type := {
  m_use_kf8 : bool;
  m_kf8_boundary_offset : Z;
  m_ph : option MOBIPdbHeader;
  m_rh : option MOBIRecord0Header;
  m_mh : option MOBIMobiHeader;
  m_eh : list MOBIExthHeader;
  m_rec : list MOBIPdbRecord;
  m_next : option nat
}.

(** Field assignments. *)
Definition set_use_kf8 (b : bool) (d : MOBIData) : MOBIData :=
  {| m_use_kf8 := b;
     m_kf8_boundary_offset := m_kf8_boundary_offset d;
     m_ph := m_ph d; m_rh := m_rh d; m_mh := m_mh d; m_eh := m_eh d;
     m_rec := m_rec d; m_next := m_next d |}.

Definition set_rec (l : list MOBIPdbRecord) (d : MOBIData) : MOBIData :=
  {| m_use_kf8 := m_use_kf8 d;
     m_kf8_boundary_offset := m_kf8_boundary_offset d;
     m_ph := m_ph d; m_rh := m_rh d; m_mh := m_mh d; m_eh := m_eh d;
     m_rec := l; m_next := m_next d |}.

Definition set_rh (x : option MOBIRecord0Header) (d : MOBIData) : MOBIData :=
  {| m_use_kf8 := m_use_kf8 d;
     m_kf8_boundary_offset := m_kf8_boundary_offset d;
     m_ph := m_ph d; m_rh := x; m_mh := m_mh d; m_eh := m_eh d;
     m_rec := m_rec d; m_next := m_next d |}.

Definition set_mh (x : option MOBIMobiHeader) (d : MOBIData) : MOBIData :=
  {| m_use_kf8 := m_use_kf8 d;
     m_kf8_boundary_offset := m_kf8_boundary_offset d;
     m_ph := m_ph d; m_rh := m_rh d; m_mh := x; m_eh := m_eh d;
     m_rec := m_rec d; m_next := m_next d |}.

Definition set_eh (x : list MOBIExthHeader) (d : MOBIData) : MOBIData :=
  {| m_use_kf8 := m_use_kf8 d;
     m_kf8_boundary_offset := m_kf8_boundary_offset d;
     m_ph := m_ph d; m_rh := m_rh d; m_mh := m_mh d; m_eh := x;
     m_rec := m_rec d; m_next := m_next d |}.

(* --------------------------------------------------------------------- *)
(** ** Queries of [util.c]                                                 *)
(* --------------------------------------------------------------------- *)

(** [mobi_get_encoding]. *)
Definition mobi_get_encoding (m : option MOBIData) : MOBIEncoding :=
  match m with
  | Some d =>
      match m_mh d with
      | Some mh =>
          match mh_text_encoding mh with
          | Some e =>
              if e =? MOBIEncoding_value MOBI_UTF8 then MOBI_UTF8 else MOBI_CP1252
          | None => MOBI_CP1252
          end
      | None => MOBI_CP1252
      end
  | None => MOBI_CP1252
  end.

(** [mobi_is_cp1252]. *)
Definition mobi_is_cp1252 (m : option MOBIData) : bool :=
  match mobi_get_encoding m with MOBI_CP1252 => true | MOBI_UTF8 => false end.

(** The loop of [mobi_get_record_by_seqnumber]: [curr] is the list from the
    current node on, [i] the counter. *)
Fixpoint record_seq_loop (curr : list MOBIPdbRecord) (i num : Z)
  : option MOBIPdbRecord :=
  match curr with
  | [] => None
  | c :: next => if i =? num then Some c else record_seq_loop next (i + 1) num
  end.

(** [mobi_get_record_by_seqnumber]; [None] is the [NULL] result. *)
Definition mobi_get_record_by_seqnumber (m : option MOBIData) (num : Z)
  : option MOBIPdbRecord :=
  match m with
  | None => None
  | Some d => record_seq_loop (m_rec d) 0 num
  end.

(** The loop of [mobi_delete_record_by_seqnumber].  The result is the list
    that [curr] heads afterwards: at the node to delete it is [curr->next]
    (what [m->rec = curr->next] or [prev->next = curr->next] links in its
    place), before it the node keeps its place with the rest relinked. *)
Fixpoint record_delete_loop (curr : list MOBIPdbRecord) (i num : Z)
  : list MOBIPdbRecord :=
  match curr with
  | [] => []
  | c :: next =>
      if i =? num then next
      else c :: record_delete_loop next (i + 1) num
  end.

(** [mobi_delete_record_by_seqnumber]: the status and the structure
    afterwards. *)
Definition mobi_delete_record_by_seqnumber (m : option MOBIData) (num : Z)
  : MOBI_RET * option MOBIData :=
  match m with
  | None => (MOBI_INIT_FAILED, None)
  | Some d =>
      match m_rec d with
      | [] => (MOBI_INIT_FAILED, Some d)
      | _ :: _ =>
          (MOBI_SUCCESS, Some (set_rec (record_delete_loop (m_rec d) 0 num) d))
      end
  end.

(** The loop of [mobi_get_exthrecord_by_tag]. *)
Fixpoint exth_tag_loop (curr : list MOBIExthHeader) (tag : Z)
  : option MOBIExthHeader :=
  match curr with
  | [] => None
  | c :: next => if exth_tag c =? tag then Some c else exth_tag_loop next tag
  end.

(** [mobi_get_exthrecord_by_tag]. *)
Definition mobi_get_exthrecord_by_tag (m : option MOBIData) (tag : Z)
  : option MOBIExthHeader :=
  match m with
  | None => None
  | Some d => exth_tag_loop (m_eh d) tag
  end.

(** The loop [while (i--)] of [mobi_decode_exthvalue]: [i] is the counter
    after its decrement, [data] the bytes from the data pointer on.  The
    loop reads at most [size] bytes; the case of an exhausted list stands
    for a [size] larger than the buffer and is not reached on the [size]
    of the list itself. *)
Fixpoint exthvalue_loop (i : nat) (data : list Z) (val : Z) : Z :=
  match i, data with
  | S i', b :: data' =>
      exthvalue_loop i' data'
        (Z.lor val (wrap32 (Z.shiftl b (Z.of_nat i' * 8))))
  | _, _ => val
  end.

(** [mobi_decode_exthvalue data size]. *)
Definition mobi_decode_exthvalue (data : list Z) (size : Z) : Z :=
  exthvalue_loop (Z.to_nat (Z.min size 4)) data 0.

(** [mobi_exists_mobiheader]. *)
Definition mobi_exists_mobiheader (m : option MOBIData) : bool :=
  match m with
  | Some d => match m_mh d with Some _ => true | None => false end
  | None => false
  end.

(** [mobi_is_hybrid]. *)
Definition mobi_is_hybrid (m : option MOBIData) : bool :=
  match m with
  | None => false
  | Some d => negb (m_kf8_boundary_offset d =? MOBI_NOTSET)
  end.

(** [mobi_is_mobipocket]. *)
Definition mobi_is_mobipocket (m : option MOBIData) : bool :=
  match m with
  | Some d =>
      match m_ph d with
      | Some ph => strcmp_eq (ph_type ph) "BOOK" && strcmp_eq (ph_creator ph) "MOBI"
      | None => false
      end
  | None => false
  end.

(** [mobi_is_encrypted]. *)
Definition mobi_is_encrypted (m : option MOBIData) : bool :=
  match m with
  | None => false
  | Some d =>
      mobi_is_mobipocket m &&
      match m_rh d with
      | Some rh =>
          (rh_encryption_type rh =? RECORD0_OLD_ENCRYPTION)
          || (rh_encryption_type rh =? RECORD0_MOBI_ENCRYPTION)
      | None => false
      end
  end.

(** [mobi_get_fileversion]. *)
Definition mobi_get_fileversion (m : option MOBIData) : Z :=
  match m with
  | None => MOBI_NOTSET
  | Some d =>
      match m_mh d with
      | Some mh => match mh_version mh with Some v => v | None => 1 end
      | None => 1
      end
  end.

(** [mobi_get_kf8offset]; the function reads [m] without a test. *)
Definition mobi_get_kf8offset (m : option MOBIData) : option Z :=
  match m with
  | None => None
  | Some d =>
      if m_use_kf8 d && negb (m_kf8_boundary_offset d =? MOBI_NOTSET)
      then Some (wrap32 (m_kf8_boundary_offset d + 1))
      else Some 0
  end.

(** [memcmp (data, magic, n) == 0] for a magic of [n] bytes, [data] being
    the [size] bytes of a record.  The callers in [util.c] never look at
    the size of the record before the call, and [memcmp] reads [n] bytes:
    on a record of fewer bytes the read goes past the data, and what is
    compared is not the record's.  The result is then [None]. *)
Definition has_magic (data magic : list Z) : option bool :=
  if decide (length magic <= length data)%nat
  then Some (bool_decide (take (length magic) data = magic))
  else None.

(** [memcmp (record->data, "BOUNDARY", 8) == 0]. *)
Definition boundary_magic (r : MOBIPdbRecord) : option bool :=
  has_magic (rec_data r) (bytes_of_string "BOUNDARY").

(** [mobi_get_kf8boundary_seqnumber]; the result is [None] when the
    comparison reads past the data of the record. *)
Definition mobi_get_kf8boundary_seqnumber (m : option MOBIData) : option Z :=
  match m with
  | None => Some MOBI_NOTSET
  | Some _ =>
      match mobi_get_exthrecord_by_tag m EXTH_KF8BOUNDARY with
      | Some exth =>
          let rec_number :=
            wrap32 (mobi_decode_exthvalue (exth_data exth) (exth_size exth) - 1) in
          match mobi_get_record_by_seqnumber m rec_number with
          | Some record =>
              is_boundary ← boundary_magic record;
              Some (if is_boundary : bool then rec_number else MOBI_NOTSET)
          | None => Some MOBI_NOTSET
          end
      | None => Some MOBI_NOTSET
      end
  end.

(** [mobi_exists_fdst]. *)
Definition mobi_exists_fdst (m : option MOBIData) : bool :=
  if negb (mobi_exists_mobiheader m) then false
  else
    match m ≫= m_mh with
    | None => false
    | Some mh =>
        if mobi_get_fileversion m >=? 8 then
          match mh_fdst_index mh with
          | Some i => negb (i =? MOBI_NOTSET)
          | None => false
          end
        else
          match mh_fdst_section_count mh with
          | Some c => c >? 1
          | None => false
          end
    end.

(** [mobi_get_fdst_record_number]; [m], [m->mh] and [m->mh->last_text_index]
    are read without a test. *)
Definition mobi_get_fdst_record_number (m : option MOBIData) : option Z :=
  offset ← mobi_get_kf8offset m;
  mh ← m ≫= m_mh;
  let count_gt_1 :=
    match mh_fdst_section_count mh with Some c => c >? 1 | None => false end in
  let index_set :=
    match mh_fdst_index mh with Some i => negb (i =? MOBI_NOTSET) | None => false end in
  if index_set && count_gt_1 then
    i ← mh_fdst_index mh; Some (wrap_size (i + offset))
  else if count_gt_1 then
    mh_last_text_index mh
  else Some MOBI_NOTSET.

(** [mobi_get_fullname m fullname len]: [fullname] is the caller's buffer.
    The result is the status and the buffer afterwards.  The [memcpy]
    reads [size] bytes at [record0->data + full_name_offset] and the
    function never looks at [record0->size]: when these bytes do not lie
    within Record 0 the read goes past its data, and the result is
    [None]. *)
Definition mobi_get_fullname (m : option MOBIData) (fullname : option (list Z))
    (len : Z) : option (MOBI_RET * option (list Z)) :=
  match fullname with
  | None => Some (MOBI_PARAM_ERR, None)
  | Some buf =>
      if len =? 0 then Some (MOBI_PARAM_ERR, Some buf)
      else
        let buf0 := store_bytes buf [0] in
        match m with
        | None => Some (MOBI_INIT_FAILED, Some buf0)
        | Some d =>
            let record0 := mobi_get_kf8offset m ≫= mobi_get_record_by_seqnumber m in
            match m_mh d, record0 with
            | Some mh, Some r0 =>
                match mh_full_name_offset mh, mh_full_name_length mh with
                | Some name_offset, Some name_length =>
                    let size := Z.min len name_length in
                    if name_offset + size <=? rec_size r0 then
                      let name :=
                        take (Z.to_nat size)
                          (drop (Z.to_nat name_offset) (rec_data r0)) in
                      Some (MOBI_SUCCESS,
                            Some (store_at (store_bytes buf0 name) size [0]))
                    else None
                | _, _ => Some (MOBI_INIT_FAILED, Some buf0)
                end
            | _, _ => Some (MOBI_INIT_FAILED, Some buf0)
            end
        end
  end.

(* --------------------------------------------------------------------- *)
(** ** Text decompression                                                  *)
(* --------------------------------------------------------------------- *)

(** What a call of [mobi_decompress_content] leaves behind: the status, the
    text buffer, the bytes written to the file, [*len], and the number of
    text records that went through the decompression switch (a ghost
    counter of the embedding). *)
Record content_result : Type := {
  cr_ret : MOBI_RET;
  cr_text : option (list Z);
  cr_file : option (list Z);
  cr_len : option Z;
  cr_decompressed : nat
}.

Section Decompression.

(** The decompressors and the record-trailer measure live in other files
    of the library ([compression.c], [read.c]); they are parameters here.
    A decompressor takes the record data and the input size and gives the
    bytes it leaves in [decompressed] ([decompressed_size] of them); its
    status is dropped by the caller. *)
Variable MOBIHuffCdic : Type.
Variable mobi_init_huffcdic : option MOBIHuffCdic.
Variable mobi_parse_huffdic : MOBIData -> MOBIHuffCdic -> MOBI_RET * MOBIHuffCdic.
Variable mobi_get_record_extrasize : MOBIPdbRecord -> Z -> Z.
Variable mobi_decompress_lz77 : list Z -> Z -> list Z.
Variable mobi_decompress_huffman : list Z -> Z -> MOBIHuffCdic -> list Z.

(** The loop [while (text_rec_count-- && curr)] of
    [mobi_decompress_content].  [curr] is the record list from the current
    record on; [text_length] and the ghost counter [n] are threaded with
    the buffers.  The case [RECORD0_NO_COMPRESSION] copies [curr->size]
    bytes into the local array [decompressed] of [RECORD0_TEXT_SIZE_MAX]
    bytes without a test: a larger record overruns the array, and the
    result is [None]. *)
Fixpoint decompress_loop (curr : list MOBIPdbRecord) (text_rec_count : Z)
    (compression_type extra_flags : Z) (huffcdic : option MOBIHuffCdic)
    (dump : bool) (text file : option (list Z)) (len : option Z)
    (text_length : Z) (n : nat) : option content_result :=
  match curr with
  | [] =>
      Some {| cr_ret := MOBI_SUCCESS; cr_text := text; cr_file := file;
              cr_len := match len with Some _ => Some text_length | None => None end;
              cr_decompressed := n |}
  | c :: next =>
      if text_rec_count =? 0 then
        Some {| cr_ret := MOBI_SUCCESS; cr_text := text; cr_file := file;
                cr_len := match len with Some _ => Some text_length | None => None end;
                cr_decompressed := n |}
      else
        let stop (r : MOBI_RET) :=
          Some {| cr_ret := r; cr_text := text; cr_file := file;
                  cr_len := len; cr_decompressed := n |} in
        let extra_size :=
          if extra_flags =? 0 then 0 else mobi_get_record_extrasize c extra_flags in
        if negb (extra_flags =? 0)
           && ((extra_size =? MOBI_NOTSET) || (extra_size >=? rec_size c))
        then stop MOBI_DATA_CORRUPT
        else
          let record_size := rec_size c - extra_size in
          let decompressed : option (option (list Z)) :=
            if compression_type =? RECORD0_NO_COMPRESSION then
              Some (if rec_size c <=? RECORD0_TEXT_SIZE_MAX
                    then Some (rec_data c) else None)
            else if compression_type =? RECORD0_PALMDOC_COMPRESSION then
              Some (Some (mobi_decompress_lz77 (rec_data c) record_size))
            else if compression_type =? RECORD0_HUFF_COMPRESSION then
              Some (mobi_decompress_huffman (rec_data c) record_size <$> huffcdic)
            else None in
          match decompressed with
          | None => stop MOBI_DATA_CORRUPT
          | Some None => None
          | Some (Some bytes) =>
              if dump then
                decompress_loop next (text_rec_count - 1) compression_type
                  extra_flags huffcdic dump text ((fun f => f ++ bytes) <$> file)
                  len text_length (S n)
              else
                match text, len with
                | Some t, Some l =>
                    if text_length >? l then
                      Some {| cr_ret := MOBI_PARAM_ERR; cr_text := text;
                              cr_file := file; cr_len := len;
                              cr_decompressed := S n |}
                    else
                      let text_length' := text_length + Z.of_nat (length bytes) in
                      decompress_loop next (text_rec_count - 1) compression_type
                        extra_flags huffcdic dump
                        (Some (store_at (store_at t text_length bytes) text_length' [0]))
                        file len text_length' (S n)
                | _, _ => None
                end
          end
  end.

(** [mobi_decompress_content m text file len]. *)
Definition mobi_decompress_content (m : option MOBIData)
    (text file : option (list Z)) (len : option Z) : option content_result :=
  let stop (r : MOBI_RET) :=
    Some {| cr_ret := r; cr_text := text; cr_file := file; cr_len := len;
            cr_decompressed := O |} in
  if mobi_is_encrypted m then stop MOBI_FILE_ENCRYPTED
  else
    let dump := match file with Some _ => true | None => false end in
    match m with
    | None => stop MOBI_INIT_FAILED
    | Some d =>
        offset ← mobi_get_kf8offset m;
        match m_rh d with
        | None => stop MOBI_DATA_CORRUPT
        | Some rh =>
            if rh_text_record_count rh =? 0 then stop MOBI_DATA_CORRUPT
            else
              let text_rec_index := wrap_size (1 + offset) in
              let text_rec_count := rh_text_record_count rh in
              let compression_type := rh_compression_type rh in
              let extra_flags :=
                match m_mh d ≫= mh_extra_flags with Some f => f | None => 0 end in
              let curr := drop (Z.to_nat text_rec_index) (m_rec d) in
              if compression_type =? RECORD0_HUFF_COMPRESSION then
                match mobi_init_huffcdic with
                | None => stop MOBI_MALLOC_FAILED
                | Some huffcdic =>
                    match mobi_parse_huffdic d huffcdic with
                    | (MOBI_SUCCESS, huffcdic') =>
                        decompress_loop curr text_rec_count compression_type
                          extra_flags (Some huffcdic') dump text file len 0 O
                    | (ret, _) => stop ret
                    end
                end
              else
                decompress_loop curr text_rec_count compression_type
                  extra_flags None dump text file len 0 O
        end
    end.

(** [mobi_get_rawml m text len]; [m] and [m->rh] are read without a
    test. *)
Definition mobi_get_rawml (m : option MOBIData) (text : list Z) (len : Z)
  : option content_result :=
  d ← m;
  rh ← m_rh d;
  if rh_text_length rh >? len then
    Some {| cr_ret := MOBI_PARAM_ERR; cr_text := Some text; cr_file := None;
            cr_len := Some len; cr_decompressed := O |}
  else
    mobi_decompress_content m (Some (store_bytes text [0])) None (Some len).

(** [mobi_dump_rawml m file]: [file] holds the bytes written so far,
    [None] is the [NULL] descriptor. *)
Definition mobi_dump_rawml (m : option MOBIData) (file : option (list Z))
  : option content_result :=
  match file with
  | None =>
      Some {| cr_ret := MOBI_FILE_NOT_FOUND; cr_text := None; cr_file := None;
              cr_len := None; cr_decompressed := O |}
  | Some _ => mobi_decompress_content m None file None
  end.

End Decompression.

(* --------------------------------------------------------------------- *)
(** ** Choosing and swapping the halves of a hybrid file                   *)
(* --------------------------------------------------------------------- *)

(** The [MOBIData] structures live in a store indexed by address; the two
    halves of a hybrid file point at each other through [m_next].  A
    pointer that is not [NULL] but has no structure in the store is invalid:
    reading through it gives [None]. *)

(** [mobi_parse_kf7]. *)
Definition mobi_parse_kf7 (h : gmap nat MOBIData) (m : option nat)
  : option (MOBI_RET * gmap nat MOBIData) :=
  match m with
  | None => Some (MOBI_INIT_FAILED, h)
  | Some a => d ← h !! a; Some (MOBI_SUCCESS, <[a := set_use_kf8 false d]> h)
  end.

(** [mobi_parse_kf8]. *)
Definition mobi_parse_kf8 (h : gmap nat MOBIData) (m : option nat)
  : option (MOBI_RET * gmap nat MOBIData) :=
  match m with
  | None => Some (MOBI_INIT_FAILED, h)
  | Some a => d ← h !! a; Some (MOBI_SUCCESS, <[a := set_use_kf8 true d]> h)
  end.

(** [mobi_swap_mobidata]; [malloc_ok] tells whether the allocation of [tmp]
    succeeds.  The six assignments are made one after the other on the
    store, so that [m->next == m] is covered as the C code behaves. *)
Definition mobi_swap_mobidata (malloc_ok : bool) (h : gmap nat MOBIData) (m : nat)
  : option (MOBI_RET * gmap nat MOBIData) :=
  if negb malloc_ok then Some (MOBI_MALLOC_FAILED, h)
  else
    (* tmp->rh = m->rh; tmp->mh = m->mh; tmp->eh = m->eh; *)
    tmp ← h !! m;
    (* m->rh = m->next->rh; *)
    d ← h !! m; n ← m_next d; dn ← h !! n;
    let h := <[m := set_rh (m_rh dn) d]> h in
    (* m->mh = m->next->mh; *)
    d ← h !! m; n ← m_next d; dn ← h !! n;
    let h := <[m := set_mh (m_mh dn) d]> h in
    (* m->eh = m->next->eh; *)
    d ← h !! m; n ← m_next d; dn ← h !! n;
    let h := <[m := set_eh (m_eh dn) d]> h in
    (* m->next->rh = tmp->rh; *)
    d ← h !! m; n ← m_next d; dn ← h !! n;
    let h := <[n := set_rh (m_rh tmp) dn]> h in
    (* m->next->mh = tmp->mh; *)
    d ← h !! m; n ← m_next d; dn ← h !! n;
    let h := <[n := set_mh (m_mh tmp) dn]> h in
    (* m->next->eh = tmp->eh; *)
    d ← h !! m; n ← m_next d; dn ← h !! n;
    let h := <[n := set_eh (m_eh tmp) dn]> h in
    Some (MOBI_SUCCESS, h).

(** The structure [d] with the three header pointers of [other]. *)
Definition with_headers_of (other d : MOBIData) : MOBIData :=
  set_eh (m_eh other) (set_mh (m_mh other) (set_rh (m_rh other) d)).

(* --------------------------------------------------------------------- *)
(** ** Notions of the specification                                        *)
(* --------------------------------------------------------------------- *)

Definition is_byte (b : Z) : Prop := 0 <= b < 256.

(** The numeric value of an EXTH payload: the big-endian integer of its
    bytes, clamped to the first four. *)
Definition exth_numeric_value (payload : list Z) : Z :=
  fold_left (fun acc b => acc * 256 + b) (take 4 payload) 0.

(** [e] is the first record of the EXTH list with the tag [tag]. *)
Definition first_exth_with_tag (eh : list MOBIExthHeader) (tag : Z)
    (e : MOBIExthHeader) : Prop :=
  exists before after,
    eh = before ++ e :: after /\ exth_tag e = tag /\
    Forall (fun x => exth_tag x <> tag) before.

(** The record with the sequence number [r] (the first record has number 0). *)
Definition record_with_seqnumber (recs : list MOBIPdbRecord) (r : Z)
    (record : MOBIPdbRecord) : Prop :=
  0 <= r /\ recs !! Z.to_nat r = Some record.

(** The record data starts with the eight ASCII bytes of BOUNDARY. *)
Definition starts_with_boundary (record : MOBIPdbRecord) : Prop :=
  exists rest, rec_data record = [66; 79; 85; 78; 68; 65; 82; 89] ++ rest.

(** EXTH tag 121 is present, the numeric value of its payload minus one is
    [r], and the record with sequence number [r] starts with BOUNDARY. *)
Definition kf8_boundary_at (m : option MOBIData) (r : Z) : Prop :=
  exists d e record,
    m = Some d /\
    first_exth_with_tag (m_eh d) 121 e /\
    exth_numeric_value (exth_data e) - 1 = r /\
    record_with_seqnumber (m_rec d) r record /\
    starts_with_boundary record.

(** The record that EXTH tag 121 refers to, when there is one, holds the
    eight bytes that [mobi_get_kf8boundary_seqnumber] compares. *)
Definition boundary_record_in_bounds (d : MOBIData) : Prop :=
  forall e record,
    first_exth_with_tag (m_eh d) 121 e ->
    record_with_seqnumber (m_rec d) (exth_numeric_value (exth_data e) - 1) record ->
    8 <= rec_size record.

(** What a loaded document satisfies for its EXTH payloads and its record
    list: payloads are bytes, and the number of records fits the 16-bit
    record count of the Palm database header. *)
Definition loaded_records (d : MOBIData) : Prop :=
  Forall (fun e => Forall is_byte (exth_data e)) (m_eh d) /\
  Z.of_nat (length (m_rec d)) <= 0xFFFF.

(** The table entry for [s] in the row of [lang_code] is not met at a lower
    region than [region_code]. *)
Definition locale_entry_is (lang_code region_code : Z) (s : string) : bool :=
  match mobi_locale_entry lang_code region_code with
  | Some s' => String.eqb s' s
  | None => false
  end.

Definition locale_first_in_row (lang_code region_code : Z) (s : string) : bool :=
  forallb (fun r => negb (locale_entry_is lang_code r s))
    (Zrange 0 (Z.to_nat region_code)).

(** The check behind the round trip, for one entry of the table: an entry
    that is the first of its string in the row of a language other than 97
    is found again, under the number [(region * 4) << 8 | language]. *)
Definition locale_entry_check (lang_code region_code : Z) : bool :=
  match mobi_locale_entry lang_code region_code with
  | None => true
  | Some s =>
      if negb (lang_code =? 97) && locale_first_in_row lang_code region_code s
      then
        match mobi_get_locale_number (Some s) with
        | Some n' => n' =? locale_encoding lang_code region_code
        | None => false
        end
      else true
  end.

Definition locale_table_check : bool :=
  forallb (fun lang_code =>
             forallb (locale_entry_check lang_code)
               (Zrange 0 (Z.to_nat MOBI_REGION_MAX)))
    (Zrange 0 (Z.to_nat MOBI_LANG_MAX)).

(* --------------------------------------------------------------------- *)
(** ** Sample documents                                                    *)
(* --------------------------------------------------------------------- *)

Definition sample_ph : MOBIPdbHeader :=
  {| ph_name := "Sample"; ph_attributes := 0; ph_version := 0;
     ph_ctime := 0; ph_mtime := 0; ph_btime := 0; ph_mod_num := 0;
     ph_appinfo_offset := 0; ph_sortinfo_offset := 0;
     ph_type := "BOOK"; ph_creator := "MOBI";
     ph_uid := 0; ph_next_rec := 0; ph_rec_count := 4 |}.

Definition sample_rh (encryption : Z) : MOBIRecord0Header :=
  {| rh_compression_type := RECORD0_NO_COMPRESSION; rh_text_length := 5;
     rh_text_record_count := 1; rh_text_record_size := 4096;
     rh_encryption_type := encryption; rh_unknown1 := 0 |}.

Definition sample_mh (version : Z) (fdst_index fdst_section_count : option Z)
  : MOBIMobiHeader :=
  {| mh_text_encoding := Some 65001; mh_version := Some version;
     mh_full_name_offset := Some 2; mh_full_name_length := Some 4;
     mh_last_text_index := Some 1;
     mh_fdst_index := fdst_index; mh_fdst_section_count := fdst_section_count;
     mh_extra_flags := None |}.

Definition sample_record (uid : Z) (data : list Z) : MOBIPdbRecord :=
  {| rec_offset := 0; rec_attributes := 0; rec_uid := uid; rec_data := data |}.

(** Record 0 with the full name "Book" at offset 2, a text record "Hello",
    a BOUNDARY record and one more record. *)
Definition sample_records : list MOBIPdbRecord :=
  [ sample_record 0 (0 :: 1 :: bytes_of_string "Book" ++ [0; 0]);
    sample_record 2 (bytes_of_string "Hello");
    sample_record 4 (bytes_of_string "BOUNDARY");
    sample_record 6 (0 :: 1 :: bytes_of_string "Book" ++ [0; 0]) ].

Definition sample_document (encryption : Z) (mh : MOBIMobiHeader)
    (eh : list MOBIExthHeader) (recs : list MOBIPdbRecord) : MOBIData :=
  {| m_use_kf8 := true; m_kf8_boundary_offset := MOBI_NOTSET;
     m_ph := Some sample_ph; m_rh := Some (sample_rh encryption);
     m_mh := Some mh; m_eh := eh; m_rec := recs; m_next := None |}.

(** EXTH tag 121 with the value 3: the boundary is the record number 2. *)
Definition sample_exth : list MOBIExthHeader :=
  [ {| exth_tag := 100; exth_data := bytes_of_string "Author" |};
    {| exth_tag := 121; exth_data := [0; 0; 0; 3] |} ].

Definition sample_plain : MOBIData :=
  sample_document 0 (sample_mh 6 None None) sample_exth sample_records.

Definition sample_encrypted : MOBIData :=
  sample_document 2 (sample_mh 6 None None) sample_exth sample_records.

(** The sample with a record of the three bytes BOU where EXTH tag 121
    points. *)
Definition sample_short_boundary : MOBIData :=
  sample_document 0 (sample_mh 6 None None) sample_exth
    [ sample_record 0 (0 :: 1 :: bytes_of_string "Book" ++ [0; 0]);
      sample_record 2 (bytes_of_string "Hello");
      sample_record 4 (bytes_of_string "BOU");
      sample_record 6 (0 :: 1 :: bytes_of_string "Book" ++ [0; 0]) ].

(** The two halves of a hybrid file in the store, at the addresses 1 (KF8)
    and 2 (KF7), pointing at each other. *)
Definition sample_kf8_half : MOBIData :=
  {| m_use_kf8 := true; m_kf8_boundary_offset := 2;
     m_ph := Some sample_ph; m_rh := Some (sample_rh 0);
     m_mh := Some (sample_mh 8 (Some 1) (Some 2)); m_eh := [];
     m_rec := sample_records; m_next := Some 2%nat |}.

Definition sample_kf7_half : MOBIData :=
  {| m_use_kf8 := true; m_kf8_boundary_offset := 2;
     m_ph := Some sample_ph; m_rh := Some (sample_rh 0);
     m_mh := Some (sample_mh 6 None None); m_eh := sample_exth;
     m_rec := sample_records; m_next := Some 1%nat |}.

Definition sample_store : gmap nat MOBIData :=
  <[1%nat := sample_kf8_half]> (<[2%nat := sample_kf7_half]> ∅).

(** Stand-ins for the functions of the other files, to run the text
    functions on the samples: no trailer bytes, and decompressors that
    copy their input. *)
Definition sample_get_rawml : option MOBIData -> list Z -> Z -> option content_result :=
  mobi_get_rawml unit (Some tt) (fun _ h => (MOBI_SUCCESS, h)) (fun _ _ => 0)
    (fun data _ => data) (fun data _ _ => data).

Definition sample_dump_rawml : option MOBIData -> option (list Z) -> option content_result :=
  mobi_dump_rawml unit (Some tt) (fun _ h => (MOBI_SUCCESS, h)) (fun _ _ => 0)
    (fun data _ => data) (fun data _ _ => data).

(* --------------------------------------------------------------------- *)
(** ** Further functions of [util.c]                                       *)
(* --------------------------------------------------------------------- *)

(** *** File types and their metadata *)

(** [MOBIFiletype] ([mobi.h]). *)
Inductive MOBIFiletype : Type :=
| T_UNKNOWN | T_HTML | T_CSS | T_SVG | T_OPF | T_NCX
| T_JPG | T_GIF | T_PNG | T_BMP | T_OTF | T_TTF
| T_MP3 | T_MPG | T_PDF | T_FONT | T_AUDIO | T_VIDEO | T_BREAK.

(** The value of an enumerator. *)
Definition MOBIFiletype_value (t : MOBIFiletype) : Z :=
  match t with
  | T_UNKNOWN => 0 | T_HTML => 1 | T_CSS => 2 | T_SVG => 3 | T_OPF => 4
  | T_NCX => 5 | T_JPG => 6 | T_GIF => 7 | T_PNG => 8 | T_BMP => 9
  | T_OTF => 10 | T_TTF => 11 | T_MP3 => 12 | T_MPG => 13 | T_PDF => 14
  | T_FONT => 15 | T_AUDIO => 16 | T_VIDEO => 17 | T_BREAK => 18
  end.

Definition MOBIFiletype_eqb (a b : MOBIFiletype) : bool :=
  MOBIFiletype_value a =? MOBIFiletype_value b.

(** [MOBIFileMeta]. *)
Record MOBIFileMeta : Type := {
  fm_type : MOBIFiletype;
  fm_extension : string;
  fm_mime_type : string
}.

(** The array [mobi_file_meta], with its terminating entry. *)
Definition mobi_file_meta : list MOBIFileMeta :=
  [ {| fm_type := T_HTML; fm_extension := "html"; fm_mime_type := "application/xhtml+xml" |};
    {| fm_type := T_CSS; fm_extension := "css"; fm_mime_type := "text/css" |};
    {| fm_type := T_SVG; fm_extension := "svg"; fm_mime_type := "image/svg+xml" |};
    {| fm_type := T_JPG; fm_extension := "jpg"; fm_mime_type := "image/jpeg" |};
    {| fm_type := T_GIF; fm_extension := "gif"; fm_mime_type := "image/gif" |};
    {| fm_type := T_PNG; fm_extension := "png"; fm_mime_type := "image/png" |};
    {| fm_type := T_BMP; fm_extension := "bmp"; fm_mime_type := "image/bmp" |};
    {| fm_type := T_OTF; fm_extension := "otf"; fm_mime_type := "application/vnd.ms-opentype" |};
    {| fm_type := T_TTF; fm_extension := "ttf"; fm_mime_type := "application/x-font-truetype" |};
    {| fm_type := T_MP3; fm_extension := "mp3"; fm_mime_type := "audio/mpeg" |};
    {| fm_type := T_MPG; fm_extension := "mpg"; fm_mime_type := "video/mpeg" |};
    {| fm_type := T_PDF; fm_extension := "pdf"; fm_mime_type := "application/pdf" |};
    {| fm_type := T_OPF; fm_extension := "opf"; fm_mime_type := "application/oebps-package+xml" |};
    {| fm_type := T_NCX; fm_extension := "ncx"; fm_mime_type := "application/x-dtbncx+xml" |};
    {| fm_type := T_UNKNOWN; fm_extension := "dat"; fm_mime_type := "application/unknown" |} ]%string.

(** The types that have an entry of their own in the array. *)
Definition filetype_has_entry (t : MOBIFiletype) : bool :=
  match t with
  | T_FONT | T_AUDIO | T_VIDEO | T_BREAK => false
  | _ => true
  end.

(** The loop of [mobi_get_filemeta_by_type] over the array from the index
    [i] on; it ends at the entry of type [T_UNKNOWN], which it returns.
    [None] stands for a run past the end of the array. *)
Fixpoint filemeta_loop (entries : list MOBIFileMeta) (type : MOBIFiletype)
  : option MOBIFileMeta :=
  match entries with
  | [] => None
  | e :: rest =>
      if MOBIFiletype_eqb (fm_type e) T_UNKNOWN then Some e
      else if MOBIFiletype_eqb (fm_type e) type then Some e
      else filemeta_loop rest type
  end.

(** [mobi_get_filemeta_by_type]. *)
Definition mobi_get_filemeta_by_type (type : MOBIFiletype) : option MOBIFileMeta :=
  filemeta_loop mobi_file_meta type.

(** *** EXTH tag metadata *)

(** [MOBIExthType]. *)
Inductive MOBIExthType : Type := EXTH_NUMERIC | EXTH_STRING | EXTH_BINARY.

(** [MOBIExthMeta]; [meta_name] is [None] for the [NULL] name. *)
Record MOBIExthMeta : Type := {
  meta_tag : Z;
  meta_type : MOBIExthType;
  meta_name : option string
}.

(** The values of the enum [MOBIExthTag] ([mobi.h]), in the order of their
    declaration. *)
Definition MOBIExthTag_values : list Z :=
  [ 1; 2; 3; 99; 100; 101; 102; 103; 104; 105; 106; 107;
    108; 109; 110; 111; 112; 113; 114; 115; 116; 117; 118; 119;
    121; 122; 123; 124; 125; 126; 127; 128; 129; 131; 132; 200;
    201; 202; 203; 204; 205; 206; 207; 208; 209; 300; 401; 402;
    403; 404; 405; 406; 407; 450; 451; 452; 453; 501; 502; 503;
    504; 508; 517; 522; 524; 525; 527; 528; 529; 534; 535 ].

(** The array [mobi_exth_tags], with its terminating entry [{0, 0, NULL}]. *)
Definition mobi_exth_tags : list MOBIExthMeta :=
  [ {| meta_tag := 115; meta_type := EXTH_NUMERIC; meta_name := Some "Sample" |};
    {| meta_tag := 116; meta_type := EXTH_NUMERIC; meta_name := Some "Start offset" |};
    {| meta_tag := 121; meta_type := EXTH_NUMERIC; meta_name := Some "K8 boundary offset" |};
    {| meta_tag := 125; meta_type := EXTH_NUMERIC; meta_name := Some "K8 count of resources, fonts, images" |};
    {| meta_tag := 131; meta_type := EXTH_NUMERIC; meta_name := Some "RESC offset" |};
    {| meta_tag := 201; meta_type := EXTH_NUMERIC; meta_name := Some "Cover offset" |};
    {| meta_tag := 202; meta_type := EXTH_NUMERIC; meta_name := Some "Thumbnail offset" |};
    {| meta_tag := 203; meta_type := EXTH_NUMERIC; meta_name := Some "Has fake cover" |};
    {| meta_tag := 204; meta_type := EXTH_NUMERIC; meta_name := Some "Creator software" |};
    {| meta_tag := 205; meta_type := EXTH_NUMERIC; meta_name := Some "Creator major version" |};
    {| meta_tag := 206; meta_type := EXTH_NUMERIC; meta_name := Some "Creator minor version" |};
    {| meta_tag := 207; meta_type := EXTH_NUMERIC; meta_name := Some "Creator build number" |};
    {| meta_tag := 401; meta_type := EXTH_NUMERIC; meta_name := Some "Clipping limit" |};
    {| meta_tag := 402; meta_type := EXTH_NUMERIC; meta_name := Some "Publisher limit" |};
    {| meta_tag := 404; meta_type := EXTH_NUMERIC; meta_name := Some "Text to Speech disabled" |};
    {| meta_tag := 406; meta_type := EXTH_NUMERIC; meta_name := Some "Rental indicator" |};
    {| meta_tag := 1; meta_type := EXTH_STRING; meta_name := Some "Drm server id" |};
    {| meta_tag := 2; meta_type := EXTH_STRING; meta_name := Some "Drm commerce id" |};
    {| meta_tag := 3; meta_type := EXTH_STRING; meta_name := Some "Drm Ebookbase book id" |};
    {| meta_tag := 99; meta_type := EXTH_STRING; meta_name := Some "Title" |};
    {| meta_tag := 100; meta_type := EXTH_STRING; meta_name := Some "Creator" |};
    {| meta_tag := 101; meta_type := EXTH_STRING; meta_name := Some "Publisher" |};
    {| meta_tag := 102; meta_type := EXTH_STRING; meta_name := Some "Imprint" |};
    {| meta_tag := 103; meta_type := EXTH_STRING; meta_name := Some "Description" |};
    {| meta_tag := 104; meta_type := EXTH_STRING; meta_name := Some "ISBN" |};
    {| meta_tag := 105; meta_type := EXTH_STRING; meta_name := Some "Subject" |};
    {| meta_tag := 106; meta_type := EXTH_STRING; meta_name := Some "Published" |};
    {| meta_tag := 107; meta_type := EXTH_STRING; meta_name := Some "Review" |};
    {| meta_tag := 108; meta_type := EXTH_STRING; meta_name := Some "Contributor" |};
    {| meta_tag := 109; meta_type := EXTH_STRING; meta_name := Some "Rights" |};
    {| meta_tag := 110; meta_type := EXTH_STRING; meta_name := Some "Subject code" |};
    {| meta_tag := 111; meta_type := EXTH_STRING; meta_name := Some "Type" |};
    {| meta_tag := 112; meta_type := EXTH_STRING; meta_name := Some "Source" |};
    {| meta_tag := 113; meta_type := EXTH_STRING; meta_name := Some "ASIN" |};
    {| meta_tag := 114; meta_type := EXTH_STRING; meta_name := Some "Version number" |};
    {| meta_tag := 117; meta_type := EXTH_STRING; meta_name := Some "Adult" |};
    {| meta_tag := 118; meta_type := EXTH_STRING; meta_name := Some "Price" |};
    {| meta_tag := 119; meta_type := EXTH_STRING; meta_name := Some "Currency" |};
    {| meta_tag := 122; meta_type := EXTH_STRING; meta_name := Some "Fixed layout" |};
    {| meta_tag := 123; meta_type := EXTH_STRING; meta_name := Some "Book type" |};
    {| meta_tag := 124; meta_type := EXTH_STRING; meta_name := Some "Orientation lock" |};
    {| meta_tag := 126; meta_type := EXTH_STRING; meta_name := Some "Original resolution" |};
    {| meta_tag := 127; meta_type := EXTH_STRING; meta_name := Some "Zero gutter" |};
    {| meta_tag := 128; meta_type := EXTH_STRING; meta_name := Some "Zero margin" |};
    {| meta_tag := 129; meta_type := EXTH_STRING; meta_name := Some "K8 masthead/cover image" |};
    {| meta_tag := 132; meta_type := EXTH_STRING; meta_name := Some "Region magnification" |};
    {| meta_tag := 200; meta_type := EXTH_STRING; meta_name := Some "Dictionary short name" |};
    {| meta_tag := 208; meta_type := EXTH_STRING; meta_name := Some "Watermark" |};
    {| meta_tag := 501; meta_type := EXTH_STRING; meta_name := Some "Document type" |};
    {| meta_tag := 502; meta_type := EXTH_STRING; meta_name := Some "Last update time" |};
    {| meta_tag := 503; meta_type := EXTH_STRING; meta_name := Some "Updated title" |};
    {| meta_tag := 504; meta_type := EXTH_STRING; meta_name := Some "ASIN (504)" |};
    {| meta_tag := 508; meta_type := EXTH_STRING; meta_name := Some "Title file as" |};
    {| meta_tag := 517; meta_type := EXTH_STRING; meta_name := Some "Creator file as" |};
    {| meta_tag := 522; meta_type := EXTH_STRING; meta_name := Some "Publisher file as" |};
    {| meta_tag := 524; meta_type := EXTH_STRING; meta_name := Some "Language" |};
    {| meta_tag := 525; meta_type := EXTH_STRING; meta_name := Some "Primary writing mode" |};
    {| meta_tag := 527; meta_type := EXTH_STRING; meta_name := Some "Page progression direction" |};
    {| meta_tag := 528; meta_type := EXTH_STRING; meta_name := Some "Override Kindle fonts" |};
    {| meta_tag := 529; meta_type := EXTH_STRING; meta_name := Some "Original source description" |};
    {| meta_tag := 534; meta_type := EXTH_STRING; meta_name := Some "Unknown (534)" |};
    {| meta_tag := 535; meta_type := EXTH_STRING; meta_name := Some "Kindlegen BuildRev number" |};
    {| meta_tag := 209; meta_type := EXTH_BINARY; meta_name := Some "Tamper proof keys" |};
    {| meta_tag := 300; meta_type := EXTH_BINARY; meta_name := Some "Font signature" |};
    {| meta_tag := 403; meta_type := EXTH_BINARY; meta_name := Some "Unknown (403)" |};
    {| meta_tag := 405; meta_type := EXTH_BINARY; meta_name := Some "Unknown (405)" |};
    {| meta_tag := 407; meta_type := EXTH_BINARY; meta_name := Some "Unknown (407)" |};
    {| meta_tag := 450; meta_type := EXTH_BINARY; meta_name := Some "Unknown (450)" |};
    {| meta_tag := 451; meta_type := EXTH_BINARY; meta_name := Some "Unknown (451)" |};
    {| meta_tag := 452; meta_type := EXTH_BINARY; meta_name := Some "Unknown (452)" |};
    {| meta_tag := 453; meta_type := EXTH_BINARY; meta_name := Some "Unknown (453)" |};
    {| meta_tag := 0; meta_type := EXTH_NUMERIC; meta_name := None |} ]%string.

(** The compound literal [(MOBIExthMeta) {0, 0, NULL}]. *)
Definition exth_meta_zero : MOBIExthMeta :=
  {| meta_tag := 0; meta_type := EXTH_NUMERIC; meta_name := None |}.

(** The loop of [mobi_get_exthtagmeta_by_tag], [while (mobi_exth_tags[i].tag > 0)];
    [None] stands for a run past the end of the array. *)
Fixpoint exthtagmeta_loop (entries : list MOBIExthMeta) (tag : Z)
  : option MOBIExthMeta :=
  match entries with
  | [] => None
  | e :: rest =>
      if meta_tag e >? 0 then
        if meta_tag e =? tag then Some e else exthtagmeta_loop rest tag
      else Some exth_meta_zero
  end.

(** [mobi_get_exthtagmeta_by_tag]. *)
Definition mobi_get_exthtagmeta_by_tag (tag : Z) : option MOBIExthMeta :=
  exthtagmeta_loop mobi_exth_tags tag.

(** *** Lookups by unique id *)

(** The loop of [mobi_get_record_by_uid]. *)
Fixpoint record_uid_loop (curr : list MOBIPdbRecord) (uid : Z)
  : option MOBIPdbRecord :=
  match curr with
  | [] => None
  | c :: next => if rec_uid c =? uid then Some c else record_uid_loop next uid
  end.

(** [mobi_get_record_by_uid]. *)
Definition mobi_get_record_by_uid (m : option MOBIData) (uid : Z)
  : option MOBIPdbRecord :=
  match m with
  | None => None
  | Some d => record_uid_loop (m_rec d) uid
  end.

(** [MOBIPart]: a node of a list of reconstructed parts, [data] of [size]
    bytes. *)
Record MOBIPart : Type := {
  part_uid : Z;
  part_type : MOBIFiletype;
  part_data : list Z
}.

(** [MOBIRawml], with the version and the three lists of parts that the
    lookups below read. *)
Record MOBIRawml : Type := {
  rawml_version : Z;
  rawml_flow : list MOBIPart;
  rawml_markup : list MOBIPart;
  rawml_resources : list MOBIPart
}.

(** The loop shared by the part lookups. *)
Fixpoint part_uid_loop (part : list MOBIPart) (uid : Z) : option MOBIPart :=
  match part with
  | [] => None
  | p :: next => if part_uid p =? uid then Some p else part_uid_loop next uid
  end.

(** [mobi_get_part_by_uid]. *)
Definition mobi_get_part_by_uid (rawml : option MOBIRawml) (uid : Z) : option MOBIPart :=
  match rawml with
  | None => None
  | Some r => part_uid_loop (rawml_markup r) uid
  end.

(** [mobi_get_flow_by_uid]. *)
Definition mobi_get_flow_by_uid (rawml : option MOBIRawml) (uid : Z) : option MOBIPart :=
  match rawml with
  | None => None
  | Some r => part_uid_loop (rawml_flow r) uid
  end.

(** [mobi_get_resource_by_uid]. *)
Definition mobi_get_resource_by_uid (rawml : option MOBIRawml) (uid : Z)
  : option MOBIPart :=
  match rawml with
  | None => None
  | Some r => part_uid_loop (rawml_resources r) uid
  end.

(** The loop of [mobi_get_resourcetype_by_uid]. *)
Fixpoint resourcetype_loop (curr : list MOBIPart) (uid : Z) : MOBIFiletype :=
  match curr with
  | [] => T_UNKNOWN
  | c :: next => if part_uid c =? uid then part_type c else resourcetype_loop next uid
  end.

(** [mobi_get_resourcetype_by_uid]. *)
Definition mobi_get_resourcetype_by_uid (rawml : option MOBIRawml) (uid : Z)
  : MOBIFiletype :=
  match rawml with
  | None => T_UNKNOWN
  | Some r => resourcetype_loop (rawml_resources r) uid
  end.

(** *** Resource types by magic bytes *)

(** Modelled from the spec: the magic strings [FONT_MAGIC], [AUDI_MAGIC],
    [VIDE_MAGIC], [BOUNDARY_MAGIC] and [EOF_MAGIC] are macros of [util.h],
    which is not among the sources; the spec's table of record magics gives
    them as FONT, AUDI, VIDE, BOUNDARY and e9 8e 0d 0a. *)
Definition FONT_MAGIC : list Z := bytes_of_string "FONT".
Definition AUDI_MAGIC : list Z := bytes_of_string "AUDI".
Definition VIDE_MAGIC : list Z := bytes_of_string "VIDE".
Definition BOUNDARY_MAGIC : list Z := bytes_of_string "BOUNDARY".
Definition EOF_MAGIC : list Z := [0xe9; 0x8e; 0x0d; 0x0a].

(** [mobi_determine_resource_type].  The tests are made in the order of
    the source, each one a [memcmp] on [record->data] ([has_magic]); the
    BMP branch reads [data[2]] to [data[5]] as well.  A test that reads
    past the data of the record leaves the result undetermined
    ([None]). *)
Definition mobi_determine_resource_type (record : MOBIPdbRecord)
  : option MOBIFiletype :=
  let data := rec_data record in
  jpg ← has_magic data [0xff; 0xd8; 0xff];
  if jpg : bool then Some T_JPG else
  gif ← has_magic data [0x47; 0x49; 0x46; 0x38];
  if gif : bool then Some T_GIF else
  png ← has_magic data [0x89; 0x50; 0x4e; 0x47; 0x0d; 0x0a; 0x1a; 0x0a];
  if png : bool then Some T_PNG else
  font ← has_magic data FONT_MAGIC;
  if font : bool then Some T_FONT else
  boundary ← has_magic data BOUNDARY_MAGIC;
  if boundary : bool then Some T_BREAK else
  eof ← has_magic data EOF_MAGIC;
  if eof : bool then Some T_BREAK else
  bmp ← has_magic data [0x42; 0x4d];
  if bmp : bool then
    b2 ← data !! 2%nat;
    b3 ← data !! 3%nat;
    b4 ← data !! 4%nat;
    b5 ← data !! 5%nat;
    let bmp_size :=
      Z.lor (Z.lor (Z.lor b2 (wrap32 (Z.shiftl b3 8)))
                   (wrap32 (Z.shiftl b4 16)))
            (wrap32 (Z.shiftl b5 24)) in
    Some (if rec_size record =? bmp_size then T_BMP else T_UNKNOWN)
  else
  audio ← has_magic data AUDI_MAGIC;
  if audio : bool then Some T_AUDIO else
  video ← has_magic data VIDE_MAGIC;
  Some (if video : bool then T_VIDEO else T_UNKNOWN).

(** [mobi_determine_font_type], on the bytes at [font_data]. *)
Definition mobi_determine_font_type (font_data : list Z) : option MOBIFiletype :=
  otf ← has_magic font_data (bytes_of_string "OTTO");
  if otf : bool then Some T_OTF else
  ttf ← has_magic font_data [0; 1; 0; 0];
  if ttf : bool then Some T_TTF else
  ttf2 ← has_magic font_data (bytes_of_string "true");
  Some (if ttf2 : bool then T_TTF else T_UNKNOWN).

(** *** Bit counts *)

(** The lookup table [setbits]. *)
Definition setbits : list Z :=
  [ 0; 1; 1; 2; 1; 2; 2; 3; 1; 2; 2; 3; 2; 3; 3; 4;
    1; 2; 2; 3; 2; 3; 3; 4; 2; 3; 3; 4; 3; 4; 4; 5;
    1; 2; 2; 3; 2; 3; 3; 4; 2; 3; 3; 4; 3; 4; 4; 5;
    2; 3; 3; 4; 3; 4; 4; 5; 3; 4; 4; 5; 4; 5; 5; 6;
    1; 2; 2; 3; 2; 3; 3; 4; 2; 3; 3; 4; 3; 4; 4; 5;
    2; 3; 3; 4; 3; 4; 4; 5; 3; 4; 4; 5; 4; 5; 5; 6;
    2; 3; 3; 4; 3; 4; 4; 5; 3; 4; 4; 5; 4; 5; 5; 6;
    3; 4; 4; 5; 4; 5; 5; 6; 4; 5; 5; 6; 5; 6; 6; 7;
    1; 2; 2; 3; 2; 3; 3; 4; 2; 3; 3; 4; 3; 4; 4; 5;
    2; 3; 3; 4; 3; 4; 4; 5; 3; 4; 4; 5; 4; 5; 5; 6;
    2; 3; 3; 4; 3; 4; 4; 5; 3; 4; 4; 5; 4; 5; 5; 6;
    3; 4; 4; 5; 4; 5; 5; 6; 4; 5; 5; 6; 5; 6; 6; 7;
    2; 3; 3; 4; 3; 4; 4; 5; 3; 4; 4; 5; 4; 5; 5; 6;
    3; 4; 4; 5; 4; 5; 5; 6; 4; 5; 5; 6; 5; 6; 6; 7;
    3; 4; 4; 5; 4; 5; 5; 6; 4; 5; 5; 6; 5; 6; 6; 7;
    4; 5; 5; 6; 5; 6; 6; 7; 5; 6; 6; 7; 6; 7; 7; 8 ].

(** [mobi_bitcount]. *)
Definition mobi_bitcount (byte : Z) : Z := nth (Z.to_nat byte) setbits 0.

(** The number of bits set among the eight low bits. *)
Definition popcount8 (b : Z) : Z :=
  fold_right (fun i acc => (if Z.testbit b i then 1 else 0) + acc) 0
    [0; 1; 2; 3; 4; 5; 6; 7].

(** *** Powers and base 32 *)

(** The loop [while (exp)] of [mobi_pow]: [base] and [exp] are [unsigned]
    (32 bits), [result] is a [size_t].  [exp] is halved in every round, so
    32 rounds of [fuel] let the loop run to its end. *)
Fixpoint mobi_pow_loop (fuel : nat) (base exp result : Z) : Z :=
  match fuel with
  | O => result
  | S fuel' =>
      if exp =? 0 then result
      else
        let result' :=
          if Z.land exp 1 =? 0 then result else wrap_size (result * base) in
        mobi_pow_loop fuel' (wrap32 (base * base)) (Z.shiftr exp 1) result'
  end.

(** [mobi_pow]. *)
Definition mobi_pow (base exp : Z) : Z := mobi_pow_loop 32 base exp 1.

(** The loop [while ( *encoded == '0')]. *)
Fixpoint strip_zeroes (encoded : string) : string :=
  match encoded with
  | EmptyString => EmptyString
  | String c rest =>
      if byte_of_ascii c =? 48 then strip_zeroes rest else encoded
  end.

(** The loop [while ( *c)] of [mobi_base32_decode]: [len] is the counter
    before its decrement, [decoded] the value of [*decoded]. *)
Fixpoint base32_loop (c : string) (len decoded : Z) : MOBI_RET * Z :=
  match c with
  | EmptyString => (MOBI_SUCCESS, decoded)
  | String ch rest =>
      let n := byte_of_ascii ch in
      let value :=
        if (65 <=? n) && (n <=? 86) then Some (n - 65 + 10)
        else if (48 <=? n) && (n <=? 57) then Some (n - 48)
        else None in
      match value with
      | None => (MOBI_DATA_CORRUPT, decoded)
      | Some v =>
          base32_loop rest (len - 1)
            (wrap32 (decoded + wrap_size (v * mobi_pow 32 (wrap32 (len - 1)))))
      end
  end.

(** [mobi_base32_decode decoded encoded]: [decoded] is the value at the
    pointer before the call, [None] a [NULL] pointer.  The result is the
    status and the value at [decoded] afterwards. *)
Definition mobi_base32_decode (decoded : option Z) (encoded : option string)
  : MOBI_RET * option Z :=
  match decoded, encoded with
  | Some old, Some s =>
      let stripped := strip_zeroes s in
      let encoded_length := strlen stripped in
      if encoded_length >? 6 then (MOBI_PARAM_ERR, Some old)
      else
        let '(ret, value) := base32_loop stripped (wrap32 encoded_length) 0 in
        (ret, Some value)
  | _, _ => (MOBI_PARAM_ERR, decoded)
  end.

(** The value of a base-32 digit (0..9, A..V). *)
Definition base32_digit (c : ascii) : option Z :=
  let n := byte_of_ascii c in
  if (48 <=? n) && (n <=? 57) then Some (n - 48)
  else if (65 <=? n) && (n <=? 86) then Some (n - 55)
  else None.

(** The number a string of base-32 digits writes, most significant digit
    first; [None] when a character is no digit. *)
Fixpoint base32_value (s : string) (acc : Z) : option Z :=
  match s with
  | EmptyString => Some acc
  | String c rest =>
      match base32_digit c with
      | Some v => base32_value rest (acc * 32 + v)
      | None => None
      end
  end.

(** *** EXTH strings *)

(** [mobi_decode_exthstring m data size]: [data] holds [size] bytes,
    [string] is the content of the local array [string[3 * size + 1]]
    before it is written, and [malloc_ok] tells whether the allocation in
    [strdup] succeeds.  The result is the string returned, [None] being
    [NULL]. *)
Definition mobi_decode_exthstring (malloc_ok : bool) (m : option MOBIData)
    (data : option (list Z)) (string : list Z) : option (list Z) :=
  match m, data with
  | Some _, Some bytes =>
      let size := Z.of_nat (length bytes) in
      let out_length := 3 * size + 1 in
      let filled : option (list Z * Z) :=
        if mobi_is_cp1252 m then
          match mobi_cp1252_to_utf8 (Some string) (Some bytes) out_length with
          | (MOBI_SUCCESS, Some s, n) => Some (s, n)
          | _ => None
          end
        else Some (store_bytes string bytes, size) in
      match filled with
      | None => None
      | Some (s, n) =>
          if malloc_ok then Some (c_string (store_at s n [0])) else None
      end
  | _, _ => None
  end.

(** [mobi_get_text_maxsize]. *)
Definition mobi_get_text_maxsize (m : option MOBIData) : Z :=
  match m ≫= m_rh with
  | Some rh =>
      if rh_text_record_count rh >? 0
      then rh_text_record_count rh * RECORD0_TEXT_SIZE_MAX
      else MOBI_NOTSET
  | None => MOBI_NOTSET
  end.

(** The check of the way back, for one entry of the table: the string of an
    entry of a language other than 97 has a number, and the string of that
    number is the same string. *)
Definition locale_string_check (lang_code region_code : Z) : bool :=
  match mobi_locale_entry lang_code region_code with
  | None => true
  | Some s =>
      if lang_code =? 97 then true
      else
        match mobi_get_locale_number (Some s) with
        | Some n =>
            match mobi_get_locale_string n with
            | Some s' => String.eqb s' s
            | None => false
            end
        | None => false
        end
  end.

Definition locale_strings_check : bool :=
  forallb (fun lang_code =>
             forallb (locale_string_check lang_code)
               (Zrange 0 (Z.to_nat MOBI_REGION_MAX)))
    (Zrange 0 (Z.to_nat MOBI_LANG_MAX)).

(** The bytes that the conversion stores for an assigned byte of
    0x80..0x9F are not zero. *)
Definition cp1252_high_nonzero (b : Z) : bool :=
  cp1252_unassigned b
  || forallb (fun c => negb (c =? 0)) (utf8_encode (cp1252_codepoint b)).

(* ===================================================================== *)
(** * Part II. Properties                                                 *)
(* ===================================================================== *)

(** ** The embedding on concrete inputs *)

Example cp1252_quote :
  mobi_cp1252_to_utf8 (Some (repeat 0xAA 8)) (Some [0x41; 0x92]) 7
  = (MOBI_SUCCESS, Some [0x41; 0xE2; 0x80; 0x99; 0; 0xAA; 0xAA; 0xAA], 4).
Proof. reflexivity. Qed.

Example cp1252_unassigned_byte :
  mobi_cp1252_to_utf8 (Some (repeat 0xAA 8)) (Some [0x41; 0x8D; 0x42]) 10
  = (MOBI_DATA_CORRUPT, Some (0x41 :: repeat 0xAA 7), 10).
Proof. reflexivity. Qed.

Example ref_decoder_sample :
  ref_utf8_to_cp1252 [0x41; 0xE2; 0x80; 0x99; 0xC3; 0xA9; 0xC5; 0xB8]
  = Some [0x41; 0x92; 0xE9; 0x9F].
Proof. reflexivity. Qed.

Example mobi_locale_rows :
  length mobi_locale = 99%nat /\
  mobi_locale_entry 9 0 = Some "en"%string /\
  mobi_locale_entry 41 0 = Some "fa"%string /\
  mobi_locale_entry 51 0 = None /\
  mobi_locale_entry 98 0 = Some "fy"%string.
Proof. repeat split. Qed.

Example locale_string_en_gb : mobi_get_locale_string 0x0809 = Some "en-gb"%string.
Proof. reflexivity. Qed.

Example locale_number_upper_case : mobi_get_locale_number (Some "en-GB"%string) = Some 0x0809.
Proof. reflexivity. Qed.

(** The string of language 97 runs into the row of language 0, whose first
    entry has the same two leading characters: the region loop reaches the
    [NULL] entries of that row. *)
Example locale_number_ne :
  mobi_get_locale_string 97 = Some "ne"%string /\
  mobi_get_locale_number (Some "ne"%string) = None.
Proof. split; reflexivity. Qed.

Example decode_exthvalue_sample :
  mobi_decode_exthvalue [0x12; 0x34; 0x56; 0x78; 0x9A] 5 = 0x12345678 /\
  mobi_decode_exthvalue [0x01; 0x02] 2 = 0x0102.
Proof. split; reflexivity. Qed.

Example kf8boundary_sample :
  mobi_get_kf8boundary_seqnumber (Some sample_plain) = Some 2 /\
  mobi_get_kf8boundary_seqnumber (Some sample_kf8_half) = Some MOBI_NOTSET.
Proof. split; reflexivity. Qed.

Example fullname_sample :
  mobi_get_fullname (Some sample_plain) (Some (repeat 0xAA 8)) 8
  = Some (MOBI_SUCCESS, Some (bytes_of_string "Book" ++ [0; 0xAA; 0xAA; 0xAA])).
Proof. reflexivity. Qed.

(** ** Enumeration over a range of bytes *)

Lemma Zrange_elem (lo : Z) (n : nat) (b : Z) :
  lo <= b < lo + Z.of_nat n -> In b (Zrange lo n).
Proof.
  intros Hb. unfold Zrange. apply in_map_iff.
  exists (Z.to_nat (b - lo)). split; [lia|].
  apply in_seq. lia.
Qed.

Lemma Zrange_forallb (P : Z -> bool) (lo : Z) (n : nat) :
  forallb P (Zrange lo n) = true ->
  forall b, lo <= b < lo + Z.of_nat n -> P b = true.
Proof.
  intros Hall b Hb. rewrite forallb_forall in Hall.
  apply Hall, Zrange_elem, Hb.
Qed.

(** ** CP1252 to UTF-8 *)

Lemma cp1252_table_loop_bytes (row out : list Z) (i : Z) :
  cp1252_table_loop row out i
  = (out ++ cp1252_row_bytes row, i + Z.of_nat (length (cp1252_row_bytes row))).
Proof.
  revert out i. induction row as [|c row IH]; intros out i; simpl.
  - rewrite app_nil_r. f_equal. lia.
  - destruct (c =? 0).
    + rewrite app_nil_r. simpl. f_equal. lia.
    + rewrite IH, <- app_assoc. simpl. f_equal. lia.
Qed.

Lemma cp1252_table_rows (b : Z) :
  0x80 <= b < 0xa0 -> cp1252_row_check b = true.
Proof.
  intros Hb. apply (Zrange_forallb cp1252_row_check 0x80 32); [|lia].
  vm_compute. reflexivity.
Qed.

Lemma land_3f_plus_80 (b : Z) : Z.land b 0x3f + 0x80 = Z.lor (Z.land b 0x3F) 0x80.
Proof.
  assert (H : 0 <= Z.land b 0x3f < 64).
  { change 0x3f with (Z.ones 6). rewrite Z.land_ones by lia.
    apply Z.mod_pos_bound. lia. }
  rewrite <- Z.add_nocarry_lor; [reflexivity|].
  apply Z.bits_inj'. intros n Hn. rewrite Z.land_spec, Z.land_spec, Z.bits_0.
  destruct (Z.eq_dec n 7) as [->|Hne].
  - change (Z.testbit 0x3f 7) with false. rewrite andb_false_r. reflexivity.
  - replace (Z.testbit 0x80 n) with false; [apply andb_false_r|].
    symmetry. change 0x80 with (2 ^ 7). apply Z.pow2_bits_false. lia.
Qed.

(** The main loop against the byte-by-byte description, on the C string of
    the input. *)
Lemma cp1252_loop_spec (input : list Z) :
  forall (outsize : Z) (out : list Z),
    Z.of_nat (length out) + 3 * Z.of_nat (length input) + 1 <= outsize ->
    match spec_cp1252_bytes (c_string input) with
    | Some e => cp1252_loop input outsize out = Cp_done (out ++ e)
    | None => exists o, cp1252_loop input outsize out = Cp_corrupt o
    end.
Proof.
  induction input as [|b rest IH]; intros outsize out Hsz; simpl.
  - rewrite app_nil_r. reflexivity.
  - simpl length in Hsz.
    destruct (Z.eqb_spec b 0) as [->|Hb0]; simpl.
    { rewrite app_nil_r. reflexivity. }
    destruct (Z.ltb_spec (Z.of_nat (length out)) outsize) as [_|Hge]; [simpl|lia].
    unfold spec_cp1252_byte.
    destruct (Z.ltb_spec b 0x80) as [Hlt80|Hge80].
    { specialize (IH outsize (out ++ [b])).
      rewrite length_app in IH. simpl length in IH.
      specialize (IH ltac:(lia)).
      destruct (spec_cp1252_bytes (c_string rest)) as [e|].
      - rewrite IH, <- app_assoc. reflexivity.
      - exact IH. }
    destruct (Z.ltb_spec b 0xa0) as [Hlta0|Hgea0].
    { rewrite cp1252_table_loop_bytes.
      pose proof (cp1252_table_rows b ltac:(lia)) as Hrow.
      unfold cp1252_row_check in Hrow.
      destruct (cp1252_unassigned b).
      - apply bool_decide_eq_true in Hrow. rewrite Hrow. simpl. eauto.
      - apply andb_prop in Hrow as [Hrow Hle].
        apply andb_prop in Hrow as [Hrow Hge].
        apply bool_decide_eq_true in Hrow.
        apply Z.leb_le in Hle, Hge. rewrite Hrow in *.
        destruct (Z.eqb_spec (0 + Z.of_nat (length (utf8_encode (cp1252_codepoint b)))) 0)
          as [Hz|_]; [lia|].
        specialize (IH outsize (out ++ utf8_encode (cp1252_codepoint b))).
        rewrite length_app in IH. specialize (IH ltac:(lia)).
        destruct (spec_cp1252_bytes (c_string rest)) as [e|].
        + rewrite IH, <- app_assoc. reflexivity.
        + exact IH. }
    destruct (Z.ltb_spec b 0xc0) as [Hltc0|Hgec0].
    { specialize (IH outsize (out ++ [0xc2; b])).
      rewrite length_app in IH. simpl length in IH.
      specialize (IH ltac:(lia)).
      destruct (spec_cp1252_bytes (c_string rest)) as [e|].
      - rewrite IH, <- app_assoc. reflexivity.
      - exact IH. }
    specialize (IH outsize (out ++ [0xc3; Z.land b 0x3f + 0x80])).
    rewrite length_app in IH. simpl length in IH.
    specialize (IH ltac:(lia)).
    destruct (spec_cp1252_bytes (c_string rest)) as [e|].
    + rewrite IH, <- app_assoc, land_3f_plus_80. reflexivity.
    + exact IH.
Qed.

(** C1 (amended).  With an output buffer of room for three times the input
    length plus one, [mobi_cp1252_to_utf8] converts the C string held by the
    input, that is its bytes before the first NUL byte (all of them when
    there is none): a byte below 0x80 is copied, a byte of 0x80..0x9F is
    replaced by the UTF-8 encoding of its CP1252 code point (the two or
    three non-zero bytes of its table row), a byte of 0xA0..0xBF becomes
    0xC2 b and a byte of 0xC0..0xFF becomes 0xC3 ((b & 0x3F) | 0x80).  If
    one of the unassigned bytes 0x81, 0x8D, 0x8F, 0x90, 0x9D occurs in that
    string the status is [MOBI_DATA_CORRUPT]; otherwise the status is
    [MOBI_SUCCESS], the output is the converted string followed by NUL, and
    [*outsize] is the number of converted bytes. *)
Theorem cp1252_to_utf8_c_string (buf input : list Z) (outsize : Z) :
  3 * Z.of_nat (length input) + 1 <= outsize ->
  match spec_cp1252_bytes (c_string input) with
  | Some e =>
      mobi_cp1252_to_utf8 (Some buf) (Some input) outsize
      = (MOBI_SUCCESS, Some (store_bytes buf (e ++ [0])), Z.of_nat (length e))
  | None =>
      (mobi_cp1252_to_utf8 (Some buf) (Some input) outsize).1.1 = MOBI_DATA_CORRUPT
  end.
Proof.
  intros Hsz. unfold mobi_cp1252_to_utf8.
  pose proof (cp1252_loop_spec input outsize [] ltac:(simpl; lia)) as Hloop.
  destruct (spec_cp1252_bytes (c_string input)) as [e|].
  - rewrite Hloop. reflexivity.
  - destruct Hloop as [o ->]. reflexivity.
Qed.

Lemma cp1252_to_utf8_c_string_witness :
  3 * Z.of_nat (length [0x41; 0x92; 0xE9]) + 1 <= 10 /\
  mobi_cp1252_to_utf8 (Some (repeat 0xAA 10)) (Some [0x41; 0x92; 0xE9]) 10
  = (MOBI_SUCCESS,
     Some [0x41; 0xE2; 0x80; 0x99; 0xC3; 0xA9; 0; 0xAA; 0xAA; 0xAA], 6).
Proof.
  split; [simpl; lia|].
  exact (cp1252_to_utf8_c_string (repeat 0xAA 10) [0x41; 0x92; 0xE9] 10
           ltac:(simpl; lia)).
Defined.

(** C1 as stated fails on an input with a NUL byte: the claim maps the
    three bytes 41 00 42 to themselves ([*outsize] = 3), the code stops at
    the NUL byte and reports one byte. *)
Lemma cp1252_to_utf8_nul_counterexample :
  3 * Z.of_nat (length [0x41; 0x00; 0x42]) + 1 <= 10 /\
  spec_cp1252_bytes [0x41; 0x00; 0x42] = Some [0x41; 0x00; 0x42] /\
  mobi_cp1252_to_utf8 (Some (repeat 0xAA 10)) (Some [0x41; 0x00; 0x42]) 10
  = (MOBI_SUCCESS, Some (0x41 :: 0 :: repeat 0xAA 8), 1) /\
  mobi_cp1252_to_utf8 (Some (repeat 0xAA 10)) (Some [0x41; 0x00; 0x42]) 10
  <> (MOBI_SUCCESS,
      Some (store_bytes (repeat 0xAA 10) ([0x41; 0x00; 0x42] ++ [0])), 3).
Proof.
  split; [simpl; lia|]. split; [reflexivity|]. split; [reflexivity|].
  vm_compute. discriminate.
Qed.

(** ** Round trip through the reference decoder *)

Lemma c_string_no_nul (input : list Z) :
  Forall (fun b => b <> 0) input -> c_string input = input.
Proof.
  induction 1 as [|b rest Hb _ IH]; simpl; [reflexivity|].
  destruct (Z.eqb_spec b 0); [contradiction|]. rewrite IH. reflexivity.
Qed.

Lemma byte_roundtrip_all : Forall byte_roundtrip (Zrange 0x20 224).
Proof.
  unfold Zrange. cbn [seq map].
  repeat (apply Forall_cons; split;
          [ intros Hu; first [ discriminate Hu
                            | eexists; split; [reflexivity|intros rest; reflexivity] ] | ]).
  constructor.
Qed.

Lemma byte_roundtrip_range (b : Z) : 0x20 <= b <= 0xFF -> byte_roundtrip b.
Proof.
  intros Hb. pose proof byte_roundtrip_all as Hall.
  rewrite Forall_forall in Hall. apply Hall.
  apply list_elem_of_In, Zrange_elem. lia.
Qed.

Lemma spec_cp1252_bytes_roundtrip (input : list Z) :
  Forall (fun b => 0x20 <= b <= 0xFF /\ cp1252_unassigned b = false) input ->
  exists e, spec_cp1252_bytes input = Some e /\ ref_utf8_to_cp1252 e = Some input.
Proof.
  induction 1 as [|b rest [Hb Hu] _ IH]; simpl.
  - exists []. split; reflexivity.
  - destruct IH as (r & Hr & Hdec).
    destruct (byte_roundtrip_range b Hb Hu) as (e & He & Hback).
    exists (e ++ r). rewrite He, Hr. split; [reflexivity|].
    rewrite Hback, Hdec. reflexivity.
Qed.

Lemma cp1252_converted_success (buf e : list Z) :
  cp1252_converted
    (MOBI_SUCCESS, Some (store_bytes buf (e ++ [0])), Z.of_nat (length e))
  = Some e.
Proof.
  unfold cp1252_converted, store_bytes. rewrite Nat2Z.id, <- app_assoc.
  rewrite take_app_length. reflexivity.
Qed.

(** C6 (amended).  For every byte string whose bytes lie in 0x20..0xFF and
    are none of the unassigned bytes 0x81, 0x8D, 0x8F, 0x90, 0x9D,
    converting it with [mobi_cp1252_to_utf8] into a buffer with room for
    three times its length plus one and decoding the result with the
    reference UTF-8 to CP1252 decoder gives the byte string back. *)
Theorem cp1252_utf8_roundtrip (buf input : list Z) (outsize : Z) :
  Forall (fun b => 0x20 <= b <= 0xFF /\ cp1252_unassigned b = false) input ->
  3 * Z.of_nat (length input) + 1 <= outsize ->
  cp1252_converted (mobi_cp1252_to_utf8 (Some buf) (Some input) outsize)
    ≫= ref_utf8_to_cp1252
  = Some input.
Proof.
  intros Hin Hsz.
  destruct (spec_cp1252_bytes_roundtrip input Hin) as (e & He & Hdec).
  assert (Hnz : Forall (fun b => b <> 0) input).
  { eapply Forall_impl; [exact Hin|]. simpl. intros b [Hb _]. lia. }
  pose proof (cp1252_loop_spec input outsize [] ltac:(simpl; lia)) as Hloop.
  rewrite (c_string_no_nul input Hnz), He in Hloop.
  unfold mobi_cp1252_to_utf8. rewrite Hloop. simpl app.
  rewrite cp1252_converted_success. simpl. exact Hdec.
Qed.

Lemma cp1252_utf8_roundtrip_witness :
  cp1252_converted
    (mobi_cp1252_to_utf8 (Some (repeat 0 16)) (Some [0x41; 0x80; 0xA9; 0xFF; 0x9F]) 16)
    ≫= ref_utf8_to_cp1252
  = Some [0x41; 0x80; 0xA9; 0xFF; 0x9F].
Proof.
  apply (cp1252_utf8_roundtrip (repeat 0 16) [0x41; 0x80; 0xA9; 0xFF; 0x9F] 16).
  - repeat (apply Forall_cons; split; [split; [lia|reflexivity]|]). constructor.
  - simpl. lia.
Defined.

(** C6 as stated fails on the unassigned byte 0x81, which lies in
    0x20..0xFF: the conversion returns [MOBI_DATA_CORRUPT] and there is no
    converted string to decode. *)
Lemma cp1252_utf8_roundtrip_counterexample :
  Forall (fun b => 0x20 <= b <= 0xFF) [0x81] /\
  3 * Z.of_nat (length [0x81]) + 1 <= 4 /\
  mobi_cp1252_to_utf8 (Some (repeat 0 4)) (Some [0x81]) 4
  = (MOBI_DATA_CORRUPT, Some (repeat 0 4), 4) /\
  cp1252_converted (mobi_cp1252_to_utf8 (Some (repeat 0 4)) (Some [0x81]) 4)
    ≫= ref_utf8_to_cp1252
  <> Some [0x81].
Proof.
  split; [repeat constructor; lia|]. split; [simpl; lia|].
  split; [reflexivity|]. vm_compute. discriminate.
Qed.

(** ** Text encoding *)

(** C10.  [mobi_get_encoding] returns [MOBI_UTF8] exactly when the document,
    its MOBI header and the header's [text_encoding] field are present and
    the field holds 65001; in every other case it returns [MOBI_CP1252]. *)
Theorem mobi_get_encoding_utf8_iff (m : option MOBIData) :
  let utf8_declared :=
    exists d mh, m = Some d /\ m_mh d = Some mh /\ mh_text_encoding mh = Some 65001 in
  (mobi_get_encoding m = MOBI_UTF8 <-> utf8_declared) /\
  (~ utf8_declared -> mobi_get_encoding m = MOBI_CP1252) /\
  (m = None -> mobi_get_encoding m = MOBI_CP1252) /\
  (forall d, m = Some d -> m_mh d = None -> mobi_get_encoding m = MOBI_CP1252) /\
  (forall d mh, m = Some d -> m_mh d = Some mh -> mh_text_encoding mh = None ->
     mobi_get_encoding m = MOBI_CP1252) /\
  (forall d mh e, m = Some d -> m_mh d = Some mh -> mh_text_encoding mh = Some e ->
     e <> 65001 -> mobi_get_encoding m = MOBI_CP1252).
Proof.
  intros utf8_declared.
  assert (Hiff : mobi_get_encoding m = MOBI_UTF8 <-> utf8_declared).
  { unfold utf8_declared, mobi_get_encoding. split.
    - destruct m as [d|]; [|discriminate].
      destruct (m_mh d) as [mh|] eqn:Hmh; [|discriminate].
      destruct (mh_text_encoding mh) as [e|] eqn:He; [|discriminate].
      simpl. destruct (Z.eqb_spec e 65001) as [->|]; [|discriminate].
      intros _. exists d, mh. auto.
    - intros (d & mh & -> & Hmh & He). rewrite Hmh, He. reflexivity. }
  split; [exact Hiff|]. split.
  { intros Hno. destruct (mobi_get_encoding m) eqn:E; [reflexivity|].
    exfalso. apply Hno, Hiff. reflexivity. }
  split; [intros ->; reflexivity|]. split.
  { intros d -> Hmh. simpl. rewrite Hmh. reflexivity. }
  split.
  { intros d mh -> Hmh He. simpl. rewrite Hmh, He. reflexivity. }
  intros d mh e -> Hmh He Hne. simpl. rewrite Hmh, He. simpl.
  destruct (Z.eqb_spec e 65001); [contradiction|reflexivity].
Qed.

Lemma mobi_get_encoding_utf8_iff_witness :
  mobi_get_encoding (Some sample_plain) = MOBI_UTF8 /\
  mobi_get_encoding None = MOBI_CP1252.
Proof.
  destruct (mobi_get_encoding_utf8_iff (Some sample_plain)) as (Hiff & _).
  destruct (mobi_get_encoding_utf8_iff None) as (_ & _ & Hnull & _).
  split.
  - apply Hiff. exists sample_plain, (sample_mh 6 None None). repeat split.
  - apply Hnull. reflexivity.
Defined.

(** ** Record and EXTH lookups *)

Lemma record_seq_loop_lookup (curr : list MOBIPdbRecord) :
  forall i num,
    record_seq_loop curr i num
    = if num <? i then None else curr !! Z.to_nat (num - i).
Proof.
  induction curr as [|c next IH]; intros i num; simpl.
  - destruct (num <? i); reflexivity.
  - destruct (Z.eqb_spec i num) as [->|Hne].
    + rewrite Z.ltb_irrefl, Z.sub_diag. reflexivity.
    + rewrite IH.
      destruct (Z.ltb_spec num i) as [Hlt|Hge].
      * destruct (Z.ltb_spec num (i + 1)); [reflexivity|lia].
      * destruct (Z.ltb_spec num (i + 1)); [lia|].
        replace (Z.to_nat (num - i)) with (S (Z.to_nat (num - (i + 1)))) by lia.
        reflexivity.
Qed.

Lemma record_by_seqnumber_lookup (d : MOBIData) (num : Z) :
  0 <= num ->
  mobi_get_record_by_seqnumber (Some d) num = m_rec d !! Z.to_nat num.
Proof.
  intros Hnum. simpl. rewrite record_seq_loop_lookup.
  destruct (Z.ltb_spec num 0); [lia|]. rewrite Z.sub_0_r. reflexivity.
Qed.

Lemma exth_tag_loop_first (eh : list MOBIExthHeader) (tag : Z) (e : MOBIExthHeader) :
  exth_tag_loop eh tag = Some e <-> first_exth_with_tag eh tag e.
Proof.
  unfold first_exth_with_tag. split.
  - induction eh as [|c next IH]; simpl; [discriminate|].
    destruct (Z.eqb_spec (exth_tag c) tag) as [Heq|Hne].
    + intros [= ->]. exists [], next. repeat split; [exact Heq|constructor].
    + intros Hloop. destruct (IH Hloop) as (before & after & -> & Htag & Hall).
      exists (c :: before), after. repeat split; [exact Htag|].
      constructor; assumption.
  - intros (before & after & -> & Htag & Hall).
    induction Hall as [|c before Hc _ IH]; simpl.
    + destruct (Z.eqb_spec (exth_tag e) tag); [reflexivity|contradiction].
    + destruct (Z.eqb_spec (exth_tag c) tag); [contradiction|exact IH].
Qed.

Lemma has_magic_in_bounds (data magic : list Z) :
  (length magic <= length data)%nat ->
  has_magic data magic = Some (bool_decide (take (length magic) data = magic)).
Proof.
  intros Hlen. unfold has_magic.
  destruct (decide (length magic <= length data)%nat); [reflexivity|lia].
Qed.

Lemma has_magic_true (data magic : list Z) :
  has_magic data magic = Some true <-> exists rest, data = magic ++ rest.
Proof.
  unfold has_magic. split.
  - destruct (decide (length magic <= length data)%nat); [|discriminate].
    intros [= Htake]. apply bool_decide_eq_true in Htake.
    exists (drop (length magic) data). rewrite <- Htake at 1.
    symmetry. apply take_drop.
  - intros [rest ->].
    destruct (decide (length magic <= length (magic ++ rest))%nat) as [_|Hn].
    + f_equal. apply bool_decide_eq_true. apply take_app_length.
    + rewrite length_app in Hn. lia.
Qed.

Lemma has_magic_none (data magic : list Z) :
  has_magic data magic = None <-> (length data < length magic)%nat.
Proof.
  unfold has_magic.
  destruct (decide (length magic <= length data)%nat); split;
    intros; try discriminate; try lia; reflexivity.
Qed.

Lemma boundary_magic_spec (record : MOBIPdbRecord) :
  boundary_magic record = Some true <-> starts_with_boundary record.
Proof.
  unfold boundary_magic, starts_with_boundary. apply has_magic_true.
Qed.

Lemma boundary_magic_none (record : MOBIPdbRecord) :
  boundary_magic record = None <-> rec_size record < 8.
Proof.
  unfold boundary_magic, rec_size. rewrite has_magic_none.
  change (length (bytes_of_string "BOUNDARY")) with 8%nat. lia.
Qed.

(** ** Big-endian EXTH values *)

Lemma lor_disjoint_add (hi lo k : Z) :
  0 <= k -> 0 <= lo < 2 ^ k -> Z.lor (hi * 2 ^ k) lo = hi * 2 ^ k + lo.
Proof.
  intros Hk Hlo. symmetry. apply Z.add_nocarry_lor.
  apply Z.bits_inj'. intros n Hn. rewrite Z.land_spec, Z.bits_0.
  destruct (Z.lt_ge_cases n k) as [Hlt|Hge].
  - rewrite Z.mul_pow2_bits_low by lia. reflexivity.
  - replace (Z.testbit lo n) with false; [apply andb_false_r|].
    symmetry. destruct (Z.eq_dec lo 0) as [->|Hnz]; [apply Z.bits_0|].
    apply Z.bits_above_log2; [lia|].
    apply Z.log2_lt_pow2; [lia|].
    apply Z.lt_le_trans with (2 ^ k); [lia|].
    apply Z.pow_le_mono_r; lia.
Qed.

Lemma wrap32_shiftl_byte (b s : Z) :
  is_byte b -> 0 <= s <= 24 -> wrap32 (Z.shiftl b s) = b * 2 ^ s.
Proof.
  unfold is_byte, wrap32. intros Hb Hs. rewrite Z.shiftl_mul_pow2 by lia.
  apply Z.mod_small. split; [apply Z.mul_nonneg_nonneg; lia|].
  assert (2 ^ s <= 2 ^ 24) by (apply Z.pow_le_mono_r; lia).
  assert (0 < 2 ^ s) by (apply Z.pow_pos_nonneg; lia).
  change (2 ^ 32) with (256 * 2 ^ 24). nia.
Qed.

Ltac norm_shifts :=
  change (Z.of_nat 3 * 8) with 24; change (Z.of_nat 2 * 8) with 16;
  change (Z.of_nat 1 * 8) with 8; change (Z.of_nat 0 * 8) with 0.

(** The decoding loop computes the big-endian value of the payload, clamped
    to four bytes, and the value fits 32 bits. *)
Lemma mobi_decode_exthvalue_be (data : list Z) :
  Forall is_byte data ->
  mobi_decode_exthvalue data (Z.of_nat (length data)) = exth_numeric_value data
  /\ 0 <= exth_numeric_value data < 2 ^ 32.
Proof.
  unfold mobi_decode_exthvalue, exth_numeric_value.
  intros Hall.
  destruct data as [|b0 [|b1 [|b2 [|b3 rest]]]].
  - simpl. lia.
  - inversion_clear Hall as [|? ? H0 _].
    simpl. norm_shifts. rewrite (wrap32_shiftl_byte b0 0) by (unfold is_byte in *; lia).
    unfold is_byte in *. rewrite Z.lor_0_l. lia.
  - inversion_clear Hall as [|? ? H0 Hall']. inversion_clear Hall' as [|? ? H1 _].
    simpl. norm_shifts.
    rewrite (wrap32_shiftl_byte b0 8), (wrap32_shiftl_byte b1 0)
      by (unfold is_byte in *; lia).
    unfold is_byte in *. rewrite Z.lor_0_l.
    change (b1 * 2 ^ 0) with (b1 * 1). rewrite Z.mul_1_r.
    rewrite lor_disjoint_add by lia. lia.
  - inversion_clear Hall as [|? ? H0 Hall']. inversion_clear Hall' as [|? ? H1 Hall].
    inversion_clear Hall as [|? ? H2 _].
    simpl. norm_shifts.
    rewrite (wrap32_shiftl_byte b0 16), (wrap32_shiftl_byte b1 8),
      (wrap32_shiftl_byte b2 0) by (unfold is_byte in *; lia).
    unfold is_byte in *. rewrite Z.lor_0_l.
    change (b2 * 2 ^ 0) with (b2 * 1). rewrite Z.mul_1_r.
    change (2 ^ 16) with (256 * 2 ^ 8).
    replace (Z.lor (b0 * (256 * 2 ^ 8)) (b1 * 2 ^ 8))
      with ((b0 * 256 + b1) * 2 ^ 8).
    2:{ replace (b0 * (256 * 2 ^ 8)) with (b0 * 2 ^ 16) by lia.
        rewrite lor_disjoint_add by lia. lia. }
    rewrite lor_disjoint_add by lia. lia.
  - inversion_clear Hall as [|? ? H0 Hall']. inversion_clear Hall' as [|? ? H1 Hall].
    inversion_clear Hall as [|? ? H2 Hall']. inversion_clear Hall' as [|? ? H3 _].
    replace (Z.to_nat (Z.min (Z.of_nat (length (b0 :: b1 :: b2 :: b3 :: rest))) 4))
      with 4%nat by (simpl length; lia).
    simpl. norm_shifts.
    rewrite (wrap32_shiftl_byte b0 24), (wrap32_shiftl_byte b1 16),
      (wrap32_shiftl_byte b2 8), (wrap32_shiftl_byte b3 0)
      by (unfold is_byte in *; lia).
    unfold is_byte in *. rewrite Z.lor_0_l.
    change (b3 * 2 ^ 0) with (b3 * 1). rewrite Z.mul_1_r.
    replace (Z.lor (b0 * 2 ^ 24) (b1 * 2 ^ 16)) with ((b0 * 256 + b1) * 2 ^ 16).
    2:{ rewrite lor_disjoint_add by lia. lia. }
    replace (Z.lor ((b0 * 256 + b1) * 2 ^ 16) (b2 * 2 ^ 8))
      with (((b0 * 256 + b1) * 256 + b2) * 2 ^ 8).
    2:{ rewrite lor_disjoint_add by lia. lia. }
    rewrite lor_disjoint_add by lia. lia.
Qed.

(** ** The KF8 boundary *)

Lemma kf8_boundary_at_unique (m : option MOBIData) (r r' : Z) :
  kf8_boundary_at m r -> kf8_boundary_at m r' -> r = r'.
Proof.
  intros (d & e & rc & -> & He & Hr & _) (d' & e' & rc' & [= <-] & He' & Hr' & _).
  apply exth_tag_loop_first in He, He'. rewrite He in He'.
  injection He' as <-. lia.
Qed.

(** The result of [mobi_get_kf8boundary_seqnumber] on a loaded document:
    either the boundary condition holds at the result; or the condition
    holds nowhere, and the result is [MOBI_NOTSET] unless the record that
    the EXTH value refers to is shorter than the eight bytes compared. *)
Lemma kf8boundary_seqnumber_cases (d : MOBIData) :
  loaded_records d ->
  (exists r, mobi_get_kf8boundary_seqnumber (Some d) = Some r
             /\ kf8_boundary_at (Some d) r)
  \/ ((forall r, ~ kf8_boundary_at (Some d) r)
      /\ (mobi_get_kf8boundary_seqnumber (Some d) = Some MOBI_NOTSET
          \/ (mobi_get_kf8boundary_seqnumber (Some d) = None
              /\ ~ boundary_record_in_bounds d))).
Proof.
  intros [Hbytes Hcount].
  unfold mobi_get_kf8boundary_seqnumber, mobi_get_exthrecord_by_tag, EXTH_KF8BOUNDARY.
  destruct (exth_tag_loop (m_eh d) 121) as [e|] eqn:He.
  2:{ right. split; [|left; reflexivity].
      intros r (d' & e & rc & [= <-] & Hfirst & _).
      apply exth_tag_loop_first in Hfirst. congruence. }
  assert (Hfirst := He). apply exth_tag_loop_first in Hfirst.
  assert (He_bytes : Forall is_byte (exth_data e)).
  { destruct Hfirst as (before & after & Heq & _).
    rewrite Heq in Hbytes. apply Forall_app in Hbytes as [_ Hb].
    apply Forall_cons in Hb as [Hb _]. exact Hb. }
  destruct (mobi_decode_exthvalue_be _ He_bytes) as [Hdec Hrange].
  unfold exth_size. rewrite Hdec.
  set (v := exth_numeric_value (exth_data e)) in *.
  assert (Hother : forall r, kf8_boundary_at (Some d) r ->
            r = v - 1 /\ 0 <= r /\ exists rc, m_rec d !! Z.to_nat r = Some rc
                                              /\ starts_with_boundary rc).
  { intros r (d' & e' & rc & [= <-] & Hfirst' & Hr & [Hpos Hlook] & Hb).
    apply exth_tag_loop_first in Hfirst'. rewrite He in Hfirst'.
    injection Hfirst' as <-. fold v in Hr. eauto 6. }
  destruct (Z.eq_dec v 0) as [Hv0|Hvpos].
  - right. rewrite Hv0. change (wrap32 (0 - 1)) with 0xFFFFFFFF.
    rewrite record_by_seqnumber_lookup by lia.
    rewrite lookup_ge_None_2 by lia. split; [|left; reflexivity].
    intros r Hr. apply Hother in Hr. lia.
  - assert (Hwrap : wrap32 (v - 1) = v - 1).
    { unfold wrap32. apply Z.mod_small. lia. }
    rewrite Hwrap, record_by_seqnumber_lookup by lia.
    destruct (m_rec d !! Z.to_nat (v - 1)) as [rc|] eqn:Hlook.
    + assert (Hnot : boundary_magic rc <> Some true ->
                     forall r, ~ kf8_boundary_at (Some d) r).
      { intros Hmagic r Hr.
        apply Hother in Hr as (-> & _ & rc' & Hlook' & Hb).
        rewrite Hlook in Hlook'. injection Hlook' as <-.
        apply boundary_magic_spec in Hb. contradiction. }
      destruct (boundary_magic rc) as [[|]|] eqn:Hmagic; simpl.
      * left. exists (v - 1). split; [reflexivity|].
        exists d, e, rc. repeat split; try assumption; try lia.
        apply boundary_magic_spec, Hmagic.
      * right. split; [apply Hnot; discriminate|]. left. reflexivity.
      * right. split; [apply Hnot; discriminate|]. right.
        split; [reflexivity|]. intros Hbounds.
        apply boundary_magic_none in Hmagic.
        specialize (Hbounds e rc Hfirst). fold v in Hbounds.
        assert (8 <= rec_size rc); [|lia].
        apply Hbounds. split; [lia|exact Hlook].
    + right. split; [|left; reflexivity]. intros r Hr.
      apply Hother in Hr as (-> & _ & rc' & Hlook' & _). congruence.
Qed.

(** C3.  The claim fails where the record under the number of EXTH tag 121
    is shorter than the eight bytes compared.  In the sample, EXTH tag 121
    holds 3 and the record with sequence number 2 holds the three bytes
    BOU: no record starts with BOUNDARY, so the claim asks for
    [MOBI_NOTSET]; the function compares eight bytes of a record of three,
    reading five bytes past its data, and its result is not determined by
    the document. *)
Theorem kf8boundary_short_record :
  loaded_records sample_short_boundary /\
  (forall r, ~ kf8_boundary_at (Some sample_short_boundary) r) /\
  (exists record,
     mobi_get_record_by_seqnumber (Some sample_short_boundary) 2 = Some record /\
     rec_size record = 3) /\
  mobi_get_kf8boundary_seqnumber (Some sample_short_boundary) = None /\
  mobi_get_kf8boundary_seqnumber (Some sample_short_boundary) <> Some MOBI_NOTSET.
Proof.
  assert (Hloaded : loaded_records sample_short_boundary).
  { split; [|simpl; lia]. cbv -[Z.le Z.lt].
    repeat (apply Forall_cons; split;
            [repeat (apply Forall_cons; split; [lia|]); constructor|]).
    constructor. }
  split; [exact Hloaded|]. split.
  - destruct (kf8boundary_seqnumber_cases _ Hloaded) as [(r & Hres & _)|[Hno _]].
    + vm_compute in Hres. discriminate.
    + exact Hno.
  - split; [eexists; split; reflexivity|].
    split; [reflexivity|]. vm_compute. discriminate.
Qed.

(** X23.  On a loaded document, [mobi_get_kf8boundary_seqnumber] returns a
    number [r] other than [MOBI_NOTSET] exactly when EXTH tag 121 is
    present, the big-endian numeric value of its payload minus one is [r]
    and the record with sequence number [r] starts with the bytes of
    BOUNDARY; when that holds for no [r] it returns [MOBI_NOTSET], given
    that the record under the number of EXTH tag 121, if there is one,
    holds the eight bytes that are compared.  [mobi_is_hybrid] is true if
    and only if the document's KF8 boundary offset is not [MOBI_NOTSET]. *)
Theorem kf8boundary_seqnumber_spec (m : option MOBIData) :
  (forall d, m = Some d -> loaded_records d) ->
  (forall r, kf8_boundary_at m r -> mobi_get_kf8boundary_seqnumber m = Some r) /\
  (forall r, mobi_get_kf8boundary_seqnumber m = Some r -> r <> MOBI_NOTSET ->
             kf8_boundary_at m r) /\
  ((forall d, m = Some d -> boundary_record_in_bounds d) ->
   (forall r, ~ kf8_boundary_at m r) ->
   mobi_get_kf8boundary_seqnumber m = Some MOBI_NOTSET) /\
  (mobi_is_hybrid m = true <->
     exists d, m = Some d /\ m_kf8_boundary_offset d <> MOBI_NOTSET).
Proof.
  intros Hloaded. split; [|split; [|split]].
  - intros r Hr. destruct m as [d|].
    + destruct (kf8boundary_seqnumber_cases d (Hloaded d eq_refl))
        as [(r' & Hres & Hat)|[Hno _]].
      * rewrite Hres. f_equal.
        apply (kf8_boundary_at_unique (Some d)); assumption.
      * exfalso. exact (Hno r Hr).
    + destruct Hr as (d & _ & _ & Hm & _). discriminate.
  - intros r Hres Hset. destruct m as [d|]; [|simpl in Hres; congruence].
    destruct (kf8boundary_seqnumber_cases d (Hloaded d eq_refl))
      as [(r' & Hres' & Hat)|[_ [Hnot|[Hnone _]]]].
    + rewrite Hres in Hres'. injection Hres' as <-. exact Hat.
    + congruence.
    + congruence.
  - intros Hbounds Hno. destruct m as [d|]; [|reflexivity].
    destruct (kf8boundary_seqnumber_cases d (Hloaded d eq_refl))
      as [(r' & _ & Hat)|[_ [Hres|[_ Hout]]]].
    + exfalso. exact (Hno _ Hat).
    + exact Hres.
    + exfalso. exact (Hout (Hbounds d eq_refl)).
  - unfold mobi_is_hybrid. destruct m as [d|].
    + rewrite negb_true_iff, Z.eqb_neq. split.
      * intros Hne. exists d. auto.
      * intros (d' & [= <-] & Hne). exact Hne.
    + split; [discriminate|]. intros (d & Hm & _). discriminate.
Qed.

Lemma kf8boundary_seqnumber_spec_witness :
  loaded_records sample_plain /\
  boundary_record_in_bounds sample_plain /\
  kf8_boundary_at (Some sample_plain) 2 /\
  mobi_get_kf8boundary_seqnumber (Some sample_plain) = Some 2.
Proof.
  assert (Hloaded : loaded_records sample_plain).
  { split; [|simpl; lia]. cbv -[Z.le Z.lt].
    repeat (apply Forall_cons; split;
            [repeat (apply Forall_cons; split; [lia|]); constructor|]).
    constructor. }
  assert (Hat : kf8_boundary_at (Some sample_plain) 2).
  { exists sample_plain, {| exth_tag := 121; exth_data := [0; 0; 0; 3] |},
      (sample_record 4 (bytes_of_string "BOUNDARY")).
    split; [reflexivity|]. split.
    { exists [ {| exth_tag := 100; exth_data := bytes_of_string "Author" |} ], [].
      split; [reflexivity|]. split; [reflexivity|].
      apply Forall_cons; split; [simpl; lia|constructor]. }
    split; [reflexivity|]. split; [split; [lia|reflexivity]|].
    exists []. reflexivity. }
  assert (Hbounds : boundary_record_in_bounds sample_plain).
  { intros e record Hfirst [_ Hlook].
    apply exth_tag_loop_first in Hfirst. vm_compute in Hfirst.
    injection Hfirst as <-. vm_compute in Hlook.
    injection Hlook as <-. vm_compute. discriminate. }
  split; [exact Hloaded|]. split; [exact Hbounds|]. split; [exact Hat|].
  destruct (kf8boundary_seqnumber_spec (Some sample_plain)) as (Hret & _).
  - intros d [= <-]. exact Hloaded.
  - exact (Hret 2 Hat).
Defined.

(** ** The FDST record *)

(** C4 (amended).  If [mobi_exists_fdst] returns true and, when the file
    version is 8 or more, the [fdst_section_count] field is present and
    greater than 1, then [mobi_get_fdst_record_number] returns a value other
    than [MOBI_NOTSET]; this for a document where [fdst_index] plus the KF8
    offset is not itself 0xFFFFFFFF and where [last_text_index] is present
    (a 16-bit value) when [fdst_index] is absent or not set. *)
Theorem exists_fdst_record_number (m : option MOBIData) :
  mobi_exists_fdst m = true ->
  (8 <= mobi_get_fileversion m ->
   exists mh c, m ≫= m_mh = Some mh /\ mh_fdst_section_count mh = Some c /\ 1 < c) ->
  (forall mh i off,
     m ≫= m_mh = Some mh -> mh_fdst_index mh = Some i -> i <> MOBI_NOTSET ->
     mobi_get_kf8offset m = Some off -> wrap_size (i + off) <> MOBI_NOTSET) ->
  (forall mh,
     m ≫= m_mh = Some mh ->
     mh_fdst_index mh = None \/ mh_fdst_index mh = Some MOBI_NOTSET ->
     exists t, mh_last_text_index mh = Some t /\ 0 <= t <= 0xFFFF) ->
  exists n, mobi_get_fdst_record_number m = Some n /\ n <> MOBI_NOTSET.
Proof.
  intros Hex Hcount Hsum Hlast.
  unfold mobi_exists_fdst in Hex.
  destruct m as [d|]; [|discriminate].
  simpl in Hex, Hcount, Hsum, Hlast.
  destruct (m_mh d) as [mh|] eqn:Hmh; [|discriminate]. simpl in Hex.
  assert (Hc : exists c, mh_fdst_section_count mh = Some c /\ 1 < c).
  { destruct (Z.geb_spec (match mh_version mh with Some v => v | None => 1 end) 8)
      as [Hv|Hv].
    - destruct (Hcount Hv) as (mh' & c & [= <-] & Hc & Hgt). eauto.
    - destruct (mh_fdst_section_count mh) as [c|]; [|discriminate].
      exists c. split; [reflexivity|]. lia. }
  destruct Hc as (c & Hc & Hgt).
  assert (Hoff : exists off, mobi_get_kf8offset (Some d) = Some off).
  { simpl. destruct (m_use_kf8 d && negb (m_kf8_boundary_offset d =? MOBI_NOTSET));
      eauto. }
  destruct Hoff as [off Hoff].
  unfold mobi_get_fdst_record_number. rewrite Hoff. simpl. rewrite Hmh. simpl.
  rewrite Hc. destruct (Z.gtb_spec c 1) as [_|]; [|lia].
  simpl in Hoff.
  destruct (mh_fdst_index mh) as [i|] eqn:Hi.
  - destruct (Z.eqb_spec i MOBI_NOTSET) as [->|Hne]; simpl.
    + destruct (Hlast mh eq_refl (or_intror Hi)) as (t & -> & Ht).
      exists t. split; [reflexivity|]. unfold MOBI_NOTSET. lia.
    + exists (wrap_size (i + off)). split; [reflexivity|].
      apply (Hsum mh i off); auto.
  - simpl. destruct (Hlast mh eq_refl (or_introl Hi)) as (t & -> & Ht).
    exists t. split; [reflexivity|]. unfold MOBI_NOTSET. lia.
Qed.

Lemma exists_fdst_record_number_witness :
  mobi_exists_fdst (Some sample_kf8_half) = true /\
  exists n, mobi_get_fdst_record_number (Some sample_kf8_half) = Some n
            /\ n <> MOBI_NOTSET.
Proof.
  split; [reflexivity|].
  apply (exists_fdst_record_number (Some sample_kf8_half)).
  - reflexivity.
  - intros _. exists (sample_mh 8 (Some 1) (Some 2)), 2.
    split; [reflexivity|]. split; [reflexivity|lia].
  - intros mh i off [= <-] [= <-] _ [= <-]. vm_compute. discriminate.
  - intros mh [= <-] [H|H]; discriminate H.
Defined.

(** C4 as stated fails on a KF8 document whose [fdst_index] is set while
    its [fdst_section_count] is 1: [mobi_exists_fdst] is true and
    [mobi_get_fdst_record_number] returns [MOBI_NOTSET]. *)
Lemma exists_fdst_record_number_counterexample :
  let d := sample_document 0 (sample_mh 8 (Some 5) (Some 1)) [] sample_records in
  mobi_exists_fdst (Some d) = true /\
  mobi_get_fdst_record_number (Some d) = Some MOBI_NOTSET.
Proof. split; reflexivity. Qed.

(** ** Deleting a record *)

Lemma record_delete_loop_spec (curr : list MOBIPdbRecord) :
  forall i num,
    i <= num ->
    record_delete_loop curr i num
    = take (Z.to_nat (num - i)) curr ++ drop (S (Z.to_nat (num - i))) curr.
Proof.
  induction curr as [|c next IH]; intros i num Hle; simpl.
  - rewrite take_nil. reflexivity.
  - destruct (Z.eqb_spec i num) as [->|Hne].
    + rewrite Z.sub_diag. reflexivity.
    + rewrite IH by lia.
      replace (Z.to_nat (num - i)) with (S (Z.to_nat (num - (i + 1)))) by lia.
      reflexivity.
Qed.

Lemma set_rec_same (d : MOBIData) : set_rec (m_rec d) d = d.
Proof. destruct d. reflexivity. Qed.

(** C9 (amended).  On a document whose record list holds k >= 1 records,
    [mobi_delete_record_by_seqnumber] returns [MOBI_SUCCESS]; for n >= k the
    record list is unchanged, for n < k the n-th record is removed and the
    others keep their order.  On an empty record list (k = 0) the function
    returns [MOBI_INIT_FAILED] and changes nothing. *)
Theorem delete_record_by_seqnumber_spec (d : MOBIData) (num : Z) :
  0 <= num ->
  let k := Z.of_nat (length (m_rec d)) in
  let n := Z.to_nat num in
  (k = 0 -> mobi_delete_record_by_seqnumber (Some d) num = (MOBI_INIT_FAILED, Some d)) /\
  (1 <= k -> k <= num ->
     mobi_delete_record_by_seqnumber (Some d) num = (MOBI_SUCCESS, Some d)) /\
  (num < k ->
     mobi_delete_record_by_seqnumber (Some d) num
     = (MOBI_SUCCESS, Some (set_rec (take n (m_rec d) ++ drop (S n) (m_rec d)) d))).
Proof.
  intros Hnum k n. subst k n. unfold mobi_delete_record_by_seqnumber.
  destruct (m_rec d) as [|c next] eqn:Hrec.
  - split; [reflexivity|]. simpl. split; intros; lia.
  - rewrite record_delete_loop_spec, Z.sub_0_r by lia.
    split; [simpl; lia|]. split.
    + intros _ Hge. rewrite take_ge, drop_ge by lia.
      rewrite app_nil_r, <- Hrec, set_rec_same. reflexivity.
    + intros _. reflexivity.
Qed.

Lemma delete_record_by_seqnumber_spec_witness :
  mobi_delete_record_by_seqnumber (Some sample_plain) 1
  = (MOBI_SUCCESS,
     Some (set_rec [ sample_record 0 (0 :: 1 :: bytes_of_string "Book" ++ [0; 0]);
                     sample_record 4 (bytes_of_string "BOUNDARY");
                     sample_record 6 (0 :: 1 :: bytes_of_string "Book" ++ [0; 0]) ]
             sample_plain))
  /\ mobi_delete_record_by_seqnumber (Some sample_plain) 7
     = (MOBI_SUCCESS, Some sample_plain).
Proof.
  split.
  - destruct (delete_record_by_seqnumber_spec sample_plain 1 ltac:(lia))
      as (_ & _ & Hdel).
    apply Hdel. reflexivity.
  - destruct (delete_record_by_seqnumber_spec sample_plain 7 ltac:(lia))
      as (_ & Hkeep & _).
    apply Hkeep; vm_compute; discriminate.
Defined.

(** C9 as stated fails on an empty record list (k = 0): for n = 0 >= k the
    function returns [MOBI_INIT_FAILED], not [MOBI_SUCCESS]. *)
Lemma delete_record_by_seqnumber_counterexample :
  let d := sample_document 0 (sample_mh 6 None None) [] [] in
  Z.of_nat (length (m_rec d)) <= 0 /\
  mobi_delete_record_by_seqnumber (Some d) 0 = (MOBI_INIT_FAILED, Some d) /\
  fst (mobi_delete_record_by_seqnumber (Some d) 0) <> MOBI_SUCCESS.
Proof. split; [simpl; lia|]. split; [reflexivity|]. simpl. discriminate. Qed.

(** ** The full name *)

Lemma get_fullname_success (d : MOBIData) (mh : MOBIMobiHeader)
    (r0 : MOBIPdbRecord) (o l len : Z) (buf : list Z) :
  m_mh d = Some mh ->
  mh_full_name_offset mh = Some o ->
  mh_full_name_length mh = Some l ->
  mobi_get_kf8offset (Some d) ≫= mobi_get_record_by_seqnumber (Some d) = Some r0 ->
  len <> 0 ->
  o + Z.min len l <= rec_size r0 ->
  let name := take (Z.to_nat (Z.min len l)) (drop (Z.to_nat o) (rec_data r0)) in
  mobi_get_fullname (Some d) (Some buf) len
  = Some (MOBI_SUCCESS,
          Some (store_at (store_bytes (store_bytes buf [0]) name) (Z.min len l) [0])).
Proof.
  intros Hmh Ho Hl Hr0 Hlen Hfit name. unfold mobi_get_fullname.
  destruct (Z.eqb_spec len 0); [contradiction|].
  rewrite Hmh, Hr0, Ho, Hl.
  destruct (Z.leb_spec (o + Z.min len l) (rec_size r0)); [reflexivity|lia].
Qed.

(** The other way: when the bytes to copy do not lie within Record 0, the
    function reads past its data. *)
Lemma get_fullname_out_of_bounds (d : MOBIData) (mh : MOBIMobiHeader)
    (r0 : MOBIPdbRecord) (o l len : Z) (buf : list Z) :
  m_mh d = Some mh ->
  mh_full_name_offset mh = Some o ->
  mh_full_name_length mh = Some l ->
  mobi_get_kf8offset (Some d) ≫= mobi_get_record_by_seqnumber (Some d) = Some r0 ->
  len <> 0 ->
  rec_size r0 < o + Z.min len l ->
  mobi_get_fullname (Some d) (Some buf) len = None.
Proof.
  intros Hmh Ho Hl Hr0 Hlen Hout. unfold mobi_get_fullname.
  destruct (Z.eqb_spec len 0); [contradiction|].
  rewrite Hmh, Hr0, Ho, Hl.
  destruct (Z.leb_spec (o + Z.min len l) (rec_size r0)); [lia|reflexivity].
Qed.

Lemma stored_name_prefix (buf name : list Z) (l : nat) :
  length name = l ->
  take (l + 1) (store_at (store_bytes (store_bytes buf [0]) name) (Z.of_nat l) [0])
  = name ++ [0].
Proof.
  intros Hname. unfold store_at, store_bytes. rewrite Nat2Z.id.
  assert (Hdrop : forall k : list Z, drop l (name ++ k) = k).
  { intros k. rewrite <- Hname. apply drop_app_length. }
  assert (Htake : forall k : list Z, take l (name ++ k) = name).
  { intros k. rewrite <- Hname. apply take_app_length. }
  rewrite Htake, Hdrop. simpl length.
  rewrite take_app_ge by (rewrite Hname; lia).
  rewrite Hname. replace (l + 1 - l)%nat with 1%nat by lia.
  reflexivity.
Qed.

(** ** Text decompression: guards *)

Section DecompressionGuards.

Variable MOBIHuffCdic : Type.
Variable mobi_init_huffcdic : option MOBIHuffCdic.
Variable mobi_parse_huffdic : MOBIData -> MOBIHuffCdic -> MOBI_RET * MOBIHuffCdic.
Variable mobi_get_record_extrasize : MOBIPdbRecord -> Z -> Z.
Variable mobi_decompress_lz77 : list Z -> Z -> list Z.
Variable mobi_decompress_huffman : list Z -> Z -> MOBIHuffCdic -> list Z.

Local Abbreviation get_rawml :=
  (mobi_get_rawml MOBIHuffCdic mobi_init_huffcdic mobi_parse_huffdic
     mobi_get_record_extrasize mobi_decompress_lz77 mobi_decompress_huffman).
Local Abbreviation dump_rawml :=
  (mobi_dump_rawml MOBIHuffCdic mobi_init_huffcdic mobi_parse_huffdic
     mobi_get_record_extrasize mobi_decompress_lz77 mobi_decompress_huffman).
Local Abbreviation decompress_content :=
  (mobi_decompress_content MOBIHuffCdic mobi_init_huffcdic mobi_parse_huffdic
     mobi_get_record_extrasize mobi_decompress_lz77 mobi_decompress_huffman).

Lemma is_encrypted_intro (d : MOBIData) (ph : MOBIPdbHeader)
    (rh : MOBIRecord0Header) :
  m_ph d = Some ph -> ph_type ph = "BOOK"%string -> ph_creator ph = "MOBI"%string ->
  m_rh d = Some rh ->
  rh_encryption_type rh = 1 \/ rh_encryption_type rh = 2 ->
  mobi_is_encrypted (Some d) = true.
Proof.
  intros Hph Htype Hcreator Hrh Henc.
  assert (Hmobi : mobi_is_mobipocket (Some d) = true).
  { simpl. rewrite Hph, Htype, Hcreator. reflexivity. }
  unfold mobi_is_encrypted. rewrite Hmobi, Hrh.
  unfold RECORD0_OLD_ENCRYPTION, RECORD0_MOBI_ENCRYPTION.
  destruct Henc as [-> | ->]; reflexivity.
Qed.

Lemma decompress_content_encrypted (m : option MOBIData)
    (text file : option (list Z)) (len : option Z) :
  mobi_is_encrypted m = true ->
  decompress_content m text file len
  = Some {| cr_ret := MOBI_FILE_ENCRYPTED; cr_text := text; cr_file := file;
            cr_len := len; cr_decompressed := O |}.
Proof.
  intros Henc. unfold mobi_decompress_content.
  rewrite Henc. reflexivity.
Qed.

(** C8.  For a document with a loaded Record-0 header and a buffer length
    [*len] smaller than the [text_length] of that header, [mobi_get_rawml]
    returns [MOBI_PARAM_ERR]; no record is decompressed and the text
    buffer and [*len] are left as they were. *)
Theorem get_rawml_small_buffer (d : MOBIData) (rh : MOBIRecord0Header)
    (text : list Z) (len : Z) :
  m_rh d = Some rh ->
  len < rh_text_length rh ->
  get_rawml (Some d) text len
  = Some {| cr_ret := MOBI_PARAM_ERR; cr_text := Some text; cr_file := None;
            cr_len := Some len; cr_decompressed := O |}.
Proof.
  intros Hrh Hlen. unfold mobi_get_rawml. simpl. rewrite Hrh. simpl.
  destruct (Z.gtb_spec (rh_text_length rh) len); [reflexivity|lia].
Qed.

(** C2 (amended).  For a Mobipocket document (PDB type BOOK, creator MOBI)
    whose Record-0 [encryption_type] is 1 or 2: [mobi_get_rawml] with a
    buffer length [*len] of at least [text_length] and [mobi_dump_rawml]
    with a file that is not [NULL] return [MOBI_FILE_ENCRYPTED] without
    decompressing a record; and [mobi_get_fullname], called with a buffer
    and a length [len] > 0 on such a document that has a MOBI header with
    the full-name offset and length, whose Record 0 is in the record list
    and holds the bytes that are copied (the first min ([len], length) ones
    at the full-name offset), returns [MOBI_SUCCESS], the buffer holding
    the full name and a NUL when the name is shorter than [len]. *)
Theorem encrypted_document_queries (d : MOBIData) (ph : MOBIPdbHeader)
    (rh : MOBIRecord0Header) :
  m_ph d = Some ph -> ph_type ph = "BOOK"%string -> ph_creator ph = "MOBI"%string ->
  m_rh d = Some rh ->
  rh_encryption_type rh = 1 \/ rh_encryption_type rh = 2 ->
  (forall text len,
      rh_text_length rh <= len ->
      get_rawml (Some d) text len
      = Some {| cr_ret := MOBI_FILE_ENCRYPTED;
                cr_text := Some (store_bytes text [0]); cr_file := None;
                cr_len := Some len; cr_decompressed := O |}) /\
  (forall file,
      dump_rawml (Some d) (Some file)
      = Some {| cr_ret := MOBI_FILE_ENCRYPTED; cr_text := None;
                cr_file := Some file; cr_len := None; cr_decompressed := O |}) /\
  (forall mh r0 o l buf len,
      m_mh d = Some mh ->
      mh_full_name_offset mh = Some o ->
      mh_full_name_length mh = Some l ->
      mobi_get_kf8offset (Some d) ≫= mobi_get_record_by_seqnumber (Some d) = Some r0 ->
      0 < len -> 0 <= o -> 0 <= l ->
      o + Z.min len l <= rec_size r0 ->
      exists buf',
        mobi_get_fullname (Some d) (Some buf) len = Some (MOBI_SUCCESS, Some buf') /\
        (l < len ->
         take (Z.to_nat l + 1) buf'
         = take (Z.to_nat l) (drop (Z.to_nat o) (rec_data r0)) ++ [0])).
Proof.
  intros Hph Htype Hcreator Hrh Henc.
  pose proof (is_encrypted_intro d ph rh Hph Htype Hcreator Hrh Henc) as Hcrypt.
  split; [|split].
  - intros text len Hlen. unfold mobi_get_rawml. simpl.
    rewrite Hrh. simpl.
    destruct (Z.gtb_spec (rh_text_length rh) len); [lia|].
    apply decompress_content_encrypted, Hcrypt.
  - intros file. unfold mobi_dump_rawml.
    apply decompress_content_encrypted, Hcrypt.
  - intros mh r0 o l buf len Hmh Ho Hl Hr0 Hlen Hopos Hlpos Hfit.
    eexists. split.
    + apply (get_fullname_success d mh r0 o l len buf Hmh Ho Hl Hr0); lia.
    + intros Hlrange. rewrite Z.min_r by lia. rewrite Z.min_r in Hfit by lia.
      remember (Z.to_nat l) as n eqn:Hn.
      assert (Hl' : l = Z.of_nat n) by lia.
      rewrite Hl'. apply stored_name_prefix.
      rewrite length_take, length_drop. unfold rec_size in Hfit. lia.
Qed.

End DecompressionGuards.

Example get_rawml_sample_plain :
  sample_get_rawml (Some sample_plain) (repeat 0xAA 8) 8
  = Some {| cr_ret := MOBI_SUCCESS;
            cr_text := Some (bytes_of_string "Hello" ++ [0; 0xAA; 0xAA]);
            cr_file := None; cr_len := Some 5; cr_decompressed := 1 |}.
Proof. reflexivity. Qed.

Lemma get_rawml_small_buffer_witness :
  m_rh sample_plain = Some (sample_rh 0) /\
  3 < rh_text_length (sample_rh 0) /\
  sample_get_rawml (Some sample_plain) (repeat 0xAA 8) 3
  = Some {| cr_ret := MOBI_PARAM_ERR; cr_text := Some (repeat 0xAA 8);
            cr_file := None; cr_len := Some 3; cr_decompressed := O |}.
Proof.
  split; [reflexivity|]. split; [reflexivity|].
  apply (get_rawml_small_buffer unit (Some tt) (fun _ h => (MOBI_SUCCESS, h))
           (fun _ _ => 0) (fun data _ => data) (fun data _ _ => data)
           sample_plain (sample_rh 0) (repeat 0xAA 8) 3).
  - reflexivity.
  - reflexivity.
Defined.

Lemma encrypted_document_queries_witness :
  (ph_type <$> m_ph sample_encrypted) = Some "BOOK"%string /\
  cr_ret <$> sample_get_rawml (Some sample_encrypted) (repeat 0xAA 8) 8
  = Some MOBI_FILE_ENCRYPTED /\
  cr_ret <$> sample_dump_rawml (Some sample_encrypted) (Some [])
  = Some MOBI_FILE_ENCRYPTED /\
  exists buf',
    mobi_get_fullname (Some sample_encrypted) (Some (repeat 0xAA 8)) 8
    = Some (MOBI_SUCCESS, Some buf')
    /\ take 5 buf' = bytes_of_string "Book" ++ [0].
Proof.
  destruct (encrypted_document_queries unit (Some tt) (fun _ h => (MOBI_SUCCESS, h))
              (fun _ _ => 0) (fun data _ => data) (fun data _ _ => data)
              sample_encrypted sample_ph (sample_rh 2))
    as (Hget & Hdump & Hname).
  - reflexivity.
  - reflexivity.
  - reflexivity.
  - reflexivity.
  - right. reflexivity.
  - split; [reflexivity|]. split.
    { unfold sample_get_rawml. rewrite Hget; [reflexivity|]. vm_compute. discriminate. }
    split.
    { unfold sample_dump_rawml. rewrite Hdump. reflexivity. }
    destruct (Hname (sample_mh 6 None None)
                (sample_record 0 (0 :: 1 :: bytes_of_string "Book" ++ [0; 0]))
                2 4 (repeat 0xAA 8) 8)
      as (buf' & Hret & Hbuf);
      try reflexivity; try (vm_compute; discriminate).
    exists buf'. split; [exact Hret|].
    apply Hbuf. reflexivity.
Defined.

(** C2 as stated fails when the buffer is shorter than the declared text
    length: on the encrypted sample with [*len] = 3 < 5, [mobi_get_rawml]
    returns [MOBI_PARAM_ERR], not [MOBI_FILE_ENCRYPTED]. *)
Lemma encrypted_document_counterexample :
  (ph_type <$> m_ph sample_encrypted) = Some "BOOK"%string /\
  (ph_creator <$> m_ph sample_encrypted) = Some "MOBI"%string /\
  (rh_encryption_type <$> m_rh sample_encrypted) = Some 2 /\
  cr_ret <$> sample_get_rawml (Some sample_encrypted) (repeat 0xAA 8) 3
  = Some MOBI_PARAM_ERR /\
  cr_ret <$> sample_get_rawml (Some sample_encrypted) (repeat 0xAA 8) 3
  <> Some MOBI_FILE_ENCRYPTED.
Proof.
  split; [reflexivity|]. split; [reflexivity|]. split; [reflexivity|].
  split; [reflexivity|]. vm_compute. discriminate.
Qed.

(** ** The halves of a hybrid file *)

Lemma with_headers_of_back (d dn : MOBIData) :
  with_headers_of (with_headers_of d dn) (with_headers_of dn d) = d.
Proof. destruct d, dn. reflexivity. Qed.

(** The store after a successful [mobi_swap_mobidata]. *)
Lemma mobi_swap_mobidata_store (h : gmap nat MOBIData) (m n : nat) (d dn : MOBIData) :
  h !! m = Some d -> m_next d = Some n -> h !! n = Some dn ->
  mobi_swap_mobidata true h m
  = Some (MOBI_SUCCESS,
          <[n := with_headers_of d dn]> (<[m := with_headers_of dn d]> h)).
Proof.
  intros Hm Hnext Hn. unfold mobi_swap_mobidata, with_headers_of. simpl.
  destruct (decide (n = m)) as [->|Hne].
  - assert (dn = d) as -> by congruence.
    repeat (rewrite ?Hm, ?lookup_insert_eq; simpl; rewrite ?Hnext; simpl).
    do 2 f_equal. rewrite !insert_insert_eq. reflexivity.
  - repeat (rewrite ?Hm, ?Hn, ?lookup_insert_eq; simpl; rewrite ?Hnext; simpl;
            rewrite ?lookup_insert_ne by congruence).
    do 2 f_equal.
    apply map_eq. intros i.
    destruct (decide (i = n)) as [->|Hin]; [|destruct (decide (i = m)) as [->|Him]];
      repeat (first [rewrite lookup_insert_eq | rewrite lookup_insert_ne by congruence]);
      reflexivity.
Qed.

(** C7.  Calling [mobi_parse_kf8] twice leaves the store of structures as
    one call does, with the same status.  On a hybrid document, whose
    structure [m] points at the other half [n], a successful
    [mobi_swap_mobidata] exchanges the Record-0 header, MOBI header and EXTH
    list pointers of the two halves, and a second one gives the initial
    store back. *)
Theorem parse_kf8_idempotent_swap_involutive :
  (forall (h : gmap nat MOBIData) (m : option nat),
      mobi_parse_kf8 h m ≫= (fun r => mobi_parse_kf8 r.2 m) = mobi_parse_kf8 h m) /\
  (forall (h : gmap nat MOBIData) (m n : nat) (d dn : MOBIData),
      h !! m = Some d -> m_next d = Some n -> h !! n = Some dn ->
      exists h1,
        mobi_swap_mobidata true h m = Some (MOBI_SUCCESS, h1) /\
        (n <> m ->
         h1 !! m = Some (with_headers_of dn d) /\
         h1 !! n = Some (with_headers_of d dn)) /\
        mobi_swap_mobidata true h1 m = Some (MOBI_SUCCESS, h)).
Proof.
  split.
  - intros h [a|]; simpl; [|reflexivity].
    destruct (h !! a) as [d|] eqn:Ha; simpl; [|reflexivity].
    rewrite lookup_insert_eq. simpl. rewrite insert_insert_eq. reflexivity.
  - intros h m n d dn Hm Hnext Hn.
    exists (<[n := with_headers_of d dn]> (<[m := with_headers_of dn d]> h)).
    split; [apply mobi_swap_mobidata_store; assumption|]. split.
    { intros Hne. split.
      - rewrite lookup_insert_ne by congruence. apply lookup_insert_eq.
      - apply lookup_insert_eq. }
    rewrite (mobi_swap_mobidata_store _ m n (with_headers_of dn d) (with_headers_of d dn)).
    + rewrite !with_headers_of_back. do 2 f_equal.
      apply map_eq. intros i.
      destruct (decide (i = n)) as [->|Hin]; [|destruct (decide (i = m)) as [->|Him]];
        repeat (first [rewrite lookup_insert_eq | rewrite lookup_insert_ne by congruence]);
        congruence.
    + destruct (decide (n = m)) as [->|Hne].
      * assert (dn = d) as -> by congruence. apply lookup_insert_eq.
      * rewrite lookup_insert_ne by congruence. apply lookup_insert_eq.
    + exact Hnext.
    + apply lookup_insert_eq.
Qed.

Lemma parse_kf8_idempotent_swap_involutive_witness :
  (mobi_parse_kf8 sample_store (Some 1%nat)
     ≫= (fun r => mobi_parse_kf8 r.2 (Some 1%nat))
   = mobi_parse_kf8 sample_store (Some 1%nat)) /\
  exists h1,
    mobi_swap_mobidata true sample_store 1 = Some (MOBI_SUCCESS, h1) /\
    (m_mh <$> h1 !! 1%nat) = Some (Some (sample_mh 6 None None)) /\
    (m_mh <$> h1 !! 2%nat) = Some (Some (sample_mh 8 (Some 1) (Some 2))) /\
    mobi_swap_mobidata true h1 1 = Some (MOBI_SUCCESS, sample_store).
Proof.
  destruct parse_kf8_idempotent_swap_involutive as [Hkf8 Hswap].
  split; [apply Hkf8|].
  destruct (Hswap sample_store 1%nat 2%nat sample_kf8_half sample_kf7_half)
    as (h1 & Hfirst & Hview & Hsecond); try reflexivity.
  exists h1. split; [exact Hfirst|].
  destruct Hview as [H1 H2]; [lia|].
  rewrite H1, H2. repeat split. exact Hsecond.
Defined.

(** ** Locale numbers and strings *)

Lemma Zrange_elem_inv (lo : Z) (n : nat) (b : Z) :
  In b (Zrange lo n) -> lo <= b < lo + Z.of_nat n.
Proof.
  unfold Zrange. rewrite in_map_iff. intros (k & <- & Hk).
  apply in_seq in Hk. lia.
Qed.

Lemma locale_table_check_all : locale_table_check = true.
Proof. vm_compute. reflexivity. Qed.

Lemma locale_entry_check_range (lang_code region_code : Z) :
  0 <= lang_code < MOBI_LANG_MAX -> 0 <= region_code < MOBI_REGION_MAX ->
  locale_entry_check lang_code region_code = true.
Proof.
  intros Hl Hr. pose proof locale_table_check_all as Hall.
  unfold locale_table_check in Hall.
  pose proof (Zrange_forallb _ 0 _ Hall lang_code ltac:(lia)) as Hrow.
  apply (Zrange_forallb _ 0 _ Hrow region_code). lia.
Qed.

(** A number whose second byte is a multiple of 4 is the encoding of its
    language and region codes. *)
Lemma locale_encoding_of_number (n : Z) :
  0 <= n -> Z.shiftr n 8 mod 4 = 0 ->
  locale_encoding (Z.land n 0xff) (Z.shiftr n 8 / 4) = n.
Proof.
  intros Hn Hcanon. unfold locale_encoding.
  rewrite Z.shiftr_div_pow2 in * by lia. change (2 ^ 8) with 256 in *.
  assert (Hq : n / 256 / 4 * 4 = n / 256).
  { pose proof (Z.div_mod (n / 256) 4 ltac:(lia)). lia. }
  rewrite Hq. change 0xff with (Z.ones 8). rewrite Z.land_ones by lia.
  rewrite Z.shiftl_mul_pow2 by lia. change (2 ^ 8) with 256.
  pose proof (Z.mod_pos_bound n 256 ltac:(lia)) as Hm.
  change 256 with (2 ^ 8) at 2. rewrite lor_disjoint_add by (change (2 ^ 8) with 256; lia).
  change (2 ^ 8) with 256.
  pose proof (Z.div_mod n 256 ltac:(lia)). lia.
Qed.

(** C5 (amended).  For every locale number n in the form
    (region * 4) << 8 | language whose table entry exists
    ([mobi_get_locale_string] n is not [NULL]), is the first entry with its
    string in the row of its language, and whose language is not 97,
    [mobi_get_locale_number] of [mobi_get_locale_string] n is n. *)
Theorem locale_number_of_locale_string (n : Z) (s : string) :
  0 <= n ->
  mobi_get_locale_string n = Some s ->
  Z.shiftr n 8 mod 4 = 0 ->
  Z.land n 0xff <> 97 ->
  (forall r, 0 <= r < Z.shiftr n 8 / 4 ->
             mobi_locale_entry (Z.land n 0xff) r <> Some s) ->
  mobi_get_locale_number (Some s) = Some n.
Proof.
  intros Hn Hs Hcanon Hlang Hfirst.
  pose proof (locale_encoding_of_number n Hn Hcanon) as Henc.
  unfold mobi_get_locale_string in Hs.
  set (lang_code := Z.land n 0xff) in *.
  set (region_code := Z.shiftr n 8 / 4) in *.
  assert (Hl0 : 0 <= lang_code).
  { subst lang_code. apply Z.land_nonneg. lia. }
  assert (Hr0 : 0 <= region_code).
  { subst region_code. apply Z.div_pos; [apply Z.shiftr_nonneg; lia|lia]. }
  destruct (Z.geb_spec lang_code MOBI_LANG_MAX) as [|Hl]; [discriminate|].
  destruct (Z.geb_spec region_code MOBI_REGION_MAX) as [|Hr]; [discriminate|].
  simpl in Hs.
  pose proof (locale_entry_check_range lang_code region_code ltac:(lia) ltac:(lia))
    as Hcheck.
  unfold locale_entry_check in Hcheck.
  destruct (mobi_locale_entry lang_code region_code) as [s'|]; [|discriminate].
  assert (s' = s) as ->.
  { destruct (strlen s' =? 0); [discriminate|]. congruence. }
  destruct (Z.eqb_spec lang_code 97) as [|_]; [contradiction|].
  assert (Hrow : locale_first_in_row lang_code region_code s = true).
  { unfold locale_first_in_row. apply forallb_forall. intros r Hin.
    apply Zrange_elem_inv in Hin.
    specialize (Hfirst r ltac:(lia)). unfold locale_entry_is.
    destruct (mobi_locale_entry lang_code r) as [s'|]; [|reflexivity].
    destruct (String.eqb_spec s' s) as [->|]; [|reflexivity].
    exfalso. apply Hfirst. reflexivity. }
  rewrite Hrow in Hcheck. cbn [andb negb] in Hcheck.
  destruct (mobi_get_locale_number (Some s)) as [n'|]; [|discriminate].
  apply Z.eqb_eq in Hcheck. congruence.
Qed.

Lemma locale_number_of_locale_string_witness :
  mobi_get_locale_string 0x0809 = Some "en-gb"%string /\
  mobi_get_locale_number (Some "en-gb"%string) = Some 0x0809.
Proof.
  split; [reflexivity|].
  apply (locale_number_of_locale_string 0x0809 "en-gb"); try reflexivity; try lia.
  - vm_compute. discriminate.
  - intros r Hr. change (Z.shiftr 0x0809 8 / 4) with 2 in Hr.
    assert (Hcases : r = 0 \/ r = 1) by lia.
    destruct Hcases as [-> | ->]; vm_compute; discriminate.
Defined.

(** C5 as stated fails on 0x0801, the number of region 2 of the Arabic row:
    its entry is the string ar, as is the entry of region 0, and the number
    found from that string is 1. *)
Lemma locale_number_of_locale_string_counterexample :
  mobi_get_locale_string 0x0801 = Some "ar"%string /\
  mobi_get_locale_number (Some "ar"%string) = Some 1 /\
  mobi_get_locale_string 0x0801 ≫= (fun s => mobi_get_locale_number (Some s))
  <> Some 0x0801.
Proof. split; [reflexivity|]. split; [reflexivity|]. vm_compute. discriminate. Qed.

(* ===================================================================== *)
(** * Part III. Further properties of [util.c]                            *)
(* ===================================================================== *)

(** ** Metadata tables *)

(** X1.  [mobi_get_filemeta_by_type] always ends inside the array.  For the
    fourteen types of the array and for [T_UNKNOWN] the entry returned has
    the type asked for; for [T_FONT], [T_AUDIO], [T_VIDEO] and [T_BREAK],
    which have no entry, it is the terminating entry of type [T_UNKNOWN]
    with the extension dat. *)
Theorem filemeta_by_type_total (type : MOBIFiletype) :
  exists e,
    mobi_get_filemeta_by_type type = Some e /\
    In e mobi_file_meta /\
    (if filetype_has_entry type
     then fm_type e = type
     else e = {| fm_type := T_UNKNOWN; fm_extension := "dat";
                 fm_mime_type := "application/unknown" |}).
Proof.
  destruct type; (eexists; split; [reflexivity|]; split;
                  [simpl; tauto|reflexivity]).
Qed.

Lemma exthtagmeta_loop_cases (entries : list MOBIExthMeta) (tag : Z) :
  match exthtagmeta_loop entries tag with
  | Some e =>
      (In e entries /\ meta_tag e = tag /\ 0 < tag)
      \/ (e = exth_meta_zero /\
          exists before rest z,
            entries = before ++ z :: rest /\ meta_tag z <= 0 /\
            Forall (fun x => meta_tag x <> tag) before)
  | None => Forall (fun x => 0 < meta_tag x /\ meta_tag x <> tag) entries
  end.
Proof.
  induction entries as [|e rest IH]; simpl; [constructor|].
  destruct (Z.gtb_spec (meta_tag e) 0) as [Hpos|Hnpos].
  - destruct (Z.eqb_spec (meta_tag e) tag) as [Heq|Hne].
    + left. split; [left; reflexivity|]. split; [exact Heq|lia].
    + destruct (exthtagmeta_loop rest tag) as [r|].
      * destruct IH as [(Hin & Htag & Hp)|(Hz & before & rest' & z & -> & Hz0 & Hall)].
        -- left. split; [right; exact Hin|]. split; assumption.
        -- right. split; [exact Hz|].
           exists (e :: before), rest', z. split; [reflexivity|].
           split; [exact Hz0|]. constructor; assumption.
      * constructor; [lia|exact IH].
  - right. split; [reflexivity|].
    exists [], rest, e. split; [reflexivity|]. split; [lia|constructor].
Qed.

(** X2.  [mobi_get_exthtagmeta_by_tag] always ends inside the array and
    never returns the entry of another tag: the result is either an entry of
    [mobi_exth_tags] with the tag asked for, or the zeroed structure, the
    latter exactly when no entry of the array has the tag.  Every tag of the
    enum [MOBIExthTag] has an entry. *)
Theorem exthtagmeta_by_tag_spec (tag : Z) :
  exists e,
    mobi_get_exthtagmeta_by_tag tag = Some e /\
    ((In e mobi_exth_tags /\ meta_tag e = tag /\ 0 < tag)
     \/ (e = exth_meta_zero /\
         Forall (fun x => 0 < meta_tag x -> meta_tag x <> tag) mobi_exth_tags)) /\
    (In tag MOBIExthTag_values -> meta_tag e = tag /\ meta_name e <> None).
Proof.
  unfold mobi_get_exthtagmeta_by_tag.
  pose proof (exthtagmeta_loop_cases mobi_exth_tags tag) as Hcases.
  destruct (exthtagmeta_loop mobi_exth_tags tag) as [e|] eqn:Hloop.
  - exists e. split; [reflexivity|].
    assert (Hknown : In tag MOBIExthTag_values ->
                     meta_tag e = tag /\ meta_name e <> None).
    { intros Hin.
      assert (Hall : forallb (fun t =>
                match exthtagmeta_loop mobi_exth_tags t with
                | Some r => (meta_tag r =? t)
                            && match meta_name r with Some _ => true | None => false end
                | None => false
                end) MOBIExthTag_values = true) by (vm_compute; reflexivity).
      rewrite forallb_forall in Hall. specialize (Hall tag Hin).
      rewrite Hloop in Hall. apply andb_prop in Hall as [Ht Hn].
      apply Z.eqb_eq in Ht. split; [exact Ht|].
      destruct (meta_name e); [discriminate|discriminate]. }
    split; [|exact Hknown].
    destruct Hcases as [Hfound|(Hz & before & rest & z & Heq & Hz0 & Hall)].
    + left. exact Hfound.
    + right. split; [exact Hz|].
      assert (Hlast : forallb (fun x => 0 <? meta_tag x)
                        (removelast mobi_exth_tags) = true) by (vm_compute; reflexivity).
      assert (Hsplit : mobi_exth_tags = removelast mobi_exth_tags ++ [exth_meta_zero])
        by reflexivity.
      assert (Hbefore : before = removelast mobi_exth_tags /\ rest = []).
      { rewrite forallb_forall in Hlast.
        clear Hloop Hknown.
        rewrite Hsplit in Heq.
        remember (removelast mobi_exth_tags) as positive eqn:Hp. clear Hp Hsplit.
        revert before Heq Hall.
        induction positive as [|p ps IHp]; intros before Heq Hall.
        - destruct before as [|b before]; simpl in Heq.
          + injection Heq as _ <-. split; reflexivity.
          + injection Heq as _ Heq. destruct before; discriminate Heq.
        - destruct before as [|b before]; simpl in Heq.
          + injection Heq as <- _.
            assert (Hpos : (0 <? meta_tag p) = true) by (apply Hlast; left; reflexivity).
            apply Z.ltb_lt in Hpos. lia.
          + injection Heq as <- Heq.
            apply Forall_cons in Hall as [_ Hall].
            destruct (IHp (fun x Hx => Hlast x (or_intror Hx)) before Heq Hall)
              as [-> ->].
            split; reflexivity. }
      destruct Hbefore as [-> _].
      rewrite Hsplit. apply Forall_app. split.
      * eapply Forall_impl; [exact Hall|]. simpl. intros x Hx _. exact Hx.
      * apply Forall_cons. split; [simpl; lia|constructor].
  - exfalso.
    assert (Hend : In exth_meta_zero mobi_exth_tags) by (simpl; tauto).
    rewrite Forall_forall in Hcases.
    apply list_elem_of_In in Hend. specialize (Hcases _ Hend). simpl in Hcases. lia.
Qed.

(** ** Lookups in the lists *)

Lemma record_uid_loop_cases (curr : list MOBIPdbRecord) (uid : Z) :
  match record_uid_loop curr uid with
  | Some r =>
      exists before after,
        curr = before ++ r :: after /\ rec_uid r = uid /\
        Forall (fun x => rec_uid x <> uid) before
  | None => Forall (fun x => rec_uid x <> uid) curr
  end.
Proof.
  induction curr as [|c next IH]; simpl; [constructor|].
  destruct (Z.eqb_spec (rec_uid c) uid) as [Heq|Hne].
  - exists [], next. split; [reflexivity|]. split; [exact Heq|constructor].
  - destruct (record_uid_loop next uid) as [r|].
    + destruct IH as (before & after & -> & Hr & Hall).
      exists (c :: before), after. split; [reflexivity|].
      split; [exact Hr|]. constructor; assumption.
    + constructor; assumption.
Qed.

(** X3.  [mobi_get_record_by_uid] returns the first record of the list with
    the unique id asked for, and [NULL] exactly when the document is [NULL]
    or no record has that id. *)
Theorem record_by_uid_first (m : option MOBIData) (uid : Z) :
  (forall r, mobi_get_record_by_uid m uid = Some r ->
     exists d before after,
       m = Some d /\ m_rec d = before ++ r :: after /\ rec_uid r = uid /\
       Forall (fun x => rec_uid x <> uid) before) /\
  (mobi_get_record_by_uid m uid = None <->
     forall d, m = Some d -> Forall (fun x => rec_uid x <> uid) (m_rec d)).
Proof.
  destruct m as [d|]; simpl.
  - pose proof (record_uid_loop_cases (m_rec d) uid) as Hcases.
    destruct (record_uid_loop (m_rec d) uid) as [r|].
    + split.
      * intros r' [= <-]. destruct Hcases as (before & after & Heq & Hr & Hall).
        exists d, before, after. auto.
      * split; [discriminate|]. intros Hall. exfalso.
        destruct Hcases as (before & after & Heq & Hr & _).
        specialize (Hall d eq_refl). rewrite Heq in Hall.
        apply Forall_app in Hall as [_ Hall].
        apply Forall_cons in Hall as [Hne _]. contradiction.
    + split; [discriminate|]. split; [|reflexivity].
      intros _ d' [= <-]. exact Hcases.
  - split; [discriminate|]. split; [|reflexivity]. intros _ d Hd. discriminate.
Qed.

Lemma part_uid_loop_cases (part : list MOBIPart) (uid : Z) :
  match part_uid_loop part uid with
  | Some p =>
      exists before after,
        part = before ++ p :: after /\ part_uid p = uid /\
        Forall (fun x => part_uid x <> uid) before
  | None => Forall (fun x => part_uid x <> uid) part
  end.
Proof.
  induction part as [|c next IH]; simpl; [constructor|].
  destruct (Z.eqb_spec (part_uid c) uid) as [Heq|Hne].
  - exists [], next. split; [reflexivity|]. split; [exact Heq|constructor].
  - destruct (part_uid_loop next uid) as [r|].
    + destruct IH as (before & after & -> & Hr & Hall).
      exists (c :: before), after. split; [reflexivity|].
      split; [exact Hr|]. constructor; assumption.
    + constructor; assumption.
Qed.

(** X4.  [mobi_get_resourcetype_by_uid] agrees with
    [mobi_get_resource_by_uid]: it is the type of the resource that lookup
    finds, the first of the list with the unique id, and [T_UNKNOWN] when
    the lookup finds none. *)
Theorem resourcetype_by_uid_of_resource (rawml : option MOBIRawml) (uid : Z) :
  mobi_get_resourcetype_by_uid rawml uid
  = match mobi_get_resource_by_uid rawml uid with
    | Some p => part_type p
    | None => T_UNKNOWN
    end
  /\ (forall p, mobi_get_resource_by_uid rawml uid = Some p ->
        exists r before after,
          rawml = Some r /\ rawml_resources r = before ++ p :: after /\
          part_uid p = uid /\ Forall (fun x => part_uid x <> uid) before).
Proof.
  destruct rawml as [r|]; simpl.
  - split.
    + induction (rawml_resources r) as [|c next IH]; simpl; [reflexivity|].
      destruct (part_uid c =? uid); [reflexivity|exact IH].
    + intros p Hp. pose proof (part_uid_loop_cases (rawml_resources r) uid) as Hc.
      rewrite Hp in Hc. destruct Hc as (before & after & Heq & Hu & Hall).
      exists r, before, after. auto.
  - split; [reflexivity|discriminate].
Qed.

(** X5.  After a successful [mobi_delete_record_by_seqnumber] of the record
    number n of a list of k > n records, [mobi_get_record_by_seqnumber]
    finds under a number j < n the record it found before, and under a
    number j >= n the record that had the number j + 1. *)
Theorem record_by_seqnumber_after_delete (d : MOBIData) (n j : Z) :
  0 <= n < Z.of_nat (length (m_rec d)) ->
  0 <= j ->
  exists d',
    mobi_delete_record_by_seqnumber (Some d) n = (MOBI_SUCCESS, Some d') /\
    Z.of_nat (length (m_rec d')) = Z.of_nat (length (m_rec d)) - 1 /\
    mobi_get_record_by_seqnumber (Some d') j
    = mobi_get_record_by_seqnumber (Some d) (if j <? n then j else j + 1).
Proof.
  intros Hn Hj. unfold mobi_delete_record_by_seqnumber.
  destruct (m_rec d) as [|c next] eqn:Hrec; [simpl in Hn; lia|].
  eexists. split; [reflexivity|].
  rewrite record_delete_loop_spec, Z.sub_0_r by lia.
  rewrite !record_by_seqnumber_lookup by (destruct (j <? n); lia).
  cbn [m_rec set_rec]. rewrite Hrec.
  set (l := c :: next) in *. clearbody l.
  assert (Hlen : (Z.to_nat n < length l)%nat) by lia.
  split.
  - rewrite length_app, length_take, length_drop. lia.
  - destruct (Z.ltb_spec j n) as [Hlt|Hge].
    + rewrite lookup_app_l by (rewrite length_take; lia).
      apply lookup_take_lt. lia.
    + rewrite lookup_app_r by (rewrite length_take; lia).
      rewrite length_take, lookup_drop. f_equal. lia.
Qed.

Lemma record_by_seqnumber_after_delete_witness :
  exists d',
    mobi_delete_record_by_seqnumber (Some sample_plain) 1 = (MOBI_SUCCESS, Some d') /\
    mobi_get_record_by_seqnumber (Some d') 1
    = Some (sample_record 4 (bytes_of_string "BOUNDARY")).
Proof.
  destruct (record_by_seqnumber_after_delete sample_plain 1 1)
    as (d' & Hdel & _ & Hget).
  - split; [lia|reflexivity].
  - lia.
  - exists d'. split; [exact Hdel|]. rewrite Hget. reflexivity.
Defined.

(** ** Bit counts, powers and base 32 *)

(** X6.  For every byte, [mobi_bitcount] is the number of bits set in it,
    and the counts of a byte and of its complement add up to 8. *)
Theorem mobi_bitcount_popcount (b : Z) :
  0 <= b < 256 ->
  mobi_bitcount b = popcount8 b /\
  mobi_bitcount (Z.lxor b 0xff) = 8 - mobi_bitcount b.
Proof.
  intros Hb.
  pose proof (Zrange_forallb
                (fun x => (mobi_bitcount x =? popcount8 x)
                          && (mobi_bitcount (Z.lxor x 0xff) =? 8 - mobi_bitcount x))
                0 256 ltac:(vm_compute; reflexivity) b ltac:(lia)) as Hcheck.
  apply andb_prop in Hcheck as [H1 H2].
  apply Z.eqb_eq in H1, H2. split; assumption.
Qed.

Lemma mobi_bitcount_popcount_witness :
  mobi_bitcount 0xA5 = 4 /\ mobi_bitcount (Z.lxor 0xA5 0xff) = 4.
Proof.
  destruct (mobi_bitcount_popcount 0xA5 ltac:(lia)) as [H1 H2].
  split; [rewrite H1; reflexivity|rewrite H2, H1; reflexivity].
Defined.

Lemma pow_ge_1 (base e : Z) : 1 <= base -> 0 <= e -> 1 <= base ^ e.
Proof.
  intros Hb He. assert (0 < base ^ e) by (apply Z.pow_pos_nonneg; lia). lia.
Qed.

Lemma pow_split_halves (base exp : Z) :
  0 <= exp -> base ^ exp = (base * base) ^ (exp / 2) * base ^ (exp mod 2).
Proof.
  intros Hexp.
  pose proof (Z.div_mod exp 2 ltac:(lia)) as Hdm.
  pose proof (Z.mod_pos_bound exp 2 ltac:(lia)) as Hm.
  assert (Hq : 0 <= exp / 2) by (apply Z.div_pos; lia).
  rewrite Hdm at 1. rewrite Z.pow_add_r by lia.
  rewrite Z.pow_mul_r by lia. rewrite Z.pow_2_r. reflexivity.
Qed.

(** The loop of [mobi_pow] with enough rounds for its exponent, as long as
    the power fits 32 bits. *)
Lemma mobi_pow_loop_spec (fuel : nat) :
  forall base exp result,
    0 <= exp < 2 ^ Z.of_nat fuel ->
    0 <= base < 2 ^ 32 ->
    0 <= result ->
    result * base ^ exp < 2 ^ 32 ->
    mobi_pow_loop fuel base exp result = result * base ^ exp.
Proof.
  induction fuel as [|fuel IH]; intros base exp result Hexp Hbase Hres Hfit.
  - simpl in *. assert (exp = 0) as -> by lia. rewrite Z.pow_0_r. lia.
  - cbn [mobi_pow_loop].
    destruct (Z.eqb_spec exp 0) as [->|Hnz]; [rewrite Z.pow_0_r; lia|].
    rewrite Z.shiftr_div_pow2 by lia. change (2 ^ 1) with 2.
    change (Z.land exp 1) with (Z.land exp (Z.ones 1)).
    rewrite Z.land_ones by lia. change (2 ^ 1) with 2.
    pose proof (Z.div_mod exp 2 ltac:(lia)) as Hdm.
    pose proof (Z.mod_pos_bound exp 2 ltac:(lia)) as Hm.
    assert (Hq : 0 <= exp / 2) by (apply Z.div_pos; lia).
    assert (Hqf : exp / 2 < 2 ^ Z.of_nat fuel).
    { apply Z.div_lt_upper_bound; [lia|].
      rewrite Nat2Z.inj_succ, Z.pow_succ_r in Hexp by lia. lia. }
    pose proof (pow_split_halves base exp ltac:(lia)) as Hsplit.
    assert (Hwb : 0 <= wrap32 (base * base) < 2 ^ 32).
    { unfold wrap32. apply Z.mod_pos_bound. lia. }
    set (q := exp / 2) in *. set (b := exp mod 2) in *.
    destruct (Z.eq_dec base 0) as [Hb0|Hbnz].
    { (* base = 0: the power is 0 *)
      subst base. change (wrap32 (0 * 0)) with 0.
      rewrite (Z.pow_0_l exp) by lia. rewrite Z.mul_0_r.
      destruct (Z.eqb_spec b 0) as [Hbit|Hbit].
      - assert (Hq1 : 0 < q) by lia.
        rewrite IH; [rewrite Z.pow_0_l by lia; lia|lia|lia|lia|].
        rewrite Z.pow_0_l by lia. lia.
      - change (wrap_size 0) with 0.
        rewrite IH; [lia|lia|lia|lia|lia]. }
    assert (Hb1 : 1 <= base) by lia.
    destruct (Z.eq_dec result 0) as [Hr0|Hrnz].
    { (* result = 0 stays 0 *)
      subst result. rewrite Z.mul_0_l. change (wrap_size 0) with 0.
      replace (if b =? 0 then 0 else 0) with 0 by (destruct (b =? 0); reflexivity).
      rewrite IH; [lia|lia|exact Hwb|lia|lia]. }
    assert (Hr1 : 1 <= result) by lia.
    assert (Hpow : 1 <= base ^ exp) by (apply pow_ge_1; lia).
    assert (Hpb : 1 <= base ^ b) by (apply pow_ge_1; lia).
    assert (Hpq : 1 <= (base * base) ^ q) by (apply pow_ge_1; nia).
    assert (Hpow32 : base ^ exp < 2 ^ 32) by nia.
    assert (Hstep : (if b =? 0 then result else wrap_size (result * base))
                    = result * base ^ b).
    { destruct (Z.eqb_spec b 0) as [Hbit|Hbit].
      - rewrite Hbit, Z.pow_0_r. lia.
      - assert (b = 1) as -> by lia. rewrite Z.pow_1_r.
        unfold wrap_size. apply Z.mod_small.
        rewrite Z.pow_1_r in Hsplit. nia. }
    rewrite Hstep.
    destruct (Z.eq_dec q 0) as [Hq0|Hq0].
    + rewrite Hq0 in *. rewrite Z.pow_0_r in Hsplit.
      rewrite IH; [rewrite Z.pow_0_r; nia|lia|exact Hwb|nia|].
      rewrite Z.pow_0_r. nia.
    + assert (Hsq : base * base < 2 ^ 32).
      { assert (base * base <= (base * base) ^ q).
        { rewrite <- (Z.pow_1_r (base * base)) at 1.
          apply Z.pow_le_mono_r; nia. }
        nia. }
      assert (Hw : wrap32 (base * base) = base * base).
      { unfold wrap32. apply Z.mod_small. nia. }
      rewrite Hw.
      rewrite IH; [nia|lia|nia|nia|nia].
Qed.

(** X7.  [mobi_pow] computes the power of its arguments whenever that power
    fits 32 bits: the squaring of the base, which wraps at 32 bits, is then
    only ever used unwrapped. *)
Theorem mobi_pow_power (base exp : Z) :
  0 <= base < 2 ^ 32 ->
  0 <= exp < 2 ^ 32 ->
  base ^ exp < 2 ^ 32 ->
  mobi_pow base exp = base ^ exp.
Proof.
  intros Hbase Hexp Hfit. unfold mobi_pow.
  rewrite mobi_pow_loop_spec; [lia| |exact Hbase|lia|lia].
  change (Z.of_nat 32) with 32. exact Hexp.
Qed.

Lemma mobi_pow_power_witness : mobi_pow 32 5 = 33554432.
Proof.
  rewrite (mobi_pow_power 32 5); [reflexivity|lia|lia|reflexivity].
Defined.

Lemma mobi_pow_32 (k : Z) : 0 <= k <= 6 -> mobi_pow 32 k = 32 ^ k.
Proof.
  intros Hk. unfold mobi_pow.
  assert (Hle : 32 ^ k <= 32 ^ 6) by (apply Z.pow_le_mono_r; lia).
  change (32 ^ 6) with 1073741824 in Hle.
  rewrite mobi_pow_loop_spec; [lia| |lia|lia|lia].
  change (Z.of_nat 32) with 32. lia.
Qed.

Lemma base32_value_acc (s : string) :
  forall acc,
    base32_value s acc
    = (fun v => acc * 32 ^ strlen s + v) <$> base32_value s 0.
Proof.
  induction s as [|c rest IH]; intros acc; simpl.
  - f_equal. unfold strlen. simpl. lia.
  - destruct (base32_digit c) as [v|]; [|reflexivity].
    rewrite (IH (acc * 32 + v)), (IH (0 * 32 + v)).
    destruct (base32_value rest 0) as [w|]; simpl; [|reflexivity].
    f_equal. unfold strlen. simpl String.length.
    rewrite Nat2Z.inj_succ, Z.pow_succ_r by lia. lia.
Qed.

Lemma base32_digit_range (c : ascii) (v : Z) :
  base32_digit c = Some v -> 0 <= v < 32.
Proof.
  unfold base32_digit.
  destruct (Z.leb_spec 48 (byte_of_ascii c)), (Z.leb_spec (byte_of_ascii c) 57);
    simpl; try (intros [= <-]; lia);
    destruct (Z.leb_spec 65 (byte_of_ascii c)), (Z.leb_spec (byte_of_ascii c) 86);
    simpl; try discriminate; intros [= <-]; lia.
Qed.

Lemma base32_value_range (s : string) (v : Z) :
  base32_value s 0 = Some v -> 0 <= v < 32 ^ strlen s.
Proof.
  revert v. induction s as [|c rest IH]; intros v; simpl.
  - intros [= <-]. unfold strlen. simpl. lia.
  - destruct (base32_digit c) as [dg|] eqn:Hd; [|discriminate].
    rewrite base32_value_acc.
    destruct (base32_value rest 0) as [w|]; simpl; [|discriminate].
    intros [= <-]. specialize (IH w eq_refl).
    apply base32_digit_range in Hd.
    unfold strlen in *. simpl String.length.
    rewrite Nat2Z.inj_succ, Z.pow_succ_r by lia. nia.
Qed.

(** The digit read by the loop is the digit of the notation. *)
Lemma base32_loop_digit (c : ascii) :
  (let n := byte_of_ascii c in
   if (65 <=? n) && (n <=? 86) then Some (n - 65 + 10)
   else if (48 <=? n) && (n <=? 57) then Some (n - 48)
   else None) = base32_digit c.
Proof.
  unfold base32_digit. cbv zeta.
  destruct (Z.leb_spec 48 (byte_of_ascii c)), (Z.leb_spec (byte_of_ascii c) 57),
    (Z.leb_spec 65 (byte_of_ascii c)), (Z.leb_spec (byte_of_ascii c) 86);
    simpl; try reflexivity; try lia; f_equal; lia.
Qed.

Lemma base32_loop_value (c : string) :
  forall decoded v,
    strlen c <= 6 ->
    base32_value c 0 = Some v ->
    0 <= decoded ->
    decoded + v < 2 ^ 32 ->
    base32_loop c (strlen c) decoded = (MOBI_SUCCESS, decoded + v).
Proof.
  induction c as [|ch rest IH]; intros decoded v Hlen Hv Hd Hfit.
  - simpl in *. injection Hv as <-. f_equal. lia.
  - cbn [base32_loop]. cbv zeta. rewrite base32_loop_digit.
    simpl in Hv. destruct (base32_digit ch) as [dg|] eqn:Hdg; [|discriminate].
    rewrite base32_value_acc in Hv.
    destruct (base32_value rest 0) as [w|] eqn:Hw; simpl in Hv; [|discriminate].
    injection Hv as <-.
    pose proof (base32_digit_range _ _ Hdg) as Hdr.
    pose proof (base32_value_range _ _ Hw) as Hwr.
    assert (Hrest : strlen (String ch rest) - 1 = strlen rest).
    { unfold strlen. simpl String.length. lia. }
    assert (Hrlen : 0 <= strlen rest <= 5).
    { unfold strlen in *. simpl String.length in Hlen. lia. }
    rewrite Hrest.
    assert (Hwrap : wrap32 (strlen rest) = strlen rest).
    { unfold wrap32. apply Z.mod_small. lia. }
    rewrite Hwrap, mobi_pow_32 by lia.
    assert (Hp : 0 < 32 ^ strlen rest) by (apply Z.pow_pos_nonneg; lia).
    assert (Hsmall : 0 <= dg * 32 ^ strlen rest < 2 ^ 32) by nia.
    assert (Hws : wrap_size (dg * 32 ^ strlen rest) = dg * 32 ^ strlen rest).
    { unfold wrap_size. apply Z.mod_small. lia. }
    assert (Hw32 : wrap32 (decoded + dg * 32 ^ strlen rest)
                   = decoded + dg * 32 ^ strlen rest).
    { unfold wrap32. apply Z.mod_small. nia. }
    rewrite Hws, Hw32.
    rewrite (IH (decoded + dg * 32 ^ strlen rest) w); [f_equal; lia|lia|reflexivity|lia|lia].
Qed.

Lemma strip_zeroes_value (s : string) :
  base32_value (strip_zeroes s) 0 = base32_value s 0.
Proof.
  induction s as [|c rest IH]; simpl; [reflexivity|].
  destruct (Z.eqb_spec (byte_of_ascii c) 48) as [Hz|Hnz]; [|reflexivity].
  unfold base32_digit. rewrite Hz. simpl. exact IH.
Qed.

(** X8.  [mobi_base32_decode] reads a string of the digits 0..9 and A..V as
    a number in base 32, most significant digit first: when the string
    without its leading zeroes has at most 6 characters, the status is
    [MOBI_SUCCESS] and the value stored is the number the string writes,
    which is below 2^30. *)
Theorem base32_decode_value (old : Z) (s : string) (v : Z) :
  base32_value s 0 = Some v ->
  strlen (strip_zeroes s) <= 6 ->
  mobi_base32_decode (Some old) (Some s) = (MOBI_SUCCESS, Some v)
  /\ 0 <= v < 2 ^ 30.
Proof.
  intros Hv Hlen. unfold mobi_base32_decode.
  rewrite <- strip_zeroes_value in Hv.
  pose proof (base32_value_range _ _ Hv) as Hr.
  assert (Hlen0 : 0 <= strlen (strip_zeroes s)) by (unfold strlen; lia).
  assert (Hle : 32 ^ strlen (strip_zeroes s) <= 32 ^ 6)
    by (apply Z.pow_le_mono_r; lia).
  change (32 ^ 6) with (2 ^ 30) in Hle.
  destruct (Z.gtb_spec (strlen (strip_zeroes s)) 6) as [|_]; [lia|].
  assert (Hwrap : wrap32 (strlen (strip_zeroes s)) = strlen (strip_zeroes s)).
  { unfold wrap32. apply Z.mod_small. lia. }
  rewrite Hwrap, (base32_loop_value _ 0 v); [split; [reflexivity|lia]|lia|exact Hv|lia|lia].
Qed.

Lemma base32_decode_value_witness :
  mobi_base32_decode (Some 7) (Some "000VV"%string) = (MOBI_SUCCESS, Some 1023).
Proof.
  apply (base32_decode_value 7 "000VV" 1023); [reflexivity|].
  vm_compute. discriminate.
Defined.

Lemma base32_loop_illegal (c : string) :
  forall len decoded,
    base32_value c 0 = None ->
    (base32_loop c len decoded).1 = MOBI_DATA_CORRUPT.
Proof.
  induction c as [|ch rest IH]; intros len decoded Hv; simpl in Hv; [discriminate|].
  cbn [base32_loop]. cbv zeta. rewrite base32_loop_digit.
  destruct (base32_digit ch) as [dg|]; [|reflexivity].
  apply IH. rewrite base32_value_acc in Hv.
  destruct (base32_value rest 0); [discriminate|reflexivity].
Qed.

(** X9.  The failures of [mobi_base32_decode]: a [NULL] argument, or more
    than 6 characters after the leading zeroes, give [MOBI_PARAM_ERR] and
    leave the value at [decoded] as it was; with at most 6 characters, one
    that is no digit 0..9 or A..V (a lower-case letter, for one) gives
    [MOBI_DATA_CORRUPT]. *)
Theorem base32_decode_failures (old : Z) (s : string) :
  mobi_base32_decode (Some old) None = (MOBI_PARAM_ERR, Some old) /\
  mobi_base32_decode None (Some s) = (MOBI_PARAM_ERR, None) /\
  (6 < strlen (strip_zeroes s) ->
   mobi_base32_decode (Some old) (Some s) = (MOBI_PARAM_ERR, Some old)) /\
  (strlen (strip_zeroes s) <= 6 -> base32_value s 0 = None ->
   (mobi_base32_decode (Some old) (Some s)).1 = MOBI_DATA_CORRUPT).
Proof.
  split; [reflexivity|]. split; [reflexivity|]. split.
  - intros Hlen. unfold mobi_base32_decode.
    destruct (Z.gtb_spec (strlen (strip_zeroes s)) 6); [reflexivity|lia].
  - intros Hlen Hv. unfold mobi_base32_decode.
    destruct (Z.gtb_spec (strlen (strip_zeroes s)) 6); [lia|].
    rewrite <- strip_zeroes_value in Hv.
    pose proof (base32_loop_illegal (strip_zeroes s)
                  (wrap32 (strlen (strip_zeroes s))) 0 Hv) as Hloop.
    destruct (base32_loop (strip_zeroes s) (wrap32 (strlen (strip_zeroes s))) 0).
    exact Hloop.
Qed.

Lemma base32_decode_failures_witness :
  mobi_base32_decode (Some 7) (Some "1234567"%string) = (MOBI_PARAM_ERR, Some 7) /\
  (mobi_base32_decode (Some 7) (Some "1a"%string)).1 = MOBI_DATA_CORRUPT.
Proof.
  destruct (base32_decode_failures 7 "1234567") as (_ & _ & Hlong & _).
  destruct (base32_decode_failures 7 "1a") as (_ & _ & _ & Hbad).
  split.
  - apply Hlong. reflexivity.
  - apply Hbad; [vm_compute; discriminate|reflexivity].
Defined.

(** ** Locale strings *)

Lemma lower_string_length (s : string) :
  String.length (lower_string s) = String.length s.
Proof. induction s as [|c s IH]; simpl; [reflexivity|]. rewrite IH. reflexivity. Qed.

Lemma locale_lang_loop_lower (fuel : nat) (a b : string) :
  lower_string a = lower_string b ->
  forall lang_code,
    locale_lang_loop fuel a lang_code = locale_lang_loop fuel b lang_code.
Proof.
  intros Hlow. induction fuel as [|fuel IH]; intros lang_code; simpl; [reflexivity|].
  rewrite Hlow.
  destruct (mobi_locale_entry lang_code 0) as [first|]; [|apply IH].
  destruct (strncmp_eq (lower_string b) first 2); [reflexivity|apply IH].
Qed.

(** X10.  [mobi_get_locale_number] does not look at the case of its
    argument: two strings that agree after [tolower] of every character get
    the same result. *)
Theorem locale_number_case_insensitive (a b : string) :
  lower_string a = lower_string b ->
  mobi_get_locale_number (Some a) = mobi_get_locale_number (Some b).
Proof.
  intros Hlow. unfold mobi_get_locale_number, strlen.
  rewrite <- (lower_string_length a), <- (lower_string_length b), Hlow.
  destruct (Z.of_nat (String.length (lower_string b)) <? 2); [reflexivity|].
  apply locale_lang_loop_lower, Hlow.
Qed.

Lemma locale_number_case_insensitive_witness :
  mobi_get_locale_number (Some "PT-br"%string)
  = mobi_get_locale_number (Some "pt-BR"%string).
Proof. apply locale_number_case_insensitive. reflexivity. Defined.

Lemma locale_strings_check_all : locale_strings_check = true.
Proof. vm_compute. reflexivity. Qed.

(** X11.  The way back: the string of every entry of the locale table, in a
    language other than 97, is found by [mobi_get_locale_number], and
    [mobi_get_locale_string] of the number found is that string again (the
    number being the one of the first entry with the string). *)
Theorem locale_string_of_locale_number (lang_code region_code : Z) (s : string) :
  0 <= lang_code < MOBI_LANG_MAX ->
  0 <= region_code < MOBI_REGION_MAX ->
  lang_code <> 97 ->
  mobi_locale_entry lang_code region_code = Some s ->
  exists n,
    mobi_get_locale_number (Some s) = Some n /\ mobi_get_locale_string n = Some s.
Proof.
  intros Hl Hr Hne Hs.
  pose proof locale_strings_check_all as Hall. unfold locale_strings_check in Hall.
  pose proof (Zrange_forallb _ 0 _ Hall lang_code ltac:(lia)) as Hrow.
  pose proof (Zrange_forallb _ 0 _ Hrow region_code ltac:(lia)) as Hcheck.
  unfold locale_string_check in Hcheck. rewrite Hs in Hcheck.
  destruct (Z.eqb_spec lang_code 97) as [|_]; [contradiction|].
  destruct (mobi_get_locale_number (Some s)) as [n|]; [|discriminate].
  exists n. split; [reflexivity|].
  destruct (mobi_get_locale_string n) as [s'|]; [|discriminate].
  apply String.eqb_eq in Hcheck. congruence.
Qed.

Lemma locale_string_of_locale_number_witness :
  exists n,
    mobi_get_locale_number (Some "ar"%string) = Some n
    /\ mobi_get_locale_string n = Some "ar"%string.
Proof.
  apply (locale_string_of_locale_number 1 4 "ar"); try reflexivity.
  - split; [lia|reflexivity].
  - split; [lia|reflexivity].
  - lia.
Defined.

(** ** Record magics *)

Lemma boundary_record_is_break (record : MOBIPdbRecord) :
  boundary_magic record = Some true ->
  mobi_determine_resource_type record = Some T_BREAK.
Proof.
  intros Hb. apply boundary_magic_spec in Hb as [rest Hdata].
  unfold mobi_determine_resource_type. rewrite Hdata.
  repeat (rewrite has_magic_in_bounds by (simpl; lia); simpl).
  reflexivity.
Qed.

(** X12.  The record that [mobi_get_kf8boundary_seqnumber] reports as the
    KF8 boundary is classified by [mobi_determine_resource_type] as
    [T_BREAK], the end of the resources of the first half. *)
Theorem kf8boundary_record_is_break (m : option MOBIData) (r : Z) :
  mobi_get_kf8boundary_seqnumber m = Some r ->
  r <> MOBI_NOTSET ->
  exists record,
    mobi_get_record_by_seqnumber m r = Some record /\
    mobi_determine_resource_type record = Some T_BREAK.
Proof.
  unfold mobi_get_kf8boundary_seqnumber. intros Hres Hset.
  destruct m as [d|]; [|congruence].
  destruct (mobi_get_exthrecord_by_tag (Some d) EXTH_KF8BOUNDARY) as [exth|];
    [|congruence].
  destruct (mobi_get_record_by_seqnumber (Some d) _) as [record|] eqn:Hrec;
    [|congruence].
  destruct (boundary_magic record) as [[|]|] eqn:Hmagic; simpl in Hres;
    [|congruence|discriminate].
  injection Hres as <-. exists record. split; [exact Hrec|].
  apply boundary_record_is_break, Hmagic.
Qed.

Lemma kf8boundary_record_is_break_witness :
  exists record,
    mobi_get_record_by_seqnumber (Some sample_plain) 2 = Some record /\
    mobi_determine_resource_type record = Some T_BREAK.
Proof.
  apply (kf8boundary_record_is_break (Some sample_plain) 2).
  - reflexivity.
  - vm_compute. discriminate.
Defined.

(** ** EXTH strings *)

Lemma c_string_app_nul (l t : list Z) : c_string (l ++ 0 :: t) = c_string l.
Proof.
  induction l as [|b l IH]; simpl; [reflexivity|].
  destruct (b =? 0); [reflexivity|]. rewrite IH. reflexivity.
Qed.

Lemma c_string_nonzero (input : list Z) : Forall (fun b => b <> 0) (c_string input).
Proof.
  induction input as [|b rest IH]; simpl; [constructor|].
  destruct (Z.eqb_spec b 0); [constructor|]. constructor; assumption.
Qed.

Lemma spec_cp1252_byte_nonzero (b : Z) (e : list Z) :
  b <> 0 -> spec_cp1252_byte b = Some e -> Forall (fun c => c <> 0) e.
Proof.
  intros Hb. unfold spec_cp1252_byte.
  destruct (Z.ltb_spec b 0x80) as [|H80].
  { intros [= <-]. repeat constructor. exact Hb. }
  destruct (Z.ltb_spec b 0xA0) as [HA0|HA0].
  { pose proof (Zrange_forallb cp1252_high_nonzero 0x80 32
                  ltac:(vm_compute; reflexivity) b ltac:(lia)) as Hcheck.
    unfold cp1252_high_nonzero in Hcheck.
    destruct (cp1252_unassigned b); [discriminate|]. simpl in Hcheck.
    intros [= <-]. rewrite forallb_forall in Hcheck.
    apply Forall_forall. intros c Hc. apply list_elem_of_In in Hc.
    specialize (Hcheck c Hc). apply negb_true_iff, Z.eqb_neq in Hcheck. exact Hcheck. }
  destruct (Z.ltb_spec b 0xC0) as [HC0|HC0].
  { intros [= <-]. repeat constructor; lia. }
  intros [= <-]. rewrite <- land_3f_plus_80.
  assert (0 <= Z.land b 0x3f) by (apply Z.land_nonneg; lia).
  repeat constructor; lia.
Qed.

Lemma spec_cp1252_bytes_nonzero (input e : list Z) :
  Forall (fun b => b <> 0) input ->
  spec_cp1252_bytes input = Some e -> Forall (fun c => c <> 0) e.
Proof.
  intros Hin. revert e. induction Hin as [|b rest Hb _ IH]; intros e; simpl.
  - intros [= <-]. constructor.
  - destruct (spec_cp1252_byte b) as [eb|] eqn:Heb; [|discriminate].
    destruct (spec_cp1252_bytes rest) as [er|]; [|discriminate].
    intros [= <-]. apply Forall_app. split.
    + eapply spec_cp1252_byte_nonzero; eassumption.
    + apply IH. reflexivity.
Qed.

Lemma store_terminator (string e : list Z) (t : list Z) :
  c_string (store_at (store_bytes string (e ++ t)) (Z.of_nat (length e)) [0])
  = c_string e.
Proof.
  unfold store_at, store_bytes. rewrite Nat2Z.id, <- !app_assoc.
  rewrite take_app_length, drop_app_length. simpl.
  apply c_string_app_nul.
Qed.

(** X13.  [mobi_decode_exthstring], when the allocation of its result
    succeeds: for a document that is not CP1252 encoded it returns the bytes
    of the EXTH data up to their first NUL; for a CP1252 document it returns
    the UTF-8 conversion of those bytes, or [NULL] if one of them is
    unassigned in CP1252.  The result does not depend on what the local
    array held before. *)
Theorem decode_exthstring_spec (d : MOBIData) (bytes string : list Z) :
  mobi_decode_exthstring true (Some d) (Some bytes) string
  = if mobi_is_cp1252 (Some d)
    then spec_cp1252_bytes (c_string bytes)
    else Some (c_string bytes).
Proof.
  unfold mobi_decode_exthstring.
  destruct (mobi_is_cp1252 (Some d)).
  - unfold mobi_cp1252_to_utf8.
    pose proof (cp1252_loop_spec bytes (3 * Z.of_nat (length bytes) + 1) []
                  ltac:(simpl; lia)) as Hloop.
    destruct (spec_cp1252_bytes (c_string bytes)) as [e|] eqn:He.
    + rewrite Hloop. simpl app.
      rewrite store_terminator. f_equal.
      apply c_string_no_nul.
      apply (spec_cp1252_bytes_nonzero (c_string bytes)); [apply c_string_nonzero|exact He].
    + destruct Hloop as [o ->]. reflexivity.
  - f_equal. pose proof (store_terminator string bytes []) as Hstore.
    rewrite app_nil_r in Hstore. exact Hstore.
Qed.

(** ** The converter on a short output buffer *)

Lemma cp1252_loop_length (input : list Z) :
  forall outsize out o,
    cp1252_loop input outsize out = Cp_done o ->
    Z.of_nat (length o) <= Z.max (Z.of_nat (length out)) (outsize + 2) /\
    Z.of_nat (length o) <= Z.of_nat (length out) + 3 * Z.of_nat (length input).
Proof.
  induction input as [|b rest IH]; intros outsize out o; simpl.
  - intros [= <-]. lia.
  - destruct (Z.eqb_spec b 0) as [|Hb0]; simpl; [intros [= <-]; lia|].
    destruct (Z.ltb_spec (Z.of_nat (length out)) outsize) as [Hroom|];
      simpl; [|intros [= <-]; lia].
    destruct (Z.ltb_spec b 0x80).
    { intros Hdone. apply IH in Hdone. rewrite length_app in Hdone.
      simpl length in Hdone. lia. }
    destruct (Z.ltb_spec b 0xa0).
    { rewrite cp1252_table_loop_bytes.
      pose proof (cp1252_table_rows b ltac:(lia)) as Hrow.
      unfold cp1252_row_check in Hrow.
      destruct (cp1252_unassigned b).
      - apply bool_decide_eq_true in Hrow. rewrite Hrow. simpl. discriminate.
      - apply andb_prop in Hrow as [Hrow Hle].
        apply andb_prop in Hrow as [_ Hge].
        apply Z.leb_le in Hle, Hge.
        destruct (Z.eqb_spec (0 + Z.of_nat (length (cp1252_row_bytes (cp1252_row b)))) 0);
          [lia|].
        intros Hdone. apply IH in Hdone. rewrite length_app in Hdone. lia. }
    destruct (Z.ltb_spec b 0xc0).
    { intros Hdone. apply IH in Hdone. rewrite length_app in Hdone.
      simpl length in Hdone. lia. }
    intros Hdone. apply IH in Hdone. rewrite length_app in Hdone.
    simpl length in Hdone. lia.
Qed.

(** X14.  Whatever the size of the output buffer, a successful
    [mobi_cp1252_to_utf8] sets [*outsize] to at most three times the input
    length and to at most the incoming [*outsize] plus 2: the loop tests the
    room before a character, not before each of its bytes, so up to two
    bytes and the terminating NUL can be stored past the declared size. *)
Theorem cp1252_to_utf8_outsize_bound (buf input : list Z) (outsize : Z)
    (buf' : option (list Z)) (n : Z) :
  0 <= outsize ->
  mobi_cp1252_to_utf8 (Some buf) (Some input) outsize = (MOBI_SUCCESS, buf', n) ->
  0 <= n <= outsize + 2 /\ n <= 3 * Z.of_nat (length input) /\
  exists out, length out = Z.to_nat n /\ buf' = Some (store_bytes buf (out ++ [0])).
Proof.
  intros Hsize. unfold mobi_cp1252_to_utf8.
  destruct (cp1252_loop input outsize []) as [o|o] eqn:Hloop; [|discriminate].
  intros [= <- <-]. apply cp1252_loop_length in Hloop. simpl length in Hloop.
  split; [lia|]. split; [lia|].
  exists o. split; [lia|reflexivity].
Qed.

Lemma cp1252_to_utf8_outsize_bound_witness :
  mobi_cp1252_to_utf8 (Some (repeat 0xAA 2)) (Some [0x41; 0x80]) 2
  = (MOBI_SUCCESS, Some [0x41; 0xE2; 0x82; 0xAC; 0], 4)
  /\ 0 <= 4 <= 2 + 2.
Proof.
  split; [reflexivity|].
  destruct (cp1252_to_utf8_outsize_bound (repeat 0xAA 2) [0x41; 0x80] 2
              (Some [0x41; 0xE2; 0x82; 0xAC; 0]) 4 ltac:(lia) eq_refl)
    as (Hn & _).
  exact Hn.
Defined.

(** ** Text of uncompressed documents *)

Section DecompressionPlain.

Variable MOBIHuffCdic : Type.
Variable mobi_init_huffcdic : option MOBIHuffCdic.
Variable mobi_parse_huffdic : MOBIData -> MOBIHuffCdic -> MOBI_RET * MOBIHuffCdic.
Variable mobi_get_record_extrasize : MOBIPdbRecord -> Z -> Z.
Variable mobi_decompress_lz77 : list Z -> Z -> list Z.
Variable mobi_decompress_huffman : list Z -> Z -> MOBIHuffCdic -> list Z.

Local Abbreviation dump_rawml :=
  (mobi_dump_rawml MOBIHuffCdic mobi_init_huffcdic mobi_parse_huffdic
     mobi_get_record_extrasize mobi_decompress_lz77 mobi_decompress_huffman).
Local Abbreviation loop :=
  (decompress_loop MOBIHuffCdic mobi_get_record_extrasize mobi_decompress_lz77
     mobi_decompress_huffman).

Lemma decompress_loop_dump_plain (curr : list MOBIPdbRecord) :
  forall (count : Z) (huffcdic : option MOBIHuffCdic) (file : list Z) (n : nat),
    0 <= count ->
    Forall (fun r => rec_size r <= RECORD0_TEXT_SIZE_MAX) (take (Z.to_nat count) curr) ->
    loop curr count RECORD0_NO_COMPRESSION 0 huffcdic true None (Some file) None 0 n
    = Some {| cr_ret := MOBI_SUCCESS; cr_text := None;
              cr_file := Some (file ++ concat (map rec_data (take (Z.to_nat count) curr)));
              cr_len := None;
              cr_decompressed := (n + length (take (Z.to_nat count) curr))%nat |}.
Proof.
  induction curr as [|c next IH]; intros count huffcdic file n Hcount Hsizes.
  - simpl. rewrite take_nil. simpl. rewrite app_nil_r, Nat.add_0_r. reflexivity.
  - cbn [decompress_loop].
    destruct (Z.eqb_spec count 0) as [->|Hnz].
    + simpl. rewrite app_nil_r, Nat.add_0_r. reflexivity.
    + change (0 =? 0) with true. cbn [negb andb].
      change (RECORD0_NO_COMPRESSION =? RECORD0_NO_COMPRESSION) with true.
      cbv iota.
      replace (Z.to_nat count) with (S (Z.to_nat (count - 1))) in * by lia.
      cbn [take] in Hsizes. apply Forall_cons in Hsizes as [Hc Hnext].
      destruct (Z.leb_spec (rec_size c) RECORD0_TEXT_SIZE_MAX); [|lia].
      cbn [fmap option_fmap option_map].
      rewrite IH by (assumption || lia).
      cbn [take map concat length]. rewrite <- app_assoc.
      do 2 f_equal. lia.
Qed.

(** A text record above the size of the array stops the model: the copy
    overruns [decompressed]. *)
Lemma decompress_loop_plain_overrun (c : MOBIPdbRecord) (next : list MOBIPdbRecord)
    (count : Z) (huffcdic : option MOBIHuffCdic) (dump : bool)
    (text file : option (list Z)) (len : option Z) (text_length : Z) (n : nat) :
  count <> 0 ->
  RECORD0_TEXT_SIZE_MAX < rec_size c ->
  loop (c :: next) count RECORD0_NO_COMPRESSION 0 huffcdic dump text file len
    text_length n = None.
Proof.
  intros Hcount Hsize. cbn [decompress_loop].
  destruct (Z.eqb_spec count 0); [contradiction|].
  change (0 =? 0) with true. cbn [negb andb].
  change (RECORD0_NO_COMPRESSION =? RECORD0_NO_COMPRESSION) with true.
  cbv iota.
  destruct (Z.leb_spec (rec_size c) RECORD0_TEXT_SIZE_MAX); [lia|reflexivity].
Qed.

Lemma kf8offset_text_index (d : MOBIData) :
  exists off,
    mobi_get_kf8offset (Some d) = Some off /\ 0 <= off /\
    wrap_size (1 + off) = 1 + off.
Proof.
  simpl. destruct (m_use_kf8 d && negb (m_kf8_boundary_offset d =? MOBI_NOTSET)).
  - eexists. split; [reflexivity|].
    pose proof (Z.mod_pos_bound (m_kf8_boundary_offset d + 1) (2 ^ 32) ltac:(lia)) as Hb.
    unfold wrap32, wrap_size. split; [lia|]. apply Z.mod_small. lia.
  - exists 0. split; [reflexivity|]. split; [lia|reflexivity].
Qed.

(** X15.  [mobi_dump_rawml] on a document that is not encrypted, declares
    no compression (type 1), a text record count above 0 and no extra
    flags, and whose text records hold at most 4096 bytes each (the size of
    the array they are copied through): the status is [MOBI_SUCCESS] and
    the bytes written to the file are the data of the text records one
    after the other, the records being the first [text_record_count] ones
    (or as many as there are) after Record 0 of the half in use. *)
Theorem dump_rawml_uncompressed (d : MOBIData) (rh : MOBIRecord0Header)
    (off : Z) (file : list Z) :
  mobi_is_encrypted (Some d) = false ->
  m_rh d = Some rh ->
  rh_compression_type rh = RECORD0_NO_COMPRESSION ->
  0 < rh_text_record_count rh ->
  (forall mh f, m_mh d = Some mh -> mh_extra_flags mh = Some f -> f = 0) ->
  mobi_get_kf8offset (Some d) = Some off ->
  let records :=
    take (Z.to_nat (rh_text_record_count rh)) (drop (Z.to_nat (1 + off)) (m_rec d)) in
  Forall (fun r => rec_size r <= RECORD0_TEXT_SIZE_MAX) records ->
  dump_rawml (Some d) (Some file)
  = Some {| cr_ret := MOBI_SUCCESS; cr_text := None;
            cr_file := Some (file ++ concat (map rec_data records));
            cr_len := None; cr_decompressed := length records |}.
Proof.
  intros Hplain Hrh Hcomp Hcount Hflags Hoff records Hsizes. subst records.
  destruct (kf8offset_text_index d) as (off' & Hoff' & Hpos & Hwrap).
  assert (off' = off) as -> by congruence.
  unfold mobi_dump_rawml, mobi_decompress_content.
  rewrite Hplain, Hoff. cbn [mbind option_bind]. rewrite Hrh.
  destruct (Z.eqb_spec (rh_text_record_count rh) 0); [lia|].
  rewrite Hcomp.
  change (RECORD0_NO_COMPRESSION =? RECORD0_HUFF_COMPRESSION) with false. cbv iota.
  assert (Hzero : match m_mh d ≫= mh_extra_flags with Some f => f | None => 0 end = 0).
  { destruct (m_mh d) as [mh|] eqn:Hmh; simpl; [|reflexivity].
    destruct (mh_extra_flags mh) as [f|] eqn:Hf; [|reflexivity].
    exact (Hflags mh f eq_refl Hf). }
  rewrite Hzero, Hwrap.
  rewrite decompress_loop_dump_plain by (assumption || lia). reflexivity.
Qed.

(** X16.  With the same guards passed but a compression code that is none of
    1, 2 and 17480, [mobi_dump_rawml] returns [MOBI_DATA_CORRUPT] when there
    is a record at the first text position, and [MOBI_SUCCESS] with nothing
    written when the record list ends before it: the code is only looked at
    inside the loop over the text records. *)
Theorem dump_rawml_unknown_compression (d : MOBIData) (rh : MOBIRecord0Header)
    (off : Z) (file : list Z) :
  mobi_is_encrypted (Some d) = false ->
  m_rh d = Some rh ->
  rh_compression_type rh <> RECORD0_NO_COMPRESSION ->
  rh_compression_type rh <> RECORD0_PALMDOC_COMPRESSION ->
  rh_compression_type rh <> RECORD0_HUFF_COMPRESSION ->
  0 < rh_text_record_count rh ->
  (forall mh f, m_mh d = Some mh -> mh_extra_flags mh = Some f -> f = 0) ->
  mobi_get_kf8offset (Some d) = Some off ->
  dump_rawml (Some d) (Some file)
  = Some {| cr_ret := match drop (Z.to_nat (1 + off)) (m_rec d) with
                      | [] => MOBI_SUCCESS
                      | _ :: _ => MOBI_DATA_CORRUPT
                      end;
            cr_text := None; cr_file := Some file; cr_len := None;
            cr_decompressed := O |}.
Proof.
  intros Hplain Hrh Hc1 Hc2 Hc3 Hcount Hflags Hoff.
  destruct (kf8offset_text_index d) as (off' & Hoff' & Hpos & Hwrap).
  assert (off' = off) as -> by congruence.
  unfold mobi_dump_rawml, mobi_decompress_content.
  rewrite Hplain, Hoff. cbn [mbind option_bind]. rewrite Hrh.
  destruct (Z.eqb_spec (rh_text_record_count rh) 0); [lia|].
  destruct (Z.eqb_spec (rh_compression_type rh) RECORD0_HUFF_COMPRESSION);
    [contradiction|].
  assert (Hzero : match m_mh d ≫= mh_extra_flags with Some f => f | None => 0 end = 0).
  { destruct (m_mh d) as [mh|] eqn:Hmh; simpl; [|reflexivity].
    destruct (mh_extra_flags mh) as [f|] eqn:Hf; [|reflexivity].
    exact (Hflags mh f eq_refl Hf). }
  rewrite Hzero, Hwrap.
  destruct (drop (Z.to_nat (1 + off)) (m_rec d)) as [|c next]; [reflexivity|].
  cbn [decompress_loop].
  destruct (Z.eqb_spec (rh_text_record_count rh) 0); [lia|].
  change (0 =? 0) with true. cbn [negb andb].
  destruct (Z.eqb_spec (rh_compression_type rh) RECORD0_NO_COMPRESSION);
    [contradiction|].
  destruct (Z.eqb_spec (rh_compression_type rh) RECORD0_PALMDOC_COMPRESSION);
    [contradiction|].
  destruct (Z.eqb_spec (rh_compression_type rh) RECORD0_HUFF_COMPRESSION);
    [contradiction|].
  reflexivity.
Qed.

End DecompressionPlain.

Lemma concat_length_bound (records : list MOBIPdbRecord) (bound : Z) :
  Forall (fun r => rec_size r <= bound) records ->
  Z.of_nat (length (concat (map rec_data records)))
  <= Z.of_nat (length records) * bound.
Proof.
  induction 1 as [|r rest Hr _ IH]; simpl; [lia|].
  rewrite length_app. unfold rec_size in Hr. lia.
Qed.

Lemma dump_rawml_uncompressed_witness :
  sample_dump_rawml (Some sample_plain) (Some [])
  = Some {| cr_ret := MOBI_SUCCESS; cr_text := None;
            cr_file := Some (bytes_of_string "Hello");
            cr_len := None; cr_decompressed := 1 |}.
Proof.
  apply (dump_rawml_uncompressed unit (Some tt) (fun _ h => (MOBI_SUCCESS, h))
           (fun _ _ => 0) (fun data _ => data) (fun data _ _ => data)
           sample_plain (sample_rh 0) 0 []); try reflexivity.
  - intros mh f [= <-]. discriminate.
  - apply Forall_cons. split; [vm_compute; discriminate|constructor].
Defined.

Lemma dump_rawml_unknown_compression_witness :
  let rh := {| rh_compression_type := 3; rh_text_length := 5;
               rh_text_record_count := 1; rh_text_record_size := 4096;
               rh_encryption_type := 0; rh_unknown1 := 0 |} in
  let d := set_rh (Some rh) sample_plain in
  (cr_ret <$> sample_dump_rawml (Some d) (Some [])) = Some MOBI_DATA_CORRUPT /\
  (cr_ret <$> sample_dump_rawml (Some (set_rec [] d)) (Some [])) = Some MOBI_SUCCESS.
Proof.
  intros rh d. split.
  - unfold sample_dump_rawml.
    rewrite (dump_rawml_unknown_compression unit (Some tt) (fun _ h => (MOBI_SUCCESS, h))
               (fun _ _ => 0) (fun data _ => data) (fun data _ _ => data)
               d rh 0 []); try reflexivity; try (vm_compute; discriminate).
    intros mh f [= <-]. discriminate.
  - unfold sample_dump_rawml.
    rewrite (dump_rawml_unknown_compression unit (Some tt) (fun _ h => (MOBI_SUCCESS, h))
               (fun _ _ => 0) (fun data _ => data) (fun data _ _ => data)
               (set_rec [] d) rh 0 []); try reflexivity; try (vm_compute; discriminate).
    intros mh f [= <-]. discriminate.
Defined.

(** X17.  [mobi_get_text_maxsize] is [MOBI_NOTSET] exactly when the document
    is [NULL], has no Record-0 header or declares no text record; otherwise
    it is 4096 times the text record count, and it bounds the length of the
    text of any [text_record_count] records that keep to the 4096 bytes of
    a text record. *)
Theorem text_maxsize_bound (m : option MOBIData) :
  (forall d rh, m = Some d -> m_rh d = Some rh ->
                0 <= rh_text_record_count rh <= 0xFFFF) ->
  (mobi_get_text_maxsize m = MOBI_NOTSET <->
     ~ exists d rh, m = Some d /\ m_rh d = Some rh /\ 0 < rh_text_record_count rh) /\
  (forall d rh records,
     m = Some d -> m_rh d = Some rh -> 0 < rh_text_record_count rh ->
     Forall (fun r => rec_size r <= RECORD0_TEXT_SIZE_MAX) records ->
     Z.of_nat (length records) <= rh_text_record_count rh ->
     mobi_get_text_maxsize m = rh_text_record_count rh * 4096 /\
     Z.of_nat (length (concat (map rec_data records))) <= mobi_get_text_maxsize m).
Proof.
  intros Hrange. unfold mobi_get_text_maxsize. split.
  - destruct m as [d|]; simpl.
    + destruct (m_rh d) as [rh|] eqn:Hrh.
      * specialize (Hrange d rh eq_refl Hrh).
        destruct (Z.gtb_spec (rh_text_record_count rh) 0) as [Hpos|Hnpos].
        -- split.
           ++ unfold RECORD0_TEXT_SIZE_MAX, MOBI_NOTSET. lia.
           ++ intros Hno. exfalso. apply Hno. exists d, rh. auto.
        -- split; [|reflexivity]. intros _ (d' & rh' & [= <-] & Hrh' & Hpos).
           rewrite Hrh in Hrh'. injection Hrh' as <-. lia.
      * split; [|reflexivity]. intros _ (d' & rh' & [= <-] & Hrh' & _). congruence.
    + split; [|reflexivity]. intros _ (d' & rh' & Hm & _). discriminate.
  - intros d rh records -> Hrh Hpos Hall Hlen. simpl. rewrite Hrh.
    destruct (Z.gtb_spec (rh_text_record_count rh) 0); [|lia].
    split; [reflexivity|].
    pose proof (concat_length_bound records RECORD0_TEXT_SIZE_MAX Hall) as Hb.
    unfold RECORD0_TEXT_SIZE_MAX in *. nia.
Qed.

Lemma text_maxsize_bound_witness :
  mobi_get_text_maxsize (Some sample_plain) = 4096 /\
  mobi_get_text_maxsize None = MOBI_NOTSET.
Proof.
  destruct (text_maxsize_bound (Some sample_plain)) as [_ Hbound].
  { intros d rh [= <-] [= <-]. simpl. lia. }
  destruct (text_maxsize_bound None) as [Hnone _].
  { intros d rh Hd. discriminate. }
  split.
  - destruct (Hbound sample_plain (sample_rh 0) [] eq_refl eq_refl) as [Hval _].
    + reflexivity.
    + constructor.
    + simpl. lia.
    + exact Hval.
  - apply Hnone. intros (d & rh & Hd & _). discriminate.
Defined.

(** ** The full name in a short buffer *)

(** X18.  [mobi_get_fullname] with a length [len] that does not exceed the
    length of the full name copies the first [len] bytes of the name and
    stores the NUL at the index [len]: it writes [len] + 1 bytes.  With a
    [NULL] document it returns [MOBI_INIT_FAILED] and leaves the empty
    string in the buffer; with a [NULL] buffer or a length 0 it returns
    [MOBI_PARAM_ERR]. *)
Theorem get_fullname_truncates (d : MOBIData) (mh : MOBIMobiHeader)
    (r0 : MOBIPdbRecord) (o l len : Z) (buf : list Z) :
  m_mh d = Some mh ->
  mh_full_name_offset mh = Some o ->
  mh_full_name_length mh = Some l ->
  mobi_get_kf8offset (Some d) ≫= mobi_get_record_by_seqnumber (Some d) = Some r0 ->
  0 <= o -> 0 < len <= l -> o + len <= rec_size r0 ->
  (exists buf',
     mobi_get_fullname (Some d) (Some buf) len = Some (MOBI_SUCCESS, Some buf') /\
     take (Z.to_nat len + 1) buf'
     = take (Z.to_nat len) (drop (Z.to_nat o) (rec_data r0)) ++ [0]) /\
  mobi_get_fullname None (Some buf) len
  = Some (MOBI_INIT_FAILED, Some (store_bytes buf [0])) /\
  mobi_get_fullname (Some d) None len = Some (MOBI_PARAM_ERR, None) /\
  mobi_get_fullname (Some d) (Some buf) 0 = Some (MOBI_PARAM_ERR, Some buf).
Proof.
  intros Hmh Ho Hl Hr0 Hopos Hlen Hfit. split; [|split; [|split]].
  - eexists. split.
    + apply (get_fullname_success d mh r0 o l len buf Hmh Ho Hl Hr0); lia.
    + rewrite Z.min_l by lia.
      remember (Z.to_nat len) as n eqn:Hn.
      assert (Hlen' : len = Z.of_nat n) by lia.
      rewrite Hlen'. apply stored_name_prefix.
      rewrite length_take, length_drop. unfold rec_size in Hfit. lia.
  - unfold mobi_get_fullname. destruct (Z.eqb_spec len 0); [lia|reflexivity].
  - reflexivity.
  - reflexivity.
Qed.

Lemma get_fullname_truncates_witness :
  exists buf',
    mobi_get_fullname (Some sample_plain) (Some (repeat 0xAA 2)) 2
    = Some (MOBI_SUCCESS, Some buf')
    /\ take 3 buf' = bytes_of_string "Bo" ++ [0].
Proof.
  destruct (get_fullname_truncates sample_plain (sample_mh 6 None None)
              (sample_record 0 (0 :: 1 :: bytes_of_string "Book" ++ [0; 0]))
              2 4 2 (repeat 0xAA 2))
    as [Hcopy _]; try reflexivity; try lia.
  - vm_compute. discriminate.
  - exact Hcopy.
Defined.

(** ** Choosing a half *)

(** X19.  [mobi_parse_kf7] and [mobi_parse_kf8] only set the flag of the
    structure they are given, the later call winning; afterwards
    [mobi_get_kf8offset] of that structure is 0 after [mobi_parse_kf7], and
    after [mobi_parse_kf8] it is the boundary record number plus 1 for a
    hybrid document and 0 for any other. *)
Theorem parse_kf7_kf8_offset (h : gmap nat MOBIData) (a : nat) (d : MOBIData) :
  h !! a = Some d ->
  0 <= m_kf8_boundary_offset d <= MOBI_NOTSET ->
  mobi_parse_kf7 h (Some a) = Some (MOBI_SUCCESS, <[a := set_use_kf8 false d]> h) /\
  mobi_parse_kf8 h (Some a) = Some (MOBI_SUCCESS, <[a := set_use_kf8 true d]> h) /\
  mobi_get_kf8offset (Some (set_use_kf8 false d)) = Some 0 /\
  mobi_get_kf8offset (Some (set_use_kf8 true d))
  = Some (if mobi_is_hybrid (Some d) then m_kf8_boundary_offset d + 1 else 0) /\
  (mobi_parse_kf7 h (Some a) ≫= (fun r => mobi_parse_kf8 r.2 (Some a))
   = mobi_parse_kf8 h (Some a)) /\
  (mobi_parse_kf8 h (Some a) ≫= (fun r => mobi_parse_kf7 r.2 (Some a))
   = mobi_parse_kf7 h (Some a)).
Proof.
  intros Ha Hrange. unfold mobi_parse_kf7, mobi_parse_kf8. rewrite Ha. simpl.
  split; [reflexivity|]. split; [reflexivity|]. split; [reflexivity|]. split.
  - destruct (Z.eqb_spec (m_kf8_boundary_offset d) MOBI_NOTSET) as [Heq|Hne]; simpl.
    + reflexivity.
    + f_equal. unfold wrap32, MOBI_NOTSET in *. apply Z.mod_small. lia.
  - rewrite !lookup_insert_eq. simpl. rewrite !insert_insert_eq. split; reflexivity.
Qed.

Lemma parse_kf7_kf8_offset_witness :
  mobi_get_kf8offset (Some (set_use_kf8 true sample_kf8_half)) = Some 3 /\
  mobi_get_kf8offset (Some (set_use_kf8 false sample_kf8_half)) = Some 0.
Proof.
  destruct (parse_kf7_kf8_offset sample_store 1%nat sample_kf8_half)
    as (_ & _ & Hkf7 & Hkf8 & _).
  - reflexivity.
  - split; vm_compute; discriminate.
  - split; [exact Hkf8|exact Hkf7].
Defined.

(** ** Resource types by magic *)

Lemma magic_heads_clash (data : list Z) (x y : Z) (m1 m2 : list Z) :
  has_magic data (x :: m1) = Some true -> has_magic data (y :: m2) = Some true ->
  x = y.
Proof.
  rewrite !has_magic_true. intros [r1 ->] [r2 [= -> _]]. reflexivity.
Qed.

Ltac magic_clash :=
  match goal with
  | H1 : has_magic ?d (?x :: _) = Some true,
    H2 : has_magic ?d (?y :: _) = Some true |- _ =>
      exfalso; pose proof (magic_heads_clash d x y _ _ H1 H2); lia
  end.

Ltac magic_test M H :=
  match goal with
  | Hm : forall magic, _ -> exists b, has_magic ?d magic = Some b |- _ =>
      let b := fresh "b" in
      destruct (Hm M ltac:(simpl; lia)) as [b H];
      rewrite H; cbn [mbind option_bind]; destruct b
  end.

(** X20.  On a record of at least eight bytes, the longest magic compared,
    the order of the tests in [mobi_determine_resource_type] does not
    matter for the types other than BMP: the record is classified as JPG,
    GIF, PNG, FONT, AUDIO or VIDEO exactly when its data starts with the
    magic of that type, and as [T_BREAK] exactly when it starts with the
    BOUNDARY or the end-of-file magic. *)
Theorem resource_type_by_magic (record : MOBIPdbRecord) :
  8 <= rec_size record ->
  let data := rec_data record in
  exists t,
    mobi_determine_resource_type record = Some t /\
    (t = T_JPG <-> has_magic data [0xff; 0xd8; 0xff] = Some true) /\
    (t = T_GIF <-> has_magic data (bytes_of_string "GIF8") = Some true) /\
    (t = T_PNG <->
       has_magic data [0x89; 0x50; 0x4e; 0x47; 0x0d; 0x0a; 0x1a; 0x0a] = Some true) /\
    (t = T_FONT <-> has_magic data FONT_MAGIC = Some true) /\
    (t = T_BREAK <->
       has_magic data BOUNDARY_MAGIC = Some true
       \/ has_magic data EOF_MAGIC = Some true) /\
    (t = T_AUDIO <-> has_magic data AUDI_MAGIC = Some true) /\
    (t = T_VIDEO <-> has_magic data VIDE_MAGIC = Some true).
Proof.
  intros Hsize data. unfold mobi_determine_resource_type. fold data.
  change (bytes_of_string "GIF8") with [0x47; 0x49; 0x46; 0x38].
  change FONT_MAGIC with [70; 79; 78; 84].
  change AUDI_MAGIC with [65; 85; 68; 73].
  change VIDE_MAGIC with [86; 73; 68; 69].
  change BOUNDARY_MAGIC with [66; 79; 85; 78; 68; 65; 82; 89].
  change EOF_MAGIC with [0xe9; 0x8e; 0x0d; 0x0a].
  assert (Hlen : (8 <= length data)%nat) by (unfold rec_size in Hsize; fold data in Hsize; lia).
  assert (Hm : forall magic, (length magic <= 8)%nat ->
                 exists b, has_magic data magic = Some b).
  { intros magic Hmagic. eexists. apply has_magic_in_bounds. lia. }
  assert (Hat : forall i, (i < 8)%nat -> exists b, data !! i = Some b).
  { intros i Hi. apply lookup_lt_is_Some_2. lia. }
  destruct (Hat 2%nat ltac:(lia)) as [b2 Hb2].
  destruct (Hat 3%nat ltac:(lia)) as [b3 Hb3].
  destruct (Hat 4%nat ltac:(lia)) as [b4 Hb4].
  destruct (Hat 5%nat ltac:(lia)) as [b5 Hb5].
  rewrite Hb2, Hb3, Hb4, Hb5. clear Hat Hb2 Hb3 Hb4 Hb5.
  generalize (rec_size record). clearbody data. intros size.
  magic_test [0xff; 0xd8; 0xff] Hjpg;
    [|magic_test [0x47; 0x49; 0x46; 0x38] Hgif;
      [|magic_test [0x89; 0x50; 0x4e; 0x47; 0x0d; 0x0a; 0x1a; 0x0a] Hpng;
        [|magic_test [70; 79; 78; 84] Hfont;
          [|magic_test [66; 79; 85; 78; 68; 65; 82; 89] Hbnd;
            [|magic_test [0xe9; 0x8e; 0x0d; 0x0a] Heof;
              [|magic_test [0x42; 0x4d] Hbmp;
                [|magic_test [65; 85; 68; 73] Haud;
                  [|magic_test [86; 73; 68; 69] Hvid]]]]]]]];
    (eexists; split; [reflexivity|]);
    repeat split; intros; try discriminate; try reflexivity; try tauto;
    try (destruct (_ =? _); discriminate);
    try match goal with H : _ \/ _ |- _ => destruct H end;
    try discriminate; try congruence; try magic_clash.
Qed.

Lemma resource_type_by_magic_witness :
  mobi_determine_resource_type
    (sample_record 7 [0xff; 0xd8; 0xff; 0xe0; 0x00; 0x10; 0x4a; 0x46])
  = Some T_JPG.
Proof.
  destruct (resource_type_by_magic
              (sample_record 7 [0xff; 0xd8; 0xff; 0xe0; 0x00; 0x10; 0x4a; 0x46]))
    as (t & Ht & Hjpg & _).
  - vm_compute. discriminate.
  - rewrite Ht. f_equal. apply Hjpg. reflexivity.
Defined.

(** ** EXTH records and values *)

(** X21.  [mobi_get_exthrecord_by_tag] returns the first record of the EXTH
    list with the tag asked for (a tag may occur several times), and [NULL]
    exactly when the document is [NULL] or no record of the list has the
    tag. *)
Theorem exthrecord_by_tag_first (m : option MOBIData) (tag : Z) :
  (forall e, mobi_get_exthrecord_by_tag m tag = Some e <->
             exists d, m = Some d /\ first_exth_with_tag (m_eh d) tag e) /\
  (mobi_get_exthrecord_by_tag m tag = None <->
     forall d, m = Some d -> Forall (fun x => exth_tag x <> tag) (m_eh d)).
Proof.
  destruct m as [d|]; simpl.
  - split.
    + intros e. rewrite exth_tag_loop_first. split.
      * intros H. exists d. auto.
      * intros (d' & [= <-] & H). exact H.
    + split.
      * intros Hnone d' [= <-].
        induction (m_eh d) as [|c next IH]; [constructor|].
        simpl in Hnone. destruct (Z.eqb_spec (exth_tag c) tag); [discriminate|].
        constructor; [assumption|apply IH, Hnone].
      * intros Hall. specialize (Hall d eq_refl).
        induction Hall as [|c next Hc _ IH]; simpl; [reflexivity|].
        destruct (Z.eqb_spec (exth_tag c) tag); [contradiction|exact IH].
  - split.
    + intros e. split; [discriminate|]. intros (d & Hd & _). discriminate.
    + split; [|reflexivity]. intros _ d Hd. discriminate.
Qed.

(** X22.  [mobi_decode_exthvalue] on a payload of bytes gives the
    big-endian integer of its first four bytes (of all of them when there
    are fewer), a value below 2^32; bytes after the fourth do not count. *)
Theorem decode_exthvalue_big_endian (data extra : list Z) :
  Forall is_byte data ->
  Forall is_byte extra ->
  mobi_decode_exthvalue data (Z.of_nat (length data))
  = fold_left (fun acc b => acc * 256 + b) (take 4 data) 0 /\
  0 <= mobi_decode_exthvalue data (Z.of_nat (length data)) < 2 ^ 32 /\
  ((4 <= length data)%nat ->
   mobi_decode_exthvalue (data ++ extra) (Z.of_nat (length (data ++ extra)))
   = mobi_decode_exthvalue data (Z.of_nat (length data))).
Proof.
  intros Hdata Hextra.
  destruct (mobi_decode_exthvalue_be data Hdata) as [Hval Hrange].
  split; [exact Hval|]. split; [rewrite Hval; exact Hrange|].
  intros Hlen.
  destruct (mobi_decode_exthvalue_be (data ++ extra)) as [Hval' _].
  { apply Forall_app. split; assumption. }
  rewrite Hval', Hval. unfold exth_numeric_value.
  rewrite take_app_le by lia. reflexivity.
Qed.

Lemma decode_exthvalue_big_endian_witness :
  mobi_decode_exthvalue [0x12; 0x34; 0x56; 0x78] 4 = 0x12345678 /\
  mobi_decode_exthvalue [0x12; 0x34; 0x56; 0x78; 0x9A] 5 = 0x12345678.
Proof.
  assert (H4 : Forall is_byte [0x12; 0x34; 0x56; 0x78]).
  { repeat (apply Forall_cons; split; [unfold is_byte; lia|]). constructor. }
  assert (H1 : Forall is_byte [0x9A]).
  { repeat (apply Forall_cons; split; [unfold is_byte; lia|]). constructor. }
  destruct (decode_exthvalue_big_endian [0x12; 0x34; 0x56; 0x78] [0x9A] H4 H1)
    as (Hval & _ & Hextra).
  split.
  - exact Hval.
  - change (Z.of_nat (length ([0x12; 0x34; 0x56; 0x78] ++ [0x9A]))) with 5 in Hextra.
    simpl app in Hextra. rewrite (Hextra ltac:(simpl; lia)). exact Hval.
Defined.
